(** * pi-mono [packages/ai]: the unified streaming layer

    A shallow embedding of the option mapper of [stream.ts] and of the OpenAI
    Responses adapter ([providers/openai-responses.ts]) together with the
    canonical message model of [types.ts], and the properties the
    specification states about them. *)

From Stdlib Require Import ZArith QArith Qcanon Ascii String DecimalString.
From stdpp Require Import base option list strings numbers gmap.

Set Warnings "-register-all".

Local Open Scope string_scope.
Local Open Scope Z_scope.

(** ** JavaScript values used by the code *)

(** Structured (JSON-like) values: what [JSON.parse] returns, what tool-call
    [arguments] hold.  Object members are kept in insertion order; numbers
    are integers here. *)
Inductive json : Type :=
| JNull
| JBool (b : bool)
| JNum (n : Z)
| JStr (s : string)
| JArr (items : list json)
| JObj (members : list (string * json)).

(** Truthiness of an optional string / number, as [||], [&&] and [!] see it:
    [undefined], the empty string and [0] are falsy. *)
Definition truthy_str (o : option string) : bool :=
  match o with
  | Some s => negb (String.eqb s "")
  | None => false
  end.

Definition truthy_num (o : option Z) : bool :=
  match o with
  | Some n => negb (n =? 0)
  | None => false
  end.

(** [a || b] on optional strings and on optional numbers. *)
Definition or_str (a b : option string) : option string :=
  if truthy_str a then a else b.

Definition or_num (a : option Z) (b : Z) : Z :=
  match a with
  | Some n => if n =? 0 then b else n
  | None => b
  end.

(** [hay.includes(needle)] and [s.startsWith(p)]. *)
Fixpoint includes (needle hay : string) : bool :=
  String.prefix needle hay ||
  match hay with
  | EmptyString => false
  | String _ rest => includes needle rest
  end.

Definition startsWith (p s : string) : bool := String.prefix p s.

(** [a || b] on strings. *)
Definition str_or (a b : string) : string :=
  if String.eqb a "" then b else a.

(** [s.split(sep)] for a one-character separator: never empty, and the
    pieces joined by [sep] give [s] back. *)
Fixpoint split (sep : ascii) (s : string) : list string :=
  match s with
  | EmptyString => [EmptyString]
  | String c rest =>
      if Ascii.eqb c sep then EmptyString :: split sep rest
      else match split sep rest with
           | piece :: pieces => String c piece :: pieces
           | [] => [String c EmptyString]
           end
  end.

(** The line feed character, as a string; the double quote and backslash
    characters, and a string between double quotes. *)
Definition LF : string := String (ascii_of_nat 10) EmptyString.

Definition DQ : ascii := ascii_of_nat 34.

Definition BSL : ascii := ascii_of_nat 92.   (* the backslash *)

Definition quoted (s : string) : string := String DQ (s ++ String DQ EmptyString).

(** [parts.join(sep)]. *)
Definition join (sep : string) (parts : list string) : string :=
  String.concat sep parts.

(** ** types.ts: the canonical model *)

Inductive Api : Type :=
| openai_completions
| openai_responses
| openai_codex
| anthropic_messages
| google_generative_ai.

Inductive ReasoningEffort : Type := minimal | low | medium | high.

Inductive StopReason : Type :=
| SR_stop | SR_length | SR_toolUse | SR_error | SR_aborted.

(** An [AbortSignal], observed through its [aborted] flag. *)
Record AbortSignal : Type := { aborted : bool }.

Record StreamOptions : Type := {
  temperature : option Qc;
  maxTokens : option Z;
  signal : option AbortSignal;
  apiKey : option string;
  headers : option (gmap string string);
  baseUrlOverride : option string
}.

Record SimpleStreamOptions : Type := {
  s_temperature : option Qc;
  s_maxTokens : option Z;
  s_signal : option AbortSignal;
  s_apiKey : option string;
  s_headers : option (gmap string string);
  s_baseUrlOverride : option string;
  reasoning : option ReasoningEffort
}.

Inductive InputKind : Type := in_text | in_image.

Record ModelCost : Type := {
  mc_input : Qc;
  mc_output : Qc;
  mc_cacheRead : Qc;
  mc_cacheWrite : Qc
}.

Record Model : Type := {
  model_id : string;
  model_name : string;
  model_api : Api;
  model_provider : string;
  model_baseUrl : string;
  model_reasoning : bool;
  model_input : list InputKind;
  model_cost : ModelCost;
  model_contextWindow : Z;
  model_maxTokens : Z;
  model_headers : option (gmap string string)
}.

Record Cost : Type := {
  c_input : Qc;
  c_output : Qc;
  c_cacheRead : Qc;
  c_cacheWrite : Qc;
  c_total : Qc
}.

Record Usage : Type := {
  u_input : Z;
  u_output : Z;
  u_cacheRead : Z;
  u_cacheWrite : Z;
  u_cost : Cost
}.

(** ** stream.ts: expanding the simple options *)

Module Stream.

(** The vendor-specific option shapes ([OptionsForApi]); each extends
    [StreamOptions]. *)
Inductive ProviderOptions : Type :=
| AnthropicOptions (base : StreamOptions)
    (thinkingEnabled : option bool) (thinkingBudgetTokens : option Z)
| OpenAICompletionsOptions (base : StreamOptions)
    (reasoningEffort : option ReasoningEffort)
| OpenAIResponsesOptions (base : StreamOptions)
    (reasoningEffort : option ReasoningEffort)
| OpenAICodexOptions (base : StreamOptions)
    (reasoningEffort : option ReasoningEffort)
| GoogleOptions (base : StreamOptions) (thinking : option (bool * Z)).

Definition base_of (o : ProviderOptions) : StreamOptions :=
  match o with
  | AnthropicOptions b _ _ => b
  | OpenAICompletionsOptions b _ => b
  | OpenAIResponsesOptions b _ => b
  | OpenAICodexOptions b _ => b
  | GoogleOptions b _ => b
  end.

(** The numeric thinking budget an expanded option shape carries, if any. *)
Definition budget_of (o : ProviderOptions) : option Z :=
  match o with
  | AnthropicOptions _ _ b => b
  | GoogleOptions _ (Some (_, b)) => Some b
  | _ => None
  end.

Definition anthropicBudgets (effort : ReasoningEffort) : Z :=
  match effort with
  | minimal => 1024
  | low => 2048
  | medium => 8192
  | high => 16384
  end.

Definition getGoogleBudget (model : Model) (effort : ReasoningEffort) : Z :=
  if includes "2.5-pro" (model_id model) then
    match effort with
    | minimal => 128
    | low => 2048
    | medium => 8192
    | high => 32768
    end
  else if includes "2.5-flash" (model_id model) then
    match effort with
    | minimal => 128
    | low => 2048
    | medium => 8192
    | high => 24576
    end
  else -1.

Definition mapOptionsForApi (model : Model)
    (options : option SimpleStreamOptions) (apiKey : option string)
  : ProviderOptions :=
  let base := {|
    temperature := options ≫= s_temperature;
    maxTokens :=
      Some (or_num (options ≫= s_maxTokens)
              (Z.min (model_maxTokens model) 32000));
    signal := options ≫= s_signal;
    apiKey := or_str apiKey (options ≫= s_apiKey);
    headers := options ≫= s_headers;
    baseUrlOverride := options ≫= s_baseUrlOverride
  |} in
  match model_api model with
  | anthropic_messages =>
      match options ≫= reasoning with
      | None => AnthropicOptions base None None
      | Some effort =>
          AnthropicOptions base (Some true) (Some (anthropicBudgets effort))
      end
  | openai_completions =>
      OpenAICompletionsOptions base (options ≫= reasoning)
  | openai_responses =>
      OpenAIResponsesOptions base (options ≫= reasoning)
  | openai_codex =>
      OpenAICodexOptions base (options ≫= reasoning)
  | google_generative_ai =>
      match options ≫= reasoning with
      | None => GoogleOptions base None
      | Some effort =>
          GoogleOptions base (Some (true, getGoogleBudget model effort))
      end
  end.

(** Concrete inputs: a model whose ceiling is 8192 tokens, and a caller
    asking for 100000. *)
Definition small_model (api : Api) (id_ : string) : Model := {|
  model_id := id_;
  model_name := id_;
  model_api := api;
  model_provider := "test";
  model_baseUrl := "https://example.invalid";
  model_reasoning := true;
  model_input := [in_text];
  model_cost := {| mc_input := 0%Qc; mc_output := 0%Qc;
                   mc_cacheRead := 0%Qc; mc_cacheWrite := 0%Qc |};
  model_contextWindow := 200000;
  model_maxTokens := 8192;
  model_headers := None
|}.

Definition simple_options (max : option Z) (effort : option ReasoningEffort)
  : SimpleStreamOptions := {|
  s_temperature := None;
  s_maxTokens := max;
  s_signal := None;
  s_apiKey := None;
  s_headers := None;
  s_baseUrlOverride := None;
  reasoning := effort
|}.

End Stream.

(** ** types.ts: messages, content blocks, events *)

Record TextContent : Type := {
  text : string;
  textSignature : option string
}.

Record ThinkingContent : Type := {
  thinking : string;
  thinkingSignature : option string
}.

Record ImageContent : Type := {
  img_data : string;
  img_mimeType : string
}.

(** A tool call.  [tc_partialJson] is the adapter's block-local
    [partialJson] property ([ToolCall & { partialJson: string }]); [None]
    means the object does not own it, which is the canonical shape. *)
Record ToolCall : Type := {
  tc_id : string;
  tc_name : string;
  tc_arguments : json;
  tc_partialJson : option string
}.

Inductive AssistantBlock : Type :=
| BText (b : TextContent)
| BThinking (b : ThinkingContent)
| BToolCall (b : ToolCall).

Inductive UserBlock : Type :=
| UText (b : TextContent)
| UImage (b : ImageContent).

Record UserMessage : Type := {
  um_content : string + list UserBlock;
  um_timestamp : Z
}.

Record AssistantMessage : Type := {
  content : list AssistantBlock;
  am_api : Api;
  am_provider : string;
  am_model : string;
  usage : Usage;
  stopReason : StopReason;
  errorMessage : option string;
  timestamp : Z
}.

Record ToolResultMessage : Type := {
  toolCallId : string;
  toolName : string;
  tr_content : list UserBlock;
  tr_details : option json;
  isError : bool;
  tr_timestamp : Z
}.

Inductive Message : Type :=
| MUser (m : UserMessage)
| MAssistant (m : AssistantMessage)
| MToolResult (m : ToolResultMessage).

Record Tool : Type := {
  tool_name : string;
  tool_description : string;
  tool_parameters : json
}.

Record Context : Type := {
  systemPrompt : option string;
  messages : list Message;
  tools : option (list Tool)
}.

(** [AssistantMessageEvent].  Every event's [partial] is a reference to the
    one [AssistantMessage] the adapter owns, so it is not copied into the
    non-terminal events; the terminal events carry the message as it is when
    they are pushed (nothing mutates it afterwards). *)
Inductive AssistantMessageEvent : Type :=
| ev_start
| text_start (contentIndex : Z)
| text_delta (contentIndex : Z) (delta : string)
| text_end (contentIndex : Z) (content_ : string)
| thinking_start (contentIndex : Z)
| thinking_delta (contentIndex : Z) (delta : string)
| thinking_end (contentIndex : Z) (content_ : string)
| toolcall_start (contentIndex : Z)
| toolcall_delta (contentIndex : Z) (delta : string)
| toolcall_end (contentIndex : Z) (toolCall : ToolCall)
| ev_done (reason : StopReason) (message : AssistantMessage)
| ev_error (reason : StopReason) (error : AssistantMessage).

(** Modelled from the spec: the Event Stream ([utils/event-stream.js] is not
    among the sources).  [push] appends one event to the ordered channel, [end_]
    marks the channel exhausted; consumption yields the events in push
    order. *)
Record EventStream : Type := {
  queue : list AssistantMessageEvent;
  ended : bool
}.

Definition new_stream : EventStream := {| queue := []; ended := false |}.

Definition push (s : EventStream) (e : AssistantMessageEvent) : EventStream :=
  {| queue := queue s ++ [e]; ended := ended s |}.

Definition end_ (s : EventStream) : EventStream :=
  {| queue := queue s; ended := true |}.

Definition push_all (s : EventStream) (es : list AssistantMessageEvent)
  : EventStream := foldl push s es.

(** Modelled from the spec: the Usage/Cost Normalizer ([calculateCost] of
    [models.js] is not among the sources).  Each category costs its token count
    times the model's price per million tokens and [total] is the sum of the
    four; the token counts are left as they are.  Costs are exact rationals
    here, where the code has floating point. *)
Definition calculateCost (m : Model) (u : Usage) : Usage :=
  let per (price : Qc) (tokens : Z) : Qc :=
    (price / Q2Qc (inject_Z 1000000) * Q2Qc (inject_Z tokens))%Qc in
  let ci := per (mc_input (model_cost m)) (u_input u) in
  let co := per (mc_output (model_cost m)) (u_output u) in
  let cr := per (mc_cacheRead (model_cost m)) (u_cacheRead u) in
  let cw := per (mc_cacheWrite (model_cost m)) (u_cacheWrite u) in
  {| u_input := u_input u;
     u_output := u_output u;
     u_cacheRead := u_cacheRead u;
     u_cacheWrite := u_cacheWrite u;
     u_cost := {| c_input := ci; c_output := co; c_cacheRead := cr;
                  c_cacheWrite := cw;
                  c_total := (ci + co + cr + cw)%Qc |} |}.

(** Code that can throw: the value, or the thrown error's message. *)
Inductive Result (A : Type) : Type :=
| Ok (a : A)
| Throw (msg : string).
Arguments Ok {A} a.
Arguments Throw {A} msg.

(** Sequencing: a throw skips the rest.  This gives [Result] stdpp's
    [x ← r; k] notation. *)
#[global] Instance Result_bind : MBind Result := fun A B k r =>
  match r with
  | Ok a => k a
  | Throw msg => Throw msg
  end.

(** ** A small JSON codec

    Executable stand-ins for the built-ins [JSON.stringify] and [JSON.parse]
    on the values of [json] (integers for numbers; the escapes of the double
    quote, the backslash and the line feed).  The adapter is verified against
    any codec; this one is used to run it on concrete streams. *)
Module MiniJson.

Definition quote (s : string) : string :=
  let fix esc (s : string) : string :=
    match s with
    | EmptyString => EmptyString
    | String c rest =>
        if Ascii.eqb c DQ then String BSL (String DQ (esc rest))
        else if Ascii.eqb c BSL then String BSL (String BSL (esc rest))
        else if Ascii.eqb c (ascii_of_nat 10) then String BSL (String "n"%char (esc rest))
        else String c (esc rest)
    end in
  quoted (esc s).

Fixpoint stringify (v : json) : string :=
  match v with
  | JNull => "null"
  | JBool true => "true"
  | JBool false => "false"
  | JNum n => NilZero.string_of_int (Z.to_int n)
  | JStr s => quote s
  | JArr items => "[" ++ join "," (map stringify items) ++ "]"
  | JObj members =>
      "{" ++ join "," (map (fun kv => quote (fst kv) ++ ":" ++ stringify (snd kv))
                           members) ++ "}"
  end.

Fixpoint skip_ws (s : string) : string :=
  match s with
  | String c rest =>
      if Ascii.eqb c " "%char || Ascii.eqb c (ascii_of_nat 10) then skip_ws rest
      else s
  | EmptyString => s
  end.

(** The characters of a string literal after its opening quote, and what
    follows the closing quote. *)
Fixpoint parse_string (s : string) : option (string * string) :=
  match s with
  | EmptyString => None
  | String c rest =>
      if Ascii.eqb c DQ then Some (EmptyString, rest)
      else if Ascii.eqb c BSL then
        match rest with
        | String e rest' =>
            let put (ch : ascii) :=
              '(str, tail) ← parse_string rest'; Some (String ch str, tail) in
            if Ascii.eqb e "n"%char then put (ascii_of_nat 10)
            else if Ascii.eqb e DQ || Ascii.eqb e BSL then put e
            else None
        | EmptyString => None
        end
      else '(str, tail) ← parse_string rest; Some (String c str, tail)
  end.

Definition is_digit (c : ascii) : bool :=
  (48 <=? nat_of_ascii c)%nat && (nat_of_ascii c <=? 57)%nat.

Fixpoint span_number (s : string) : string * string :=
  match s with
  | String c rest =>
      if is_digit c || Ascii.eqb c "-"%char then
        let '(digits, tail) := span_number rest in (String c digits, tail)
      else (EmptyString, s)
  | EmptyString => (EmptyString, EmptyString)
  end.

Definition drop_prefix (p s : string) : option string :=
  if String.prefix p s
  then Some (String.substring (String.length p)
                              (String.length s - String.length p) s)
  else None.

Fixpoint parse_value (fuel : nat) (s : string) {struct fuel}
  : option (json * string) :=
  match fuel with
  | O => None
  | S fuel =>
      match skip_ws s with
      | EmptyString => None
      | String c rest as whole =>
          if Ascii.eqb c DQ then
            '(str, tail) ← parse_string rest; Some (JStr str, tail)
          else if Ascii.eqb c "["%char then
            match skip_ws rest with
            | String "]"%char tail => Some (JArr [], tail)
            | _ => '(items, tail) ← parse_elements fuel rest;
                   Some (JArr items, tail)
            end
          else if Ascii.eqb c "{"%char then
            match skip_ws rest with
            | String "}"%char tail => Some (JObj [], tail)
            | _ => '(members, tail) ← parse_members fuel rest;
                   Some (JObj members, tail)
            end
          else if is_digit c || Ascii.eqb c "-"%char then
            let '(digits, tail) := span_number whole in
            n ← NilZero.int_of_string digits;
            Some (JNum (Z.of_int n), tail)
          else
            match drop_prefix "null" whole, drop_prefix "true" whole,
                  drop_prefix "false" whole with
            | Some tail, _, _ => Some (JNull, tail)
            | _, Some tail, _ => Some (JBool true, tail)
            | _, _, Some tail => Some (JBool false, tail)
            | _, _, _ => None
            end
      end
  end
with parse_elements (fuel : nat) (s : string) {struct fuel}
  : option (list json * string) :=
  match fuel with
  | O => None
  | S fuel =>
      '(v, tail) ← parse_value fuel s;
      match skip_ws tail with
      | String ","%char tail' =>
          '(vs, tail'') ← parse_elements fuel tail'; Some (v :: vs, tail'')
      | String "]"%char tail' => Some ([v], tail')
      | _ => None
      end
  end
with parse_members (fuel : nat) (s : string) {struct fuel}
  : option (list (string * json) * string) :=
  match fuel with
  | O => None
  | S fuel =>
      match skip_ws s with
      | String c rest =>
          if negb (Ascii.eqb c DQ) then None else
          '(key, tail) ← parse_string rest;
          match skip_ws tail with
          | String ":"%char tail1 =>
              '(v, tail2) ← parse_value fuel tail1;
              match skip_ws tail2 with
              | String ","%char tail3 =>
                  '(kvs, tail4) ← parse_members fuel tail3;
                  Some ((key, v) :: kvs, tail4)
              | String "}"%char tail3 => Some ([(key, v)], tail3)
              | _ => None
              end
          | _ => None
          end
      | _ => None
      end
  end.

Definition parse (s : string) : Result json :=
  match parse_value (S (String.length s)) s with
  | Some (v, tail) =>
      match skip_ws tail with
      | EmptyString => Ok v
      | _ => Throw "Unexpected non-whitespace character after JSON"
      end
  | None => Throw "Unexpected token in JSON"
  end.

End MiniJson.

(** ** providers/openai-responses.ts *)

Module Responses.

(** *** The vendor's wire types (the OpenAI SDK's declarations) *)

(** A reasoning summary part, [{ type: "summary_text", text }]. *)
Record SummaryPart : Type := { sp_text : string }.

(** A message content part: [output_text] or [refusal]. *)
Inductive ContentPart : Type :=
| part_output_text (text_ : string)
| part_refusal (refusal_ : string).

(** [ResponseReasoningItem]: the fields the adapter reads, and every other
    member of the object as the vendor sent it ([r_rest]:
    [encrypted_content], [status], ...). *)
Record ReasoningItem : Type := {
  r_id : string;
  r_summary : option (list SummaryPart);
  r_rest : list (string * json)
}.

Record OutputMessage : Type := {
  m_id : string;
  m_content : list ContentPart
}.

Record FunctionToolCall : Type := {
  f_id : string;
  f_call_id : string;
  f_name : string;
  f_arguments : string
}.

Inductive OutputItem : Type :=
| ItemReasoning (r : ReasoningItem)
| ItemMessage (m : OutputMessage)
| ItemFunctionCall (f : FunctionToolCall)
| ItemOther (type_ : string).

(** The reasoning item as the structured value [JSON.stringify] walks. *)
Definition json_of_reasoning (r : ReasoningItem) : json :=
  JObj (("id", JStr (r_id r)) :: ("type", JStr "reasoning") ::
        match r_summary r with
        | Some parts =>
            [("summary",
              JArr (map (fun p => JObj [("type", JStr "summary_text");
                                        ("text", JStr (sp_text p))]) parts))]
        | None => []
        end ++ r_rest r).

Inductive ResponseStatus : Type :=
| status_completed
| status_failed
| status_in_progress
| status_cancelled
| status_queued
| status_incomplete
| status_other (s : string).   (* a status outside the declared union *)

Record ResponseUsage : Type := {
  input_tokens : option Z;
  output_tokens : option Z;
  input_tokens_details : option (option Z)   (* [{ cached_tokens? }] *)
}.

Record Response : Type := {
  resp_usage : option ResponseUsage;
  resp_status : option ResponseStatus
}.

(** The stream events the adapter looks at; [other_event] stands for every
    other [type]. *)
Inductive VendorEvent : Type :=
| output_item_added (item : OutputItem)
| reasoning_summary_part_added (part : SummaryPart)
| reasoning_summary_text_delta (delta : string)
| reasoning_summary_part_done
| content_part_added (part : ContentPart)
| output_text_delta (delta : string)
| refusal_delta (delta : string)
| function_call_arguments_delta (delta : string)
| output_item_done (item : OutputItem)
| response_completed (response : option Response)
| error_event (code message_ : string)
| response_failed
| other_event (type_ : string).

(** How the vendor's event iterator finishes: it is exhausted, or it throws
    (a transport failure, or the SDK's abort error once the caller's signal
    fires).  An iterator that stays pending for ever is not among the
    cases: the code then waits in its [for await] and pushes nothing
    more. *)
Inductive Termination : Type :=
| EndOfStream
| IteratorThrows (msg : string).

(** What [client.responses.create] gives once it settles: a rejection, or
    the events.  A call that never settles is not among the cases. *)
Inductive VendorOutcome : Type :=
| CreateRejects (msg : string)
| Streams (events : list VendorEvent) (fin : Termination).

Inductive ReasoningSummary : Type := rs_auto | rs_detailed | rs_concise.

Record OpenAIResponsesOptions : Type := {
  o_base : StreamOptions;
  reasoningEffort : option ReasoningEffort;
  reasoningSummary : option ReasoningSummary
}.

(** *** The request side: [ResponseInput] *)

Inductive InputContent : Type :=
| input_text (text_ : string)
| input_image (detail image_url : string).

Inductive InputItem : Type :=
| I_message (role : string) (content_ : list InputContent)
| I_output_message (id_ : string) (output_text_ : string) (status : string)
| I_function_call (id_ call_id : option string) (name_ arguments_ : string)
| I_function_call_output (call_id : option string) (output_ : string)
| I_parsed (item : json).   (* [JSON.parse(block.thinkingSignature)] *)

Record OpenAITool : Type := {
  ot_name : string;
  ot_description : string;
  ot_parameters : json
}.

Record ReasoningParam : Type := {
  rp_effort : ReasoningEffort;
  rp_summary : ReasoningSummary
}.

Record ResponseCreateParams : Type := {
  p_model : string;
  p_input : list InputItem;
  p_instructions : option string;
  p_tool_choice : option string;
  p_parallel_tool_calls : option bool;
  p_store : option bool;
  p_include : option (list string);
  p_max_output_tokens : option Z;
  p_temperature : option Qc;
  p_tools : option (list OpenAITool);
  p_reasoning : option ReasoningParam
}.

Record Client : Type := {
  cl_apiKey : string;
  cl_baseURL : string;
  cl_defaultHeaders : option (gmap string string)
}.

(** *** The adapter's state *)

(** [currentBlock] aliases an element of [output.content]: it is kept as
    the position of that element. *)
Record State : Type := {
  output : AssistantMessage;
  currentItem : option OutputItem;
  currentBlock : option nat
}.

(** Running handler code from a state: it completes, or it throws; either
    way the state is as the code left it and [pushed] lists the events it
    pushed, in order. *)
Inductive StepResult : Type :=
| Continue (s : State) (pushed : list AssistantMessageEvent)
| Raise (s : State) (pushed : list AssistantMessageEvent) (msg : string).

(** Names of block-local bookkeeping properties that are not part of the
    canonical block shape. *)
Inductive ExtraProperty : Type := prop_index | prop_partialJson.

(** [delete block[p]].  No block of this adapter owns [index]; deleting a
    property an object does not own leaves the object as it is. *)
Definition delete_property (p : ExtraProperty) (b : AssistantBlock)
  : AssistantBlock :=
  match p, b with
  | prop_partialJson, BToolCall tc =>
      BToolCall {| tc_id := tc_id tc; tc_name := tc_name tc;
                   tc_arguments := tc_arguments tc;
                   tc_partialJson := None |}
  | _, _ => b
  end.

Definition set_content (o : AssistantMessage) (c : list AssistantBlock)
  : AssistantMessage :=
  {| content := c; am_api := am_api o; am_provider := am_provider o;
     am_model := am_model o;
     usage := usage o; stopReason := stopReason o;
     errorMessage := errorMessage o; timestamp := timestamp o |}.

Definition set_usage (o : AssistantMessage) (u : Usage) : AssistantMessage :=
  {| content := content o; am_api := am_api o; am_provider := am_provider o;
     am_model := am_model o; usage := u; stopReason := stopReason o;
     errorMessage := errorMessage o; timestamp := timestamp o |}.

Definition set_stopReason (o : AssistantMessage) (r : StopReason)
  : AssistantMessage :=
  {| content := content o; am_api := am_api o; am_provider := am_provider o;
     am_model := am_model o; usage := usage o; stopReason := r;
     errorMessage := errorMessage o; timestamp := timestamp o |}.

Definition set_errorMessage (o : AssistantMessage) (m : option string)
  : AssistantMessage :=
  {| content := content o; am_api := am_api o; am_provider := am_provider o;
     am_model := am_model o; usage := usage o; stopReason := stopReason o;
     errorMessage := m; timestamp := timestamp o |}.

Definition with_output (s : State) (o : AssistantMessage) : State :=
  {| output := o; currentItem := currentItem s;
     currentBlock := currentBlock s |}.

Definition with_item (s : State) (i : option OutputItem) : State :=
  {| output := output s; currentItem := i; currentBlock := currentBlock s |}.

Definition with_block (s : State) (b : option nat) : State :=
  {| output := output s; currentItem := currentItem s; currentBlock := b |}.

(** [blockIndex()]: [blocks.length - 1]. *)
Definition blockIndex (s : State) : Z :=
  Z.of_nat (length (content (output s))) - 1.

(** The object [currentBlock] refers to, if it is not [null]. *)
Definition deref (s : State) : option AssistantBlock :=
  i ← currentBlock s; content (output s) !! i.

(** A write through [currentBlock]: mutates the aliased content element. *)
Definition write_current (s : State) (b : AssistantBlock) : State :=
  match currentBlock s with
  | Some i => with_output s (set_content (output s)
                               (<[i:=b]> (content (output s))))
  | None => s
  end.

Definition isToolCall (b : AssistantBlock) : bool :=
  match b with BToolCall _ => true | _ => false end.

Definition eqb_stop (a b : StopReason) : bool :=
  match a, b with
  | SR_stop, SR_stop | SR_length, SR_length | SR_toolUse, SR_toolUse
  | SR_error, SR_error | SR_aborted, SR_aborted => true
  | _, _ => false
  end.

Definition mapStopReason (status : option ResponseStatus)
  : Result StopReason :=
  match status with
  | None => Ok SR_stop
  | Some status_completed => Ok SR_stop
  | Some status_incomplete => Ok SR_length
  | Some status_failed | Some status_cancelled => Ok SR_error
  | Some status_in_progress | Some status_queued => Ok SR_stop
  | Some (status_other s) =>
      if String.eqb s "" then Ok SR_stop
      else Throw ("Unhandled stop reason: " ++ s)
  end.


(** What the adapter imports from modules that are not among the sources,
    and the JavaScript built-ins it calls.
    - [parseStreamingJson] is the Incremental JSON Parser; modelled from the
      spec, it returns some value for any input and never throws.
    - [validateToolArguments] is the Tool Argument Validator; modelled from
      the spec, it returns the (partially) validated arguments and does not
      abort the stream.
    - [JSON_parse] throws a [SyntaxError] on malformed text.
    - [random_suffix k] is what the [k]-th evaluation of
      [Math.random().toString(36).substring(2, 15)] gives. *)
Class Imports : Type := {
  JSON_parse : string -> Result json;
  JSON_stringify : json -> string;
  parseStreamingJson : string -> json;
  validateToolArguments : Tool -> ToolCall -> json;
  transformMessages : list Message -> Model -> list Message;
  sanitizeSurrogates : string -> string;
  random_suffix : nat -> string;
  CODEX_BASE_INSTRUCTIONS : string
}.

Fixpoint update_last {A : Type} (f : A -> A) (l : list A) : list A :=
  match l with
  | [] => []
  | [x] => [f x]
  | x :: rest => x :: update_last f rest
  end.

Definition set_summary (r : ReasoningItem) (parts : option (list SummaryPart))
  : ReasoningItem :=
  {| r_id := r_id r; r_summary := parts; r_rest := r_rest r |}.

Definition set_m_content (m : OutputMessage) (parts : list ContentPart)
  : OutputMessage :=
  {| m_id := m_id m; m_content := parts |}.

Definition append_part_text (delta : string) (p : ContentPart) : ContentPart :=
  match p with
  | part_output_text t => part_output_text (t ++ delta)
  | part_refusal r => part_refusal (r ++ delta)
  end.

Definition part_text (p : ContentPart) : string :=
  match p with
  | part_output_text t => t
  | part_refusal r => r
  end.

Definition signal_aborted (options : option OpenAIResponsesOptions) : bool :=
  match options ≫= (fun o => signal (o_base o)) with
  | Some sig => aborted sig
  | None => false
  end.

Definition has_image_input (model : Model) : bool :=
  existsb (fun k => match k with in_image => true | in_text => false end)
          (model_input model).

(** The message the adapter starts from, with no item and no block
    current. *)
Definition initial_state (m : Model) (now : Z) : State :=
  {| output :=
       {| content := [];
          am_api := openai_responses;
          am_provider := model_provider m;
          am_model := model_id m;
          usage := {| u_input := 0; u_output := 0; u_cacheRead := 0;
                      u_cacheWrite := 0;
                      u_cost := {| c_input := 0%Qc; c_output := 0%Qc;
                                   c_cacheRead := 0%Qc; c_cacheWrite := 0%Qc;
                                   c_total := 0%Qc |} |};
          stopReason := SR_stop;
          errorMessage := None;
          timestamp := now |};
     currentItem := None;
     currentBlock := None |}.

Section Adapter.
Context {imports : Imports}.
Variable model : Model.
Variable context : Context.

(** [output.content.push(currentBlock)] for a freshly allocated block,
    then the matching [*_start] event. *)
Definition open_block (s : State) (item : OutputItem) (b : AssistantBlock)
    (start : Z -> AssistantMessageEvent) : StepResult :=
  let s' := {| output := set_content (output s) (content (output s) ++ [b]);
               currentItem := Some item;
               currentBlock := Some (length (content (output s))) |} in
  Continue s' [start (blockIndex s')].

(** The body shared by [response.reasoning_summary_text.delta] and
    [response.reasoning_summary_part.done] (the latter with the delta
    of two line feeds). *)
Definition summary_delta (s : State) (delta : string) : StepResult :=
  match currentItem s, deref s with
  | Some (ItemReasoning r), Some (BThinking b) =>
      let summary := default [] (r_summary r) in
      match last summary with
      | Some _ =>
          let s1 := write_current s
            (BThinking {| thinking := thinking b ++ delta;
                          thinkingSignature := thinkingSignature b |}) in
          let summary' :=
            update_last (fun p => {| sp_text := sp_text p ++ delta |})
                        summary in
          let s2 := with_item s1
            (Some (ItemReasoning (set_summary r (Some summary')))) in
          Continue s2 [thinking_delta (blockIndex s2) delta]
      | None =>
          Continue (with_item s
            (Some (ItemReasoning (set_summary r (Some summary))))) []
      end
  | _, _ => Continue s []
  end.

(** The body shared by [response.output_text.delta] ([refusal = false])
    and [response.refusal.delta] ([refusal = true]). *)
Definition message_delta (refusal : bool) (s : State) (delta : string)
  : StepResult :=
  match currentItem s, deref s with
  | Some (ItemMessage m), Some (BText b) =>
      let accepted :=
        match last (m_content m), refusal with
        | Some (part_output_text _), false => true
        | Some (part_refusal _), true => true
        | _, _ => false
        end in
      if accepted then
        let s1 := write_current s
          (BText {| text := text b ++ delta;
                    textSignature := textSignature b |}) in
        let s2 := with_item s1
          (Some (ItemMessage
             (set_m_content m
                (update_last (append_part_text delta) (m_content m))))) in
        Continue s2 [text_delta (blockIndex s2) delta]
      else Continue s []
  | _, _ => Continue s []
  end.

(** One iteration of the [for await] loop body. *)
Definition step (s : State) (event : VendorEvent) : StepResult :=
  match event with
  | output_item_added item =>
      match item with
      | ItemReasoning _ =>
          open_block s item
            (BThinking {| thinking := ""; thinkingSignature := None |})
            thinking_start
      | ItemMessage _ =>
          open_block s item
            (BText {| text := ""; textSignature := None |})
            text_start
      | ItemFunctionCall f =>
          open_block s item
            (BToolCall {| tc_id := f_call_id f ++ "|" ++ f_id f;
                          tc_name := f_name f;
                          tc_arguments := JObj [];
                          tc_partialJson :=
                            Some (str_or (f_arguments f) "") |})
            toolcall_start
      | ItemOther _ => Continue s []
      end
  | reasoning_summary_part_added part =>
      match currentItem s with
      | Some (ItemReasoning r) =>
          Continue (with_item s
            (Some (ItemReasoning
               (set_summary r
                  (Some (default [] (r_summary r) ++ [part])%list))))) []
      | _ => Continue s []
      end
  | reasoning_summary_text_delta delta => summary_delta s delta
  | reasoning_summary_part_done => summary_delta s (LF ++ LF)
  | content_part_added part =>
      match currentItem s with
      | Some (ItemMessage m) =>
          Continue (with_item s
            (Some (ItemMessage
               (set_m_content m (m_content m ++ [part])%list)))) []
      | _ => Continue s []
      end
  | output_text_delta delta => message_delta false s delta
  | refusal_delta delta => message_delta true s delta
  | function_call_arguments_delta delta =>
      match currentItem s, deref s with
      | Some (ItemFunctionCall _), Some (BToolCall tc) =>
          let partialJson :=
            default "undefined" (tc_partialJson tc) ++ delta in
          let s1 := write_current s
            (BToolCall {| tc_id := tc_id tc; tc_name := tc_name tc;
                          tc_arguments := parseStreamingJson partialJson;
                          tc_partialJson := Some partialJson |}) in
          Continue s1 [toolcall_delta (blockIndex s1) delta]
      | _, _ => Continue s []
      end
  | output_item_done item =>
      match item, deref s with
      | ItemReasoning r, Some (BThinking _) =>
          let thinking_ :=
            match r_summary r with
            | Some parts => str_or (join (LF ++ LF) (map sp_text parts)) ""
            | None => ""
            end in
          let s1 := write_current s
            (BThinking {| thinking := thinking_;
                          thinkingSignature :=
                            Some (JSON_stringify (json_of_reasoning r)) |}) in
          Continue (with_block s1 None)
                   [thinking_end (blockIndex s1) thinking_]
      | ItemMessage m, Some (BText _) =>
          let text_ := join "" (map part_text (m_content m)) in
          let s1 := write_current s
            (BText {| text := text_; textSignature := Some (m_id m) |}) in
          Continue (with_block s1 None) [text_end (blockIndex s1) text_]
      | ItemFunctionCall f, _ =>
          match JSON_parse (f_arguments f) with
          | Throw msg => Raise s [] msg
          | Ok args =>
              let toolCall :=
                {| tc_id := f_call_id f ++ "|" ++ f_id f;
                   tc_name := f_name f;
                   tc_arguments := args;
                   tc_partialJson := None |} in
              let validated :=
                match tools context with
                | Some ts =>
                    match List.find
                            (fun t => String.eqb (tool_name t) (f_name f))
                            ts with
                    | Some tool =>
                        {| tc_id := tc_id toolCall;
                           tc_name := tc_name toolCall;
                           tc_arguments :=
                             validateToolArguments tool toolCall;
                           tc_partialJson := None |}
                    | None => toolCall
                    end
                | None => toolCall
                end in
              Continue s [toolcall_end (blockIndex s) validated]
          end
      | _, _ => Continue s []
      end
  | response_completed response =>
      let o1 :=
        match response ≫= resp_usage with
        | Some u =>
            let cachedTokens := or_num (input_tokens_details u ≫= id) 0 in
            set_usage (output s)
              {| u_input := or_num (input_tokens u) 0 - cachedTokens;
                 u_output := or_num (output_tokens u) 0;
                 u_cacheRead := cachedTokens;
                 u_cacheWrite := 0;
                 u_cost := {| c_input := 0%Qc; c_output := 0%Qc;
                              c_cacheRead := 0%Qc; c_cacheWrite := 0%Qc;
                              c_total := 0%Qc |} |}
        | None => output s
        end in
      let o2 := set_usage o1 (calculateCost model (usage o1)) in
      match mapStopReason (response ≫= resp_status) with
      | Throw msg => Raise (with_output s o2) [] msg
      | Ok reason =>
          let o3 := set_stopReason o2 reason in
          let o4 :=
            if existsb isToolCall (content o3)
               && eqb_stop (stopReason o3) SR_stop
            then set_stopReason o3 SR_toolUse
            else o3 in
          Continue (with_output s o4) []
      end
  | error_event code message_ =>
      Raise s [] ("Error Code " ++ code ++ ": " ++ message_)
  | response_failed => Raise s [] "Unknown error"
  | other_event _ => Continue s []
  end.

(** [for await (const event of openaiStream) { ... }] over the events the
    iterator yields before it finishes. *)
Fixpoint for_await (s : State) (events : list VendorEvent) : StepResult :=
  match events with
  | [] => Continue s []
  | event :: rest =>
      match step s event with
      | Continue s' pushed =>
          match for_await s' rest with
          | Continue s'' pushed' => Continue s'' (pushed ++ pushed')
          | Raise s'' pushed' msg => Raise s'' (pushed ++ pushed') msg
          end
      | Raise s' pushed msg => Raise s' pushed msg
      end
  end.

Definition createClient (options : option OpenAIResponsesOptions)
    (env_OPENAI_API_KEY : option string) : Result Client :=
  apiKey ←
    (if truthy_str (options ≫= (fun o => apiKey (o_base o)))
     then Ok (default "" (options ≫= (fun o => apiKey (o_base o))))
     else if truthy_str env_OPENAI_API_KEY
          then Ok (default "" env_OPENAI_API_KEY)
          else Throw
            ("OpenAI API key is required. Set OPENAI_API_KEY " ++
             "environment variable or pass it as an argument."));
  let baseURL :=
    default (model_baseUrl model)
      (or_str (options ≫= (fun o => baseUrlOverride (o_base o))) None) in
  let headers : gmap string string :=
    default ∅ (options ≫= (fun o => headers (o_base o)))
    ∪ default ∅ (model_headers model) in
  Ok {| cl_apiKey := apiKey;
        cl_baseURL := baseURL;
        cl_defaultHeaders :=
          if bool_decide (headers = ∅) then None else Some headers |}.

Definition convertTools (ts : list Tool) : list OpenAITool :=
  map (fun tool => {| ot_name := tool_name tool;
                      ot_description := tool_description tool;
                      ot_parameters := tool_parameters tool |}) ts.

Definition convertUserBlock (item : UserBlock) : InputContent :=
  match item with
  | UText t => input_text (sanitizeSurrogates (text t))
  | UImage i =>
      input_image "auto"
        ("data:" ++ img_mimeType i ++ ";base64," ++ img_data i)
  end.

Definition isInputImage (c : InputContent) : bool :=
  match c with input_image _ _ => true | input_text _ => false end.

(** What the assistant branch pushes onto [output] for one block; [k] counts
    the [Math.random()] draws made so far. *)
Definition convertAssistantBlock (msg : AssistantMessage)
    (block : AssistantBlock) (k : nat) : Result (list InputItem * nat) :=
  match block with
  | BThinking b =>
      if negb (eqb_stop (stopReason msg) SR_error) then
        if truthy_str (thinkingSignature b) then
          reasoningItem ← JSON_parse (default "" (thinkingSignature b));
          Ok ([I_parsed reasoningItem], k)
        else Ok ([], k)
      else Ok ([], k)
  | BText textBlock =>
      if truthy_str (textSignature textBlock) then
        Ok ([I_output_message
               (default "" (textSignature textBlock))
               (sanitizeSurrogates (text textBlock))
               "completed"], k)
      else
        Ok ([I_output_message
               ("msg_" ++ random_suffix k)
               (sanitizeSurrogates (text textBlock))
               "completed"], S k)
  | BToolCall toolCall =>
      if negb (eqb_stop (stopReason msg) SR_error) then
        Ok ([I_function_call
               (split "|" (tc_id toolCall) !! 1%nat)
               (split "|" (tc_id toolCall) !! 0%nat)
               (tc_name toolCall)
               (JSON_stringify (tc_arguments toolCall))], k)
      else Ok ([], k)
  end.

(** The [for (const block of msg.content)] loop of the assistant branch. *)
Fixpoint convertAssistantBlocks (msg : AssistantMessage)
    (blocks : list AssistantBlock) (k : nat)
  : Result (list InputItem * nat) :=
  match blocks with
  | [] => Ok ([], k)
  | block :: rest =>
      '(pushed, k1) ← convertAssistantBlock msg block k;
      '(more, k2) ← convertAssistantBlocks msg rest k1;
      Ok ((pushed ++ more)%list, k2)
  end.

(** Whether every replay token that [convertMessages] hands to [JSON.parse]
    is well-formed JSON text. *)
Definition block_parses (msg : AssistantMessage) (block : AssistantBlock)
  : bool :=
  match block with
  | BThinking b =>
      if negb (eqb_stop (stopReason msg) SR_error)
         && truthy_str (thinkingSignature b)
      then match JSON_parse (default "" (thinkingSignature b)) with
           | Ok _ => true
           | Throw _ => false
           end
      else true
  | _ => true
  end.

Definition history_parses (msgs : list Message) : bool :=
  forallb (fun msg =>
             match msg with
             | MAssistant m => forallb (block_parses m) (content m)
             | _ => true
             end) msgs.

(** What one iteration of the [for (const msg of transformedMessages)]
    loop pushes onto [messages]. *)
Definition convertMessage (msg : Message) (k : nat)
  : Result (list InputItem * nat) :=
  match msg with
  | MUser m =>
      match um_content m with
      | inl str =>
          Ok ([I_message "user" [input_text (sanitizeSurrogates str)]], k)
      | inr items =>
          let content_ := map convertUserBlock items in
          let filteredContent :=
            if negb (has_image_input model)
            then List.filter (fun c => negb (isInputImage c)) content_
            else content_ in
          if (length filteredContent =? 0)%nat then Ok ([], k)
          else Ok ([I_message "user" filteredContent], k)
      end
  | MAssistant m => convertAssistantBlocks m (content m) k
  | MToolResult m =>
      let textResult :=
        join LF
          (omap (fun c => match c with
                          | UText t => Some (text t)
                          | UImage _ => None
                          end) (tr_content m)) in
      let hasImages :=
        existsb (fun c => match c with UImage _ => true | _ => false end)
                (tr_content m) in
      let hasText := negb (String.eqb textResult "") in
      let call_output :=
        I_function_call_output
          (split "|" (toolCallId m) !! 0%nat)
          (sanitizeSurrogates
             (if hasText then textResult else "(see attached image)")) in
      if hasImages && has_image_input model then
        let contentParts :=
          input_text "Attached image(s) from tool result:" ::
          omap (fun block =>
                  match block with
                  | UImage i =>
                      Some (input_image "auto"
                              ("data:" ++ img_mimeType i ++ ";base64," ++
                               img_data i))
                  | UText _ => None
                  end) (tr_content m) in
        Ok ([call_output; I_message "user" contentParts], k)
      else Ok ([call_output], k)
  end.

Fixpoint convertLoop (msgs : list Message) (k : nat)
  : Result (list InputItem) :=
  match msgs with
  | [] => Ok []
  | msg :: rest =>
      '(pushed, k1) ← convertMessage msg k;
      more ← convertLoop rest k1;
      Ok (pushed ++ more)%list
  end.

Definition convertMessages (skipSystemPrompt : bool)
    (_isChatGptBackend : bool) : Result (list InputItem) :=
  let transformedMessages := transformMessages (messages context) model in
  let system :=
    if truthy_str (systemPrompt context) && negb skipSystemPrompt
    then [I_message "user"
            [input_text
               (sanitizeSurrogates (default "" (systemPrompt context)))]]
    else [] in
  converted ← convertLoop transformedMessages 0%nat;
  Ok (system ++ converted)%list.

Definition buildParams (options : option OpenAIResponsesOptions)
  : Result ResponseCreateParams :=
  let isChatGptBackend :=
    match options ≫= (fun o => baseUrlOverride (o_base o)) with
    | Some url => includes "chatgpt.com" url
    | None => false
    end in
  messages_ ← convertMessages false isChatGptBackend;
  let max_output_tokens :=
    if truthy_num (options ≫= (fun o => maxTokens (o_base o)))
    then options ≫= (fun o => maxTokens (o_base o))
    else None in
  let tools_ :=
    match tools context with
    | Some ts => Some (convertTools ts)
    | None => if isChatGptBackend then Some [] else None
    end in
  let include0 :=
    if isChatGptBackend then Some ["reasoning.encrypted_content"]
    else None in
  let wantsReasoning :=
    match options with
    | Some o =>
        match reasoningEffort o, reasoningSummary o with
        | None, None => false
        | _, _ => true
        end
    | None => false
    end in
  let juicePrompt :=
    I_message (if isChatGptBackend then "user" else "developer")
              [input_text "# Juice: 0 !important"] in
  Ok {| p_model := model_id model;
        p_input :=
          if model_reasoning model && negb wantsReasoning
             && startsWith "gpt-5" (model_name model)
          then (messages_ ++ [juicePrompt])%list
          else messages_;
        p_instructions :=
          if isChatGptBackend then Some CODEX_BASE_INSTRUCTIONS else None;
        p_tool_choice := if isChatGptBackend then Some "auto" else None;
        p_parallel_tool_calls :=
          if isChatGptBackend then Some true else None;
        p_store := if isChatGptBackend then Some false else None;
        p_include :=
          if model_reasoning model && wantsReasoning
          then Some ["reasoning.encrypted_content"]
          else include0;
        p_max_output_tokens :=
          if isChatGptBackend then None else max_output_tokens;
        p_temperature := options ≫= (fun o => temperature (o_base o));
        p_tools := tools_;
        p_reasoning :=
          if model_reasoning model && wantsReasoning
          then Some {| rp_effort :=
                         default medium (options ≫= reasoningEffort);
                       rp_summary :=
                         default rs_auto (options ≫= reasoningSummary) |}
          else None |}.

(** The [catch] block: finalize the message as failed, push the one
    [error] event, end the stream. *)
Definition failed_message (options : option OpenAIResponsesOptions)
    (output_ : AssistantMessage) (msg : string) : AssistantMessage :=
  let o1 :=
    set_content output_
      (map (delete_property prop_index) (content output_)) in
  let o2 :=
    set_stopReason o1
      (if signal_aborted options then SR_aborted else SR_error) in
  set_errorMessage o2 (Some msg).

Definition catch_error (options : option OpenAIResponsesOptions)
    (stream : EventStream) (output_ : AssistantMessage) (msg : string)
  : EventStream :=
  let failed := failed_message options output_ msg in
  end_ (push stream (ev_error (stopReason failed) failed)).

(** The adapter.  [options]' signal is read as it stands when the code
    looks at it (after the loop, and in the [catch] block);
    [env_OPENAI_API_KEY] is [process.env.OPENAI_API_KEY], [now] is
    [Date.now()], and [vendor] is what the vendor call does. *)
Definition streamOpenAIResponses
    (options : option OpenAIResponsesOptions)
    (env_OPENAI_API_KEY : option string) (now : Z)
    (vendor : VendorOutcome) : EventStream :=
  let stream := new_stream in
  let s0 := initial_state model now in
  let output_ := output s0 in
  let opened :=
    client ← createClient options env_OPENAI_API_KEY;
    params ← buildParams options;
    match vendor with
    | CreateRejects msg => Throw msg
    | Streams events fin => Ok (events, fin)
    end in
  match opened with
  | Throw msg => catch_error options stream output_ msg
  | Ok (events, fin) =>
      let stream := push stream ev_start in
      match for_await s0 events with
      | Raise s pushed msg =>
          catch_error options (push_all stream pushed) (output s) msg
      | Continue s pushed =>
          let stream := push_all stream pushed in
          match fin with
          | IteratorThrows msg =>
              catch_error options stream (output s) msg
          | EndOfStream =>
              if signal_aborted options then
                catch_error options stream (output s)
                            "Request was aborted"
              else if eqb_stop (stopReason (output s)) SR_aborted
                      || eqb_stop (stopReason (output s)) SR_error then
                catch_error options stream (output s)
                            "An unkown error ocurred"
              else
                end_ (push stream
                        (ev_done (stopReason (output s)) (output s)))
          end
      end
  end.
End Adapter.


(** *** Observations on vendor streams and on the emitted events *)

Definition start_index (e : AssistantMessageEvent) : option Z :=
  match e with
  | text_start i | thinking_start i | toolcall_start i => Some i
  | _ => None
  end.

Definition end_index (e : AssistantMessageEvent) : option Z :=
  match e with
  | text_end i _ | thinking_end i _ | toolcall_end i _ => Some i
  | _ => None
  end.

(** The [contentIndex] of the [*_start] events, in emission order. *)
Definition start_indices (es : list AssistantMessageEvent) : list Z :=
  omap start_index es.

Definition is_error_event (e : AssistantMessageEvent) : bool :=
  match e with ev_error _ _ => true | _ => false end.

Definition is_terminal (e : AssistantMessageEvent) : bool :=
  match e with ev_done _ _ | ev_error _ _ => true | _ => false end.

(** Scanning the events with the index of the open block, if any: no
    [*_start] arrives while a block is open, and every [*_end] closes the
    block that is open. *)
Fixpoint one_open_at_a_time (open : option Z)
    (es : list AssistantMessageEvent) : bool :=
  match es with
  | [] => true
  | e :: rest =>
      match start_index e, end_index e with
      | Some i, _ =>
          match open with
          | None => one_open_at_a_time (Some i) rest
          | Some _ => false
          end
      | None, Some i =>
          match open with
          | Some j => (i =? j) && one_open_at_a_time None rest
          | None => false
          end
      | None, None => one_open_at_a_time open rest
      end
  end.

(** The message a stream's last event carries. *)
Definition final_message (stream : EventStream) : option AssistantMessage :=
  match last (queue stream) with
  | Some (ev_done _ m) | Some (ev_error _ m) => Some m
  | _ => None
  end.

Inductive ItemKind : Type := kind_reasoning | kind_message | kind_function_call.

Definition item_kind (item : OutputItem) : option ItemKind :=
  match item with
  | ItemReasoning _ => Some kind_reasoning
  | ItemMessage _ => Some kind_message
  | ItemFunctionCall _ => Some kind_function_call
  | ItemOther _ => None
  end.

Definition eqb_kind (a b : ItemKind) : bool :=
  match a, b with
  | kind_reasoning, kind_reasoning | kind_message, kind_message
  | kind_function_call, kind_function_call => true
  | _, _ => false
  end.

(** A vendor stream that handles one output item at a time: an item is
    added only when none is open, and [output_item.done] reports the item
    that is open. *)
Fixpoint vendor_sequential (open : option ItemKind)
    (events : list VendorEvent) : bool :=
  match events with
  | [] => true
  | output_item_added item :: rest =>
      match item_kind item, open with
      | Some k, None => vendor_sequential (Some k) rest
      | Some _, Some _ => false
      | None, _ => vendor_sequential open rest
      end
  | output_item_done item :: rest =>
      match item_kind item, open with
      | Some k, Some k' => eqb_kind k k' && vendor_sequential None rest
      | Some _, None => false
      | None, _ => vendor_sequential open rest
      end
  | _ :: rest => vendor_sequential open rest
  end.

Definition is_delta (event : VendorEvent) : bool :=
  match event with
  | reasoning_summary_text_delta _ | output_text_delta _ | refusal_delta _
  | function_call_arguments_delta _ => true
  | _ => false
  end.

(** Whether the cursor (the current item and the block [currentBlock]
    refers to) is the one a delta event is meant for. *)
Definition cursor_accepts (s : State) (event : VendorEvent) : bool :=
  match event, currentItem s, deref s with
  | reasoning_summary_text_delta _,
    Some (ItemReasoning _), Some (BThinking _) => true
  | (output_text_delta _ | refusal_delta _),
    Some (ItemMessage _), Some (BText _) => true
  | function_call_arguments_delta _,
    Some (ItemFunctionCall _), Some (BToolCall _) => true
  | _, _, _ => false
  end.

Definition is_completed (event : VendorEvent) : bool :=
  match event with response_completed _ => true | _ => false end.

Definition adds_function_call (event : VendorEvent) : bool :=
  match event with
  | output_item_added (ItemFunctionCall _) => true
  | _ => false
  end.

Definition state_of (r : StepResult) : State :=
  match r with Continue s _ | Raise s _ _ => s end.

Definition pushed_of (r : StepResult) : list AssistantMessageEvent :=
  match r with Continue _ es | Raise _ es _ => es end.

Definition no_pipe (s : string) : bool :=
  negb (existsb (Ascii.eqb "|"%char) (list_ascii_of_string s)).

Definition same_kind (a b : AssistantBlock) : bool :=
  match a, b with
  | BText _, BText _ | BThinking _, BThinking _ | BToolCall _, BToolCall _ =>
      true
  | _, _ => false
  end.

(** How one handler run may change [output.content] and the cursor: not at
    all (the cursor may be cleared), by appending a block that becomes the
    cursor, or by rewriting the block under the cursor in place. *)
Inductive ContentChange (s s' : State) : Prop :=
| change_none :
    content (output s') = content (output s) ->
    currentBlock s' = currentBlock s ->
    ContentChange s s'
| change_open (b : AssistantBlock) :
    content (output s') = (content (output s) ++ [b])%list ->
    currentBlock s' = Some (length (content (output s))) ->
    ContentChange s s'
| change_write (i : nat) (b0 b1 : AssistantBlock) :
    currentBlock s = Some i ->
    content (output s) !! i = Some b0 ->
    same_kind b0 b1 = true ->
    content (output s') = <[i:=b1]> (content (output s)) ->
    currentBlock s' = Some i \/ currentBlock s' = None ->
    ContentChange s s'.

(** The scan of [one_open_at_a_time], giving the block left open at the
    end; [None] when the scan fails. *)
Fixpoint scan_open (open : option Z) (es : list AssistantMessageEvent)
  : option (option Z) :=
  match es with
  | [] => Some open
  | e :: rest =>
      match start_index e, end_index e with
      | Some i, _ =>
          match open with
          | None => scan_open (Some i) rest
          | Some _ => None
          end
      | None, Some i =>
          match open with
          | Some j => if i =? j then scan_open None rest else None
          | None => None
          end
      | None, None => scan_open open rest
      end
  end.

Definition kind_of_block (b : AssistantBlock) : ItemKind :=
  match b with
  | BThinking _ => kind_reasoning
  | BText _ => kind_message
  | BToolCall _ => kind_function_call
  end.

(** The adapter's cursor agrees with the item the vendor has open and with
    the block the emitted events have open. *)
Definition cursor_matches (vendor_open : option ItemKind) (s : State)
    (events_open : option Z) : Prop :=
  match vendor_open with
  | None => events_open = None
  | Some k =>
      exists i b,
        currentBlock s = Some i /\
        content (output s) !! i = Some b /\
        kind_of_block b = k /\
        S i = length (content (output s)) /\
        events_open = Some (Z.of_nat i)
  end.

(** The vendor's open item after one more event. *)
Definition vendor_open_after (open : option ItemKind) (event : VendorEvent)
  : option ItemKind :=
  match event with
  | output_item_added item =>
      match item_kind item with Some k => Some k | None => open end
  | output_item_done item =>
      match item_kind item with Some _ => None | None => open end
  | _ => open
  end.

Definition is_item_event (event : VendorEvent) : bool :=
  match event with
  | output_item_added _ | output_item_done _ => true
  | _ => false
  end.

(** *** Concrete imports and inputs, to run the adapter *)

(** Stand-ins for the imports: the codec above; an incremental parser that
    gives the strict parse of a complete text and the empty object
    otherwise; a validator and a message transformer that return their
    input. *)
Definition demo_imports : Imports := {|
  JSON_parse := MiniJson.parse;
  JSON_stringify := MiniJson.stringify;
  parseStreamingJson := fun s =>
    match MiniJson.parse s with
    | Ok v => v
    | Throw _ => JObj []
    end;
  validateToolArguments := fun _ tc => tc_arguments tc;
  transformMessages := fun msgs _ => msgs;
  sanitizeSurrogates := fun s => s;
  random_suffix := fun k => NilZero.string_of_uint (Nat.to_uint k);
  CODEX_BASE_INSTRUCTIONS := "You are Codex, based on GPT-5."
|}.

Definition demo_model : Model := {|
  model_id := "gpt-5-mini";
  model_name := "gpt-5-mini";
  model_api := openai_responses;
  model_provider := "openai";
  model_baseUrl := "https://api.openai.com/v1";
  model_reasoning := true;
  model_input := [in_text; in_image];
  model_cost := {| mc_input := Q2Qc (1 # 4); mc_output := Q2Qc 2;
                   mc_cacheRead := Q2Qc (1 # 40); mc_cacheWrite := 0%Qc |};
  model_contextWindow := 400000;
  model_maxTokens := 128000;
  model_headers := None
|}.

Definition demo_context : Context := {|
  systemPrompt := None;
  messages := [];
  tools := None
|}.

Definition demo_options (signal_fired : bool) : option OpenAIResponsesOptions :=
  Some {| o_base := {| temperature := None; maxTokens := None;
                       signal := Some {| aborted := signal_fired |};
                       apiKey := Some "sk-test"; headers := None;
                       baseUrlOverride := None |};
          reasoningEffort := None;
          reasoningSummary := None |}.

(** A run of the adapter on the concrete model, context and options. *)
Abbreviation demo_run signal_fired vendor :=
  (streamOpenAIResponses (imports := demo_imports) demo_model demo_context
     (demo_options signal_fired) None 1700000000000 vendor).

Definition lookup_item : FunctionToolCall := {|
  f_id := "fc_1"; f_call_id := "call_1"; f_name := "lookup";
  f_arguments := EmptyString
|}.

Definition lookup_item_done : FunctionToolCall := {|
  f_id := "fc_1"; f_call_id := "call_1"; f_name := "lookup";
  f_arguments := "{" ++ quoted "q" ++ ":" ++ quoted "x" ++ "}"
|}.

(** Scenario A of the spec: a message item with the text [Hello], then a
    function call [lookup] whose arguments arrive as two deltas, then
    completion with usage 10 in, 5 out. *)
Definition scenario_A_items : list VendorEvent := [
  output_item_added (ItemMessage {| m_id := "msg_1"; m_content := [] |});
  content_part_added (part_output_text EmptyString);
  output_text_delta "Hello";
  output_item_done
    (ItemMessage {| m_id := "msg_1";
                    m_content := [part_output_text "Hello"] |});
  output_item_added (ItemFunctionCall lookup_item);
  function_call_arguments_delta ("{" ++ quoted "q" ++ ":");
  function_call_arguments_delta (quoted "x" ++ "}");
  output_item_done (ItemFunctionCall lookup_item_done)
].

Definition scenario_A_completion : option Response :=
  Some {| resp_usage :=
            Some {| input_tokens := Some 10; output_tokens := Some 5;
                    input_tokens_details := None |};
          resp_status := Some status_completed |}.

Definition scenario_A : list VendorEvent :=
  (scenario_A_items ++ [response_completed scenario_A_completion])%list.

(** Scenario C of the spec: completion reporting 1000 input tokens of which
    400 were cached. *)
Definition scenario_C : Response := {|
  resp_usage :=
    Some {| input_tokens := Some 1000; output_tokens := Some 20;
            input_tokens_details := Some (Some 400) |};
  resp_status := Some status_completed
|}.

(** Two message items added back to back, the first never reported done. *)
Definition two_items_open : list VendorEvent := [
  output_item_added (ItemMessage {| m_id := "msg_1"; m_content := [] |});
  output_item_added (ItemMessage {| m_id := "msg_2"; m_content := [] |})
].

(** A completion reported before the function call item is added. *)
Definition completed_then_call : list VendorEvent := [
  response_completed
    (Some {| resp_usage := None; resp_status := Some status_completed |});
  output_item_added (ItemFunctionCall lookup_item)
].

(** A function call item is added, then the connection breaks. *)
Definition call_then_transport_error : VendorOutcome :=
  Streams [output_item_added (ItemFunctionCall lookup_item)]
          (IteratorThrows "socket hang up").

Definition reasoning_item : ReasoningItem := {|
  r_id := "rs_1";
  r_summary := Some [{| sp_text := "Check the index." |}];
  r_rest := [("encrypted_content", JStr "gAAAAB")]
|}.

(** A reasoning item is finalized, then the vendor reports failure. *)
Definition reasoning_then_failure : list VendorEvent := [
  output_item_added
    (ItemReasoning {| r_id := "rs_1"; r_summary := None; r_rest := [] |});
  output_item_done (ItemReasoning reasoning_item);
  response_failed
].

(** A reasoning item is finalized and the response completes. *)
Definition reasoning_then_completed : list VendorEvent := [
  output_item_added
    (ItemReasoning {| r_id := "rs_1"; r_summary := None; r_rest := [] |});
  output_item_done (ItemReasoning reasoning_item);
  response_completed
    (Some {| resp_usage := None; resp_status := Some status_completed |})
].

(** A function call whose item id contains the separator. *)
Definition piped_item : FunctionToolCall := {|
  f_id := "fc|1"; f_call_id := "call_1"; f_name := "lookup";
  f_arguments := "{}"
|}.

Definition piped_call : list VendorEvent := [
  output_item_added (ItemFunctionCall piped_item);
  output_item_done (ItemFunctionCall piped_item);
  response_completed
    (Some {| resp_usage := None; resp_status := Some status_completed |})
].

(** The history holding one assistant message. *)
Definition history_of (m : AssistantMessage) : Context := {|
  systemPrompt := None;
  messages := [MAssistant m];
  tools := None
|}.

(** The tool call [lookup] as it stands in a history. *)
Definition lookup_call : ToolCall := {|
  tc_id := "call_1" ++ "|" ++ "fc_1";
  tc_name := "lookup";
  tc_arguments := JObj [("q", JStr "x")];
  tc_partialJson := None
|}.

(** An assistant message of a history: the thinking block finalized from
    [reasoning_item], and the tool call [lookup]. *)
Definition replayed_message : AssistantMessage := {|
  content :=
    [BThinking {| thinking := "Check the index.";
                  thinkingSignature :=
                    Some (MiniJson.stringify
                            (json_of_reasoning reasoning_item)) |};
     BToolCall lookup_call];
  am_api := openai_responses;
  am_provider := "openai";
  am_model := "gpt-5-mini";
  usage := usage (output (initial_state demo_model 0));
  stopReason := SR_toolUse;
  errorMessage := None;
  timestamp := 1700000000000
|}.

(** The tool result answering that call. *)
Definition lookup_result : ToolResultMessage := {|
  toolCallId := "call_1" ++ "|" ++ "fc_1";
  toolName := "lookup";
  tr_content := [UText {| text := "42"; textSignature := None |}];
  tr_details := None;
  isError := false;
  tr_timestamp := 1700000000001
|}.

Definition replay_context : Context := {|
  systemPrompt := None;
  messages := [MAssistant replayed_message; MToolResult lookup_result];
  tools := None
|}.

(** *** Further observations on runs *)

(** The [contentIndex] an event carries, if it is a block event. *)
Definition event_index (e : AssistantMessageEvent) : option Z :=
  match e with
  | text_start i | text_delta i _ | text_end i _
  | thinking_start i | thinking_delta i _ | thinking_end i _
  | toolcall_start i | toolcall_delta i _ | toolcall_end i _ => Some i
  | ev_start | ev_done _ _ | ev_error _ _ => None
  end.

Definition is_toolcall_end (e : AssistantMessageEvent) : bool :=
  match e with toolcall_end _ _ => true | _ => false end.

(** What identifies a block once it is opened: its kind and, for a tool
    call, its id and name. *)
Definition block_identity (b : AssistantBlock)
  : ItemKind * option (string * string) :=
  match b with
  | BText _ => (kind_message, None)
  | BThinking _ => (kind_reasoning, None)
  | BToolCall tc => (kind_function_call, Some (tc_id tc, tc_name tc))
  end.

Definition isTextBlock (b : AssistantBlock) : bool :=
  match b with BText _ => true | _ => false end.

Definition is_output_message (item : InputItem) : bool :=
  match item with I_output_message _ _ _ => true | _ => false end.

Definition is_function_call (item : InputItem) : bool :=
  match item with I_function_call _ _ _ _ => true | _ => false end.

Definition is_function_call_output (item : InputItem) : bool :=
  match item with I_function_call_output _ _ => true | _ => false end.

(** Whether an input item carries an image part. *)
Definition item_has_image (item : InputItem) : bool :=
  match item with
  | I_message _ parts => existsb isInputImage parts
  | _ => false
  end.

Definition isToolResult (msg : Message) : bool :=
  match msg with MToolResult _ => true | _ => false end.

(** The tool calls of a message list that [convertMessages] re-sends:
    those of assistant messages that did not end with [error]. *)
Definition resent_tool_calls (msg : Message) : nat :=
  match msg with
  | MAssistant m =>
      if eqb_stop (stopReason m) SR_error then 0%nat
      else length (List.filter isToolCall (content m))
  | _ => 0%nat
  end.

(** The text a failed run reports when no API key is available. *)
Definition missing_key_message : string :=
  "OpenAI API key is required. Set OPENAI_API_KEY " ++
  "environment variable or pass it as an argument.".

(** A model that takes text only, and a history with images: one in a user
    message, one in a tool result. *)
Definition text_only_model : Model := {|
  model_id := "gpt-5-mini";
  model_name := "gpt-5-mini";
  model_api := openai_responses;
  model_provider := "openai";
  model_baseUrl := "https://api.openai.com/v1";
  model_reasoning := true;
  model_input := [in_text];
  model_cost := model_cost demo_model;
  model_contextWindow := 400000;
  model_maxTokens := 128000;
  model_headers := None
|}.

Definition image_context : Context := {|
  systemPrompt := Some "Be brief.";
  messages :=
    [MUser {| um_content :=
                inr [UText {| text := "What is this?";
                              textSignature := None |};
                     UImage {| img_data := "iVBORw0KGgo=";
                               img_mimeType := "image/png" |}];
              um_timestamp := 1700000000000 |};
     MAssistant replayed_message;
     MToolResult
       {| toolCallId := "call_1" ++ "|" ++ "fc_1";
          toolName := "lookup";
          tr_content :=
            [UText {| text := "42"; textSignature := None |};
             UImage {| img_data := "iVBORw0KGgo=";
                       img_mimeType := "image/png" |}];
          tr_details := None;
          isError := false;
          tr_timestamp := 1700000000001 |}];
  tools := None
|}.

(** An assistant message that ended with [error] after a text block, a
    thinking block whose signature is not JSON, and a tool call. *)
Definition errored_message : AssistantMessage := {|
  content :=
    [BText {| text := "Let me check."; textSignature := Some "msg_1" |};
     BThinking {| thinking := "Check the index.";
                  thinkingSignature := Some "{" |};
     BToolCall lookup_call];
  am_api := openai_responses;
  am_provider := "openai";
  am_model := "gpt-5-mini";
  usage := usage (output (initial_state demo_model 0));
  stopReason := SR_error;
  errorMessage := Some "socket hang up";
  timestamp := 1700000000000
|}.

(** The thinking blocks of a message list that [convertMessages] re-sends:
    those with a non-empty signature, of assistant messages that did not
    end with [error]; and the items it re-sends them as. *)
Definition isSignedThinking (b : AssistantBlock) : bool :=
  match b with
  | BThinking hb => truthy_str (thinkingSignature hb)
  | _ => false
  end.

Definition resent_thinking (msg : Message) : nat :=
  match msg with
  | MAssistant m =>
      if eqb_stop (stopReason m) SR_error then 0%nat
      else length (List.filter isSignedThinking (content m))
  | _ => 0%nat
  end.

Definition is_parsed (item : InputItem) : bool :=
  match item with
  | I_parsed _ => true
  | _ => false
  end.

End Responses.

(** ** stream.ts: the key registry and the dispatch *)

Module Dispatch.
Import Stream.

(** [envMap]: the environment variable that holds each known provider's
    key.  The object literal is read with a provider name only. *)
Definition envMap : gmap string string :=
  list_to_map
    [("openai", "OPENAI_API_KEY");
     ("codex", "OPENAI_OAUTH_TOKEN");
     ("anthropic", "ANTHROPIC_API_KEY");
     ("google", "GEMINI_API_KEY");
     ("groq", "GROQ_API_KEY");
     ("cerebras", "CEREBRAS_API_KEY");
     ("xai", "XAI_API_KEY");
     ("openrouter", "OPENROUTER_API_KEY");
     ("zai", "ZAI_API_KEY")].

(** [setApiKey]: [apiKeys.set(provider, key)], on the module's [apiKeys]
    map passed explicitly. *)
Definition setApiKey (provider key : string) (apiKeys : gmap string string)
  : gmap string string :=
  <[provider := key]> apiKeys.

(** [getApiKey]: the explicit key if it is truthy, else the provider's
    environment variable; [env] is [process.env]. *)
Definition getApiKey (apiKeys env : gmap string string) (provider : string)
  : option string :=
  if truthy_str (apiKeys !! provider) then apiKeys !! provider
  else
    match envMap !! provider with
    | Some envVar => if truthy_str (Some envVar) then env !! envVar else None
    | None => None
    end.

(** [{ ...options, apiKey }]: the options object with its [apiKey]
    replaced. *)
Definition with_apiKey (o : ProviderOptions) (key : string)
  : ProviderOptions :=
  let set (b : StreamOptions) : StreamOptions :=
    {| temperature := temperature b;
       maxTokens := maxTokens b;
       signal := signal b;
       apiKey := Some key;
       headers := headers b;
       baseUrlOverride := baseUrlOverride b |} in
  match o with
  | AnthropicOptions b e t => AnthropicOptions (set b) e t
  | OpenAICompletionsOptions b r => OpenAICompletionsOptions (set b) r
  | OpenAIResponsesOptions b r => OpenAIResponsesOptions (set b) r
  | OpenAICodexOptions b r => OpenAICodexOptions (set b) r
  | GoogleOptions b t => GoogleOptions (set b) t
  end.

(** The object [{ ...undefined }]: no property set, seen at the option
    shape of the model's API. *)
Definition no_options (api : Api) : ProviderOptions :=
  let b := {| temperature := None; maxTokens := None; signal := None;
              apiKey := None; headers := None; baseUrlOverride := None |} in
  match api with
  | anthropic_messages => AnthropicOptions b None None
  | openai_completions => OpenAICompletionsOptions b None
  | openai_responses => OpenAIResponsesOptions b None
  | openai_codex => OpenAICodexOptions b None
  | google_generative_ai => GoogleOptions b None
  end.

Definition no_key_message (provider : string) : string :=
  "No API key for provider: " ++ provider.

Section Adapters.
(** The five vendor adapters, and the state [stream.ts] reads: the
    registered keys and the environment. *)
Context {EventStream_ : Type}.
Variables streamAnthropic streamOpenAICompletions streamOpenAIResponses
  streamOpenAICodex streamGoogle
  : Model -> Context -> ProviderOptions -> EventStream_.
Variables apiKeys env : gmap string string.

(** The [switch (api)] of [stream]. *)
Definition adapter_for (api : Api)
  : Model -> Context -> ProviderOptions -> EventStream_ :=
  match api with
  | anthropic_messages => streamAnthropic
  | openai_completions => streamOpenAICompletions
  | openai_responses => streamOpenAIResponses
  | openai_codex => streamOpenAICodex
  | google_generative_ai => streamGoogle
  end.

Definition stream (model : Model) (context : Context)
    (options : option ProviderOptions) : Result EventStream_ :=
  let apiKey_ :=
    or_str (options ≫= (fun o => apiKey (base_of o)))
           (getApiKey apiKeys env (model_provider model)) in
  if negb (truthy_str apiKey_) then
    Throw (no_key_message (model_provider model))
  else
    let providerOptions :=
      with_apiKey (default (no_options (model_api model)) options)
                  (default "" apiKey_) in
    Ok (adapter_for (model_api model) model context providerOptions).

Definition streamSimple (model : Model) (context : Context)
    (options : option SimpleStreamOptions) : Result EventStream_ :=
  let apiKey_ :=
    or_str (options ≫= s_apiKey)
           (getApiKey apiKeys env (model_provider model)) in
  if negb (truthy_str apiKey_) then
    Throw (no_key_message (model_provider model))
  else
    let providerOptions := mapOptionsForApi model options apiKey_ in
    stream model context (Some providerOptions).

End Adapters.

(** The key a call resolves: the options' one if truthy, else the
    registered one, else the environment's. *)
Definition resolved_key (apiKeys env : gmap string string)
    (explicit : option string) (provider : string) : option string :=
  or_str explicit (getApiKey apiKeys env provider).

(** The order of the effort levels. *)
Definition effort_rank (e : ReasoningEffort) : nat :=
  match e with
  | minimal => 0
  | low => 1
  | medium => 2
  | high => 3
  end.

(** The options object of an [openai-responses] call as the adapter of
    [openai-responses.ts] reads it: the same properties, and no
    [reasoningSummary], which [mapOptionsForApi] never sets. *)
Definition as_responses_options (o : ProviderOptions)
  : Responses.OpenAIResponsesOptions :=
  {| Responses.o_base := base_of o;
     Responses.reasoningEffort :=
       match o with
       | OpenAICompletionsOptions _ r
       | OpenAIResponsesOptions _ r
       | OpenAICodexOptions _ r => r
       | _ => None
       end;
     Responses.reasoningSummary := None |}.

End Dispatch.

(** ** oauth/local-server.ts: the callback server *)

Module LocalServer.

Record CallbackResult : Type := {
  code : string;
  state : string
}.

(** A request whose target [new URL(req.url || "/", ...)] accepts, as
    [handleRequest] reads it: the path of its URL, and what
    [url.searchParams.get] gives for the four parameters ([None] for
    [null]). *)
Record Request : Type := {
  pathname : string;
  q_code : option string;
  q_state : option string;
  q_error : option string;
  q_error_description : option string
}.

Inductive Body : Type :=
| NotFound
| ERROR_HTML (message : string)
| SUCCESS_HTML.

(** [res.writeHead(status, ...)] and [res.end(body)]. *)
Record Response : Type := {
  status : Z;
  body : Body
}.

(** The closure of [startCallbackServer]: the [server] and [timeoutHandle]
    variables ([false] for [null]), the promise ([None] while pending; the
    first [resolve] or [reject] settles it, later ones do nothing), and the
    responses sent so far. *)
Record Server : Type := {
  server : bool;
  timeoutHandle : bool;
  settled : option (Result CallbackResult);
  sent : list Response
}.

(** What the event loop delivers.  [BadTarget] is a request whose target
    [new URL] rejects: [handleRequest] throws at its first statement, which
    no [try] surrounds, before it reads, writes or settles anything. *)
Inductive Event : Type :=
| Listening
| Incoming (req : Request)
| BadTarget
| ServerError (err_code : string) (err_message : string)
| TimeoutFired.

Definition cleanup (s : Server) : Server :=
  {| server := false; timeoutHandle := false;
     settled := settled s; sent := sent s |}.

Definition settle (r : Result CallbackResult) (s : Server) : Server :=
  {| server := server s; timeoutHandle := timeoutHandle s;
     settled := match settled s with
                | Some earlier => Some earlier
                | None => Some r
                end;
     sent := sent s |}.

Definition respond (r : Response) (s : Server) : Server :=
  {| server := server s; timeoutHandle := timeoutHandle s;
     settled := settled s; sent := (sent s ++ [r])%list |}.

Definition handleRequest (expectedState : string) (req : Request)
    (s : Server) : Server :=
  if negb (String.eqb (pathname req) "/")
     && negb (String.eqb (pathname req) "/auth/callback")
  then respond {| status := 404; body := NotFound |} s
  else if truthy_str (q_error req) then
    let message :=
      default "" (or_str (q_error_description req) (q_error req)) in
    settle (Throw ("OAuth error: " ++ message))
      (cleanup (respond {| status := 400; body := ERROR_HTML message |} s))
  else if negb (truthy_str (q_code req)) || negb (truthy_str (q_state req))
  then
    settle (Throw "Missing code or state parameter in callback")
      (cleanup
         (respond {| status := 400;
                     body := ERROR_HTML "Missing code or state parameter" |}
            s))
  else if negb (String.eqb (default "" (q_state req)) expectedState) then
    settle (Throw "State parameter mismatch - possible CSRF attack")
      (cleanup
         (respond
            {| status := 400;
               body :=
                 ERROR_HTML "Invalid state parameter (possible CSRF attack)" |}
            s))
  else
    settle (Ok {| code := default "" (q_code req);
                  state := default "" (q_state req) |})
      (cleanup (respond {| status := 200; body := SUCCESS_HTML |} s)).

(** One callback of the event loop: the [listen] callback arms the timer,
    a request runs [handleRequest], which throws on a target that does not
    parse and then leaves everything as it is, the [error] listener and the
    timer (if still armed) clean up and reject. *)
Definition on_event (expectedState : string) (port : nat) (ev : Event)
    (s : Server) : Server :=
  match ev with
  | Listening =>
      {| server := server s; timeoutHandle := true;
         settled := settled s; sent := sent s |}
  | Incoming req => handleRequest expectedState req s
  | BadTarget => s
  | ServerError err_code err_message =>
      settle
        (Throw (if String.eqb err_code "EADDRINUSE"
                then "Port " ++ NilZero.string_of_uint (Nat.to_uint port) ++
                     " is already in use. Please close any other OAuth " ++
                     "processes and try again."
                else err_message))
        (cleanup s)
  | TimeoutFired =>
      if timeoutHandle s then
        settle (Throw "OAuth callback timed out. Please try again.")
          (cleanup s)
      else s
  end.

Definition run (expectedState : string) (port : nat) (events : list Event)
    (s : Server) : Server :=
  fold_left (fun s ev => on_event expectedState port ev s) events s.

(** [startCallbackServer]: the state after [createServer]. *)
Definition startCallbackServer : Server :=
  {| server := true; timeoutHandle := false; settled := None; sent := [] |}.

(** A request [handleRequest] answers with 404. *)
Definition is_not_found (ev : Event) : bool :=
  match ev with
  | Incoming req =>
      negb (String.eqb (pathname req) "/")
      && negb (String.eqb (pathname req) "/auth/callback")
  | _ => false
  end.

(** A request whose target parses. *)
Definition is_request (ev : Event) : bool :=
  match ev with
  | Incoming _ => true
  | _ => false
  end.


Definition good_callback (expectedState : string) : Request :=
  {| pathname := "/auth/callback"; q_code := Some "abc";
     q_state := Some expectedState; q_error := None;
     q_error_description := None |}.

End LocalServer.

(** ** oauth/storage.ts, oauth/index.ts: stored credentials and tokens *)

Module OAuth.

Record OAuthCredentials : Type := {
  refresh : string;
  access : string;
  expires : Z;
  accountId : option string
}.

(** [oauth.json] as [loadStorage] finds it: not readable as JSON, or a JSON
    object of credentials, which is what [saveStorage] writes; a file
    holding other JSON (a number, [null], an array, entries that are not
    credentials) is not among the cases.  The object is a map over plain
    keys, see [plain_key]; the order of the keys is not modelled. *)
Inductive FileContent : Type :=
| Unreadable
| Stored (storage : gmap string OAuthCredentials).

Record Disk : Type := {
  configDir : bool;
  oauthFile : option FileContent;
  oauthMode : Z
}.

Definition ensureConfigDir (disk : Disk) : Disk :=
  if negb (configDir disk)
  then {| configDir := true; oauthFile := oauthFile disk;
          oauthMode := oauthMode disk |}
  else disk.

Definition loadStorage (disk : Disk) : gmap string OAuthCredentials :=
  match oauthFile disk with
  | None => ∅
  | Some Unreadable => ∅
  | Some (Stored storage) => storage
  end.

Definition saveStorage (storage : gmap string OAuthCredentials)
    (disk : Disk) : Disk :=
  let disk1 := ensureConfigDir disk in
  {| configDir := configDir disk1;
     oauthFile := Some (Stored storage);
     oauthMode := 384 |}.

(** The names every plain object inherits from [Object.prototype].  For
    these [storage[provider]] gives the inherited value when the object has
    no own property of that name, and [storage["__proto__"] = creds] sets
    the prototype instead of a property; the map below is right for the
    other names, which include the provider ids of [oauth/index.ts]. *)
Definition Object_prototype_names : list string :=
  ["constructor"; "__proto__"; "__defineGetter__"; "__defineSetter__";
   "__lookupGetter__"; "__lookupSetter__"; "hasOwnProperty";
   "isPrototypeOf"; "propertyIsEnumerable"; "toString"; "toLocaleString";
   "valueOf"].

Definition plain_key (name : string) : bool :=
  negb (existsb (String.eqb name) Object_prototype_names).

(** [storage[provider] || null], for a plain key. *)
Definition loadOAuthCredentials (provider : string) (disk : Disk)
  : option OAuthCredentials :=
  loadStorage disk !! provider.

Definition saveOAuthCredentials (provider : string)
    (creds : OAuthCredentials) (disk : Disk) : Disk :=
  saveStorage (<[provider := creds]> (loadStorage disk)) disk.

Definition removeOAuthCredentials (provider : string) (disk : Disk) : Disk :=
  saveStorage (delete provider (loadStorage disk)) disk.

(** What the token endpoint answers: the request fails, the response is not
    [ok] (with its text), or it is the token data. *)
Record TokenData : Type := {
  access_token : string;
  refresh_token : string;
  expires_in : Z
}.

Inductive TokenResponse : Type :=
| FetchFailed (message : string)
| NotOk (text_ : string)
| TokenJson (data : TokenData).

Section Tokens.
(** The token endpoints, as functions of the refresh token they are sent;
    the account id read from the access token (the decoding of the JWT is
    not modelled). *)
Variables fetchAnthropic fetchOpenAI : string -> TokenResponse.
Variable extractChatGptAccountIdFromJwt : string -> option string.

Definition token_data (response : TokenResponse) : Result TokenData :=
  match response with
  | FetchFailed message => Throw message
  | NotOk text_ => Throw ("Token refresh failed: " ++ text_)
  | TokenJson data => Ok data
  end.

Definition refreshAnthropicToken (refreshToken : string) (now : Z)
  : Result OAuthCredentials :=
  tokenData ← token_data (fetchAnthropic refreshToken);
  Ok {| refresh := refresh_token tokenData;
        access := access_token tokenData;
        expires := now + expires_in tokenData * 1000 - 5 * 60 * 1000;
        accountId := None |}.

Definition refreshOpenAIToken (refreshToken : string) (now : Z)
  : Result OAuthCredentials :=
  tokenData ← token_data (fetchOpenAI refreshToken);
  Ok {| refresh := refresh_token tokenData;
        access := access_token tokenData;
        expires := now + expires_in tokenData * 1000 - 5 * 60 * 1000;
        accountId :=
          extractChatGptAccountIdFromJwt (access_token tokenData) |}.

(** [refreshToken]: the new access token or the error thrown, and the disk
    afterwards.  [now] is [Date.now()] as the refresher reads it. *)
Definition refreshToken (provider : string) (now : Z) (disk : Disk)
  : Result string * Disk :=
  match loadOAuthCredentials provider disk with
  | None => (Throw ("No OAuth credentials found for " ++ provider), disk)
  | Some credentials =>
      let newCredentials :=
        if String.eqb provider "anthropic" then
          refreshAnthropicToken (refresh credentials) now
        else if String.eqb provider "openai" then
          refreshOpenAIToken (refresh credentials) now
        else if String.eqb provider "github-copilot" then
          Throw "GitHub Copilot OAuth is not yet implemented"
        else Throw ("Unknown OAuth provider: " ++ provider) in
      match newCredentials with
      | Ok creds =>
          (Ok (access creds), saveOAuthCredentials provider creds disk)
      | Throw msg => (Throw msg, disk)
      end
  end.

(** [getOAuthToken]: [checked] is [Date.now()] at the expiry check, [now]
    the later reading inside the refresher. *)
Definition getOAuthToken (provider : string) (checked now : Z) (disk : Disk)
  : option string * Disk :=
  match loadOAuthCredentials provider disk with
  | None => (None, disk)
  | Some credentials =>
      if expires credentials <=? checked then
        match refreshToken provider now disk with
        | (Ok token, disk1) => (Some token, disk1)
        | (Throw _, disk1) => (None, removeOAuthCredentials provider disk1)
        end
      else (Some (access credentials), disk)
  end.

Definition getOpenAIOAuthCredentials (checked now : Z) (disk : Disk)
  : option OAuthCredentials * Disk :=
  match loadOAuthCredentials "openai" disk with
  | None => (None, disk)
  | Some credentials =>
      if expires credentials <=? checked then
        match refreshToken "openai" now disk with
        | (Ok _, disk1) => (loadOAuthCredentials "openai" disk1, disk1)
        | (Throw _, disk1) => (None, removeOAuthCredentials "openai" disk1)
        end
      else (Some credentials, disk)
  end.

(** [logout]. *)
Definition logout (provider : string) (disk : Disk) : Disk :=
  removeOAuthCredentials provider disk.

End Tokens.

(** Concrete inputs: credentials that expire at 1000, an endpoint that
    answers every refresh with a one-hour token, one that refuses. *)
Definition old_credentials : OAuthCredentials :=
  {| refresh := "r0"; access := "a0"; expires := 1000; accountId := None |}.

Definition disk_with (provider : string) (creds : OAuthCredentials) : Disk :=
  {| configDir := true;
     oauthFile := Some (Stored {[ provider := creds ]});
     oauthMode := 384 |}.

Definition one_hour_token (refreshToken : string) : TokenResponse :=
  TokenJson {| access_token := "a1"; refresh_token := "r1";
               expires_in := 3600 |}.

Definition refusing (refreshToken : string) : TokenResponse :=
  NotOk "invalid_grant".

Definition no_account (accessToken : string) : option string := None.

End OAuth.

Import Stream Responses.

(** * Properties of [stream.ts] *)

(** C7, as the code has it: the expanded options carry the caller's
    [maxTokens] unchanged whenever the caller gives a non-zero one, whatever
    the model's ceiling; with none given (or [0]) they carry
    [min(model.maxTokens, 32000)].  This holds for every vendor API. *)
Theorem C7_maxTokens_expanded (m : Model) (options : option SimpleStreamOptions)
    (key : option string) :
  maxTokens (base_of (mapOptionsForApi m options key)) =
  Some match options ≫= s_maxTokens with
       | Some n => if n =? 0 then Z.min (model_maxTokens m) 32000 else n
       | None => Z.min (model_maxTokens m) 32000
       end.
Proof.
  unfold mapOptionsForApi.
  destruct (model_api m); simpl;
    try (destruct (options ≫= reasoning); simpl);
    unfold or_num; destruct (options ≫= s_maxTokens); reflexivity.
Qed.

(** C7 as stated fails: a caller asking for 100000 tokens of a model whose
    ceiling is 8192 gets 100000, not the minimum of the two. *)
Lemma C7_counterexample :
  let m := small_model anthropic_messages "claude-test" in
  let expanded :=
    mapOptionsForApi m (Some (simple_options (Some 100000) None)) None in
  maxTokens (base_of expanded) = Some 100000 /\
  maxTokens (base_of expanded) <> Some (Z.min 100000 (model_maxTokens m)).
Proof. split; [reflexivity | discriminate]. Qed.

(** C8: the reasoning budget is a total function of the model family and the
    effort level.  With an effort requested, the Anthropic options always
    carry a budget, which is 8192 for [medium]; the Google options always
    carry one too: 8192 for [medium] when the model id names the 2.5-pro or
    the 2.5-flash family, and the dynamic sentinel -1, for every effort,
    when it names neither. *)
Theorem C8_reasoning_budget :
  (forall m o key e,
     model_api m = anthropic_messages -> reasoning o = Some e ->
     budget_of (mapOptionsForApi m (Some o) key) = Some (anthropicBudgets e)) /\
  anthropicBudgets medium = 8192 /\
  (forall m o key e,
     model_api m = google_generative_ai -> reasoning o = Some e ->
     budget_of (mapOptionsForApi m (Some o) key) = Some (getGoogleBudget m e)) /\
  (forall m,
     includes "2.5-pro" (model_id m) = true \/
     includes "2.5-flash" (model_id m) = true ->
     getGoogleBudget m medium = 8192) /\
  (forall m e,
     includes "2.5-pro" (model_id m) = false ->
     includes "2.5-flash" (model_id m) = false ->
     getGoogleBudget m e = -1).
Proof.
  repeat split.
  - intros m o key e Hapi He. unfold mapOptionsForApi.
    rewrite Hapi. simpl. rewrite He. reflexivity.
  - intros m o key e Hapi He. unfold mapOptionsForApi.
    rewrite Hapi. simpl. rewrite He. reflexivity.
  - intros m [H | H]; unfold getGoogleBudget.
    + rewrite H. reflexivity.
    + rewrite H. destruct (includes "2.5-pro" (model_id m)); reflexivity.
  - intros m e Hpro Hflash. unfold getGoogleBudget.
    rewrite Hpro, Hflash. reflexivity.
Qed.

(** C8 at concrete models: [medium] against the Anthropic table, against
    gemini-2.5-pro and gemini-2.5-flash-lite, and every effort against an
    unknown Google family. *)
Lemma C8_reasoning_budget_witness :
  budget_of (mapOptionsForApi (small_model anthropic_messages "claude-test")
               (Some (simple_options None (Some medium))) None) = Some 8192 /\
  budget_of (mapOptionsForApi (small_model google_generative_ai "gemini-2.5-pro")
               (Some (simple_options None (Some medium))) None) = Some 8192 /\
  getGoogleBudget (small_model google_generative_ai "gemini-2.5-flash-lite")
    medium = 8192 /\
  getGoogleBudget (small_model google_generative_ai "gemini-1.5-pro") high = -1.
Proof.
  destruct C8_reasoning_budget as (Hanth & _ & Hgoogle & Hmedium & Hdyn).
  split; [| split; [| split]].
  - rewrite (Hanth _ _ None medium); reflexivity.
  - rewrite (Hgoogle _ _ None medium); [| reflexivity | reflexivity].
    rewrite Hmedium; [reflexivity | left; reflexivity].
  - apply Hmedium. right. reflexivity.
  - apply Hdyn; reflexivity.
Defined.

(** * Properties of the OpenAI Responses adapter *)

(** ** The event stream *)

Lemma queue_push_all (stream : EventStream) (es : list AssistantMessageEvent) :
  queue (push_all stream es) = (queue stream ++ es)%list.
Proof.
  revert stream. induction es as [| e es IH]; intros stream; simpl.
  - by rewrite app_nil_r.
  - unfold push_all in IH. rewrite IH. simpl. by rewrite <- app_assoc.
Qed.

Lemma ended_push_all (stream : EventStream) (es : list AssistantMessageEvent) :
  ended (push_all stream es) = ended stream.
Proof.
  revert stream. induction es as [| e es IH]; intros stream; simpl; [done |].
  unfold push_all in IH. by rewrite IH.
Qed.

Section StepProperties.
Context {imports : Imports}.
Variable model : Model.
Variable context : Context.

(** ** What one handler run does to the content and the cursor *)

Lemma write_current_change (s : State) (i : nat) (b0 b1 : AssistantBlock) :
  currentBlock s = Some i ->
  content (output s) !! i = Some b0 ->
  same_kind b0 b1 = true ->
  ContentChange s (write_current s b1).
Proof.
  intros Hcur Hget Hkind.
  apply (change_write _ _ i b0 b1); auto;
    unfold write_current; rewrite Hcur; simpl; auto.
Qed.

Lemma deref_Some (s : State) (b : AssistantBlock) :
  deref s = Some b ->
  exists i, currentBlock s = Some i /\ content (output s) !! i = Some b.
Proof.
  unfold deref. destruct (currentBlock s) as [i |]; simpl; [| done].
  intros H. by exists i.
Qed.

Lemma step_content_change (s : State) (event : VendorEvent) :
  ContentChange s (state_of (step model context s event)).
Proof.
  destruct event; simpl;
    unfold summary_delta, message_delta, open_block;
    repeat case_match; simpl;
    try (by apply change_none);
    try (by eapply change_open);
    match goal with
    | H : deref s = Some ?b |- _ =>
        destruct (deref_Some s b H) as (i & Hcur & Hget)
    end.
  all: eapply (change_write _ _ i _ _ Hcur Hget); cycle 1;
    [ unfold write_current; rewrite Hcur; reflexivity
    | unfold write_current; rewrite Hcur; simpl; auto
    | reflexivity ].
Qed.

Lemma change_frame (s s' : State) (i : nat) (b : AssistantBlock) :
  ContentChange s s' ->
  content (output s) !! i = Some b ->
  currentBlock s <> Some i ->
  content (output s') !! i = Some b /\ currentBlock s' <> Some i.
Proof.
  intros [Hc Hb | b' Hc Hb | j b0 b1 Hcur Hget Hkind Hc Hb] Hi Hne.
  - rewrite Hc, Hb. auto.
  - rewrite Hc, Hb. split.
    + rewrite lookup_app_l; [done |]. by eapply lookup_lt_Some.
    + intros [= Heq]. apply lookup_lt_Some in Hi. lia.
  - rewrite Hc. split.
    + rewrite list_lookup_insert_ne; [done |]. congruence.
    + destruct Hb as [-> | ->]; congruence.
Qed.

Lemma existsb_isToolCall_insert (l : list AssistantBlock) (i : nat)
    (b0 b1 : AssistantBlock) :
  l !! i = Some b0 -> same_kind b0 b1 = true ->
  existsb isToolCall (<[i:=b1]> l) = existsb isToolCall l.
Proof.
  revert i. induction l as [| x l IH]; intros [| i] Hget Hkind;
    simpl in *; try done.
  - injection Hget as ->. by destruct b0, b1.
  - by rewrite (IH i).
Qed.

(** A handler run keeps the length of the content and pushes no [*_start],
    or it handles [response.output_item.added], appends one block and
    pushes one [*_start] whose index is the old length. *)
Lemma step_length_starts (s : State) (event : VendorEvent) :
  let r := step model context s event in
  (length (content (output (state_of r))) = length (content (output s)) /\
   start_indices (pushed_of r) = []) \/
  (length (content (output (state_of r))) = S (length (content (output s))) /\
   start_indices (pushed_of r) = [Z.of_nat (length (content (output s)))] /\
   exists item, event = output_item_added item).
Proof.
  destruct event; simpl;
    unfold summary_delta, message_delta, open_block, write_current;
    repeat case_match; simpl;
    rewrite ?length_insert, ?length_app; simpl;
    try (left; split; reflexivity).
  all: right; unfold blockIndex; simpl; rewrite length_app; simpl;
    repeat split; [lia | f_equal; lia | eauto].
Qed.

Lemma step_keeps_toolcalls (s : State) (event : VendorEvent) :
  adds_function_call event = false ->
  existsb isToolCall (content (output (state_of (step model context s event))))
  = existsb isToolCall (content (output s)).
Proof.
  intros Hadd.
  destruct (step_length_starts s event) as [[Hlen _] | (Hlen & _ & item & ->)].
  - destruct (step_content_change s event)
      as [Hc _ | b Hc _ | i b0 b1 _ Hget Hkind Hc _].
    + by rewrite Hc.
    + rewrite Hc, length_app in Hlen. simpl in Hlen. lia.
    + rewrite Hc. by eapply existsb_isToolCall_insert.
  - destruct item; try discriminate Hadd; simpl; unfold open_block; simpl;
      try done; by rewrite existsb_app, orb_false_r.
Qed.

Lemma stopReason_write_current (s : State) (b : AssistantBlock) :
  stopReason (output (write_current s b)) = stopReason (output s).
Proof. unfold write_current. by destruct (currentBlock s). Qed.

Lemma step_keeps_stopReason (s : State) (event : VendorEvent) :
  is_completed event = false ->
  stopReason (output (state_of (step model context s event)))
  = stopReason (output s).
Proof.
  intros Hc.
  destruct event; try discriminate Hc; simpl;
    unfold summary_delta, message_delta, open_block;
    repeat case_match; simpl;
    rewrite ?stopReason_write_current; reflexivity.
Qed.

(** None of the events a handler pushes is terminal. *)
Lemma step_pushes_no_terminal (s : State) (event : VendorEvent) :
  forallb (fun e => negb (is_terminal e))
          (pushed_of (step model context s event)) = true.
Proof.
  destruct event; simpl;
    unfold summary_delta, message_delta, open_block;
    repeat case_match; reflexivity.
Qed.

(** ** The loop *)

Lemma state_of_for_await_cons (s : State) (event : VendorEvent)
    (rest : list VendorEvent) :
  state_of (for_await model context s (event :: rest)) =
  match step model context s event with
  | Continue s' _ => state_of (for_await model context s' rest)
  | Raise s' _ _ => s'
  end.
Proof.
  simpl. destruct (step model context s event) as [s' p | s' p m]; [| done].
  by destruct (for_await model context s' rest).
Qed.

Lemma pushed_of_for_await_cons (s : State) (event : VendorEvent)
    (rest : list VendorEvent) :
  pushed_of (for_await model context s (event :: rest)) =
  match step model context s event with
  | Continue s' p => (p ++ pushed_of (for_await model context s' rest))%list
  | Raise _ p _ => p
  end.
Proof.
  simpl. destruct (step model context s event) as [s' p | s' p m]; [| done].
  by destruct (for_await model context s' rest).
Qed.

(** A property of states that every handler run over the events of a
    stream preserves holds when the loop is left. *)
Lemma for_await_invariant (P : State -> Prop) (Q : VendorEvent -> bool) :
  (forall s event, Q event = true -> P s ->
                   P (state_of (step model context s event))) ->
  forall events s,
    forallb Q events = true -> P s ->
    P (state_of (for_await model context s events)).
Proof.
  intros Hstep. induction events as [| event rest IH]; intros s HQ HP.
  - done.
  - simpl in HQ. apply andb_prop in HQ as [Hq Hrest].
    rewrite state_of_for_await_cons.
    specialize (Hstep s event Hq HP).
    destruct (step model context s event) as [s' p | s' p m]; simpl in *.
    + by apply IH.
    + done.
Qed.

Lemma for_await_length_starts (events : list VendorEvent) (s : State) :
  let r := for_await model context s events in
  exists n,
    length (content (output (state_of r)))
    = (length (content (output s)) + n)%nat /\
    start_indices (pushed_of r)
    = map Z.of_nat (seq (length (content (output s))) n).
Proof.
  revert s. induction events as [| event rest IH]; intros s.
  - exists 0%nat. simpl. split; [lia | done].
  - cbv zeta. rewrite state_of_for_await_cons, pushed_of_for_await_cons.
    pose proof (step_length_starts s event) as Hstep. cbv zeta in Hstep.
    destruct (step model context s event) as [s' p | s' p m] eqn:Hs;
      simpl in Hstep.
    + destruct (IH s') as (n & Hlen & Hstarts).
      unfold start_indices in *. rewrite omap_app, Hstarts.
      destruct Hstep as [[Hl Hp] | (Hl & Hp & _)]; rewrite Hp, Hl.
      * exists n. split; [lia | done].
      * exists (S n). split; [lia | done].
    + destruct Hstep as [[Hl Hp] | (Hl & Hp & _)]; rewrite Hp.
      * exists 0%nat. split; [lia | done].
      * exists 1%nat. split; [lia | done].
Qed.

Lemma for_await_pushes_no_terminal (events : list VendorEvent) (s : State) :
  forallb (fun e => negb (is_terminal e))
          (pushed_of (for_await model context s events)) = true.
Proof.
  revert s. induction events as [| event rest IH]; intros s; [done |].
  rewrite pushed_of_for_await_cons.
  pose proof (step_pushes_no_terminal s event) as Hstep.
  destruct (step model context s event) as [s' p | s' p m]; simpl in *.
  - by rewrite forallb_app, Hstep, IH.
  - done.
Qed.

Lemma for_await_app (l1 l2 : list VendorEvent) (s : State) :
  for_await model context s (l1 ++ l2) =
  match for_await model context s l1 with
  | Continue s1 p1 =>
      match for_await model context s1 l2 with
      | Continue s2 p2 => Continue s2 (p1 ++ p2)
      | Raise s2 p2 msg => Raise s2 (p1 ++ p2) msg
      end
  | Raise s1 p1 msg => Raise s1 p1 msg
  end.
Proof.
  revert s. induction l1 as [| event l1 IH]; intros s; simpl.
  - by destruct (for_await model context s l2).
  - destruct (step model context s event) as [s' p | s' p msg]; [| done].
    rewrite IH.
    destruct (for_await model context s' l1) as [s1 p1 | s1 p1 msg]; [| done].
    destruct (for_await model context s1 l2); by rewrite app_assoc.
Qed.

(** ** One block open at a time *)

Lemma one_open_scan (es1 es2 : list AssistantMessageEvent)
    (open open' : option Z) :
  scan_open open es1 = Some open' ->
  one_open_at_a_time open (es1 ++ es2) = one_open_at_a_time open' es2.
Proof.
  revert open. induction es1 as [| e es1 IH]; intros open Hscan; simpl in *.
  - by injection Hscan as ->.
  - destruct (start_index e) as [i |], (end_index e) as [j |],
      open as [k |]; try discriminate Hscan; auto.
    destruct (j =? k); [by rewrite IH | discriminate].
Qed.

Lemma scan_open_app (es1 es2 : list AssistantMessageEvent)
    (open open' : option Z) :
  scan_open open es1 = Some open' ->
  scan_open open (es1 ++ es2) = scan_open open' es2.
Proof.
  revert open. induction es1 as [| e es1 IH]; intros open Hscan; simpl in *.
  - by injection Hscan as ->.
  - destruct (start_index e) as [i |], (end_index e) as [j |],
      open as [k |]; try discriminate Hscan; auto.
    destruct (j =? k); [by rewrite IH | discriminate].
Qed.

Lemma step_keeps_cursor (s : State) (event : VendorEvent) :
  is_item_event event = false ->
  currentBlock (state_of (step model context s event)) = currentBlock s.
Proof.
  intros Hev.
  destruct event; try discriminate Hev; simpl;
    unfold summary_delta, message_delta, write_current;
    repeat case_match; simpl; congruence.
Qed.

Lemma step_pushes_only_deltas (s : State) (event : VendorEvent)
    (open : option Z) :
  is_item_event event = false ->
  scan_open open (pushed_of (step model context s event)) = Some open.
Proof.
  intros Hev.
  destruct event; try discriminate Hev; simpl;
    unfold summary_delta, message_delta;
    repeat case_match; reflexivity.
Qed.

Lemma cursor_matches_other (s : State) (event : VendorEvent)
    (vo : option ItemKind) (eo : option Z) :
  is_item_event event = false ->
  cursor_matches vo s eo ->
  cursor_matches vo (state_of (step model context s event)) eo.
Proof.
  intros Hev Hinv. destruct vo as [k |]; [| done].
  destruct Hinv as (i & b & Hcur & Hget & Hkind & Hlen & ->).
  pose proof (step_keeps_cursor s event Hev) as Hcur'.
  destruct (step_length_starts s event) as [[Hl _] | (_ & _ & item & ->)];
    [| discriminate Hev].
  destruct (step_content_change s event)
    as [Hc _ | b' Hc _ | j b0 b1 Hj Hget0 Hsame Hc _].
  - exists i, b. rewrite Hc, Hcur'. auto.
  - rewrite Hc, length_app in Hl. simpl in Hl. lia.
  - assert (j = i) as -> by congruence.
    assert (b0 = b) as -> by congruence.
    exists i, b1. rewrite Hcur', Hc, length_insert.
    repeat split; auto.
    + apply list_lookup_insert_eq. by eapply lookup_lt_Some.
    + rewrite <- Hkind. by destruct b, b1.
Qed.

(** One handler run under a sequential vendor stream: the events it pushes
    keep one block open at a time, and the cursor follows. *)
Lemma sequential_step (s : State) (event : VendorEvent)
    (rest : list VendorEvent) (vo : option ItemKind) (eo : option Z) :
  vendor_sequential vo (event :: rest) = true ->
  cursor_matches vo s eo ->
  let r := step model context s event in
  vendor_sequential (vendor_open_after vo event) rest = true /\
  exists eo',
    scan_open eo (pushed_of r) = Some eo' /\
    ((exists s' p, r = Continue s' p) ->
     cursor_matches (vendor_open_after vo event) (state_of r) eo').
Proof.
  intros Hseq Hinv. cbv zeta.
  destruct (is_item_event event) eqn:Hev.
  - destruct event as [item | | | | | | | | item | | | |];
      try discriminate Hev; simpl in Hseq |- *.
    + (* response.output_item.added *)
      destruct item as [r | m | f | t]; simpl in *.
      4: { split; [done |]. exists eo. split; [done | by intros _]. }
      all: destruct vo as [k |]; [discriminate Hseq |].
      all: simpl in Hinv; subst eo; split; [done |].
      all: unfold open_block, blockIndex; simpl.
      all: rewrite length_app; simpl.
      all: eexists; split; [reflexivity |]; intros _.
      all: eexists (length (content (output s))), _.
      all: repeat split;
        [ by rewrite lookup_app_r, Nat.sub_diag
        | reflexivity
        | rewrite ?length_app; simpl; lia
        | f_equal; lia ].
    + (* response.output_item.done *)
      destruct item as [r | m | f | t]; simpl in *.
      4: { split; [done |]. exists eo.
           split; [| intros _]; by repeat case_match. }
      all: destruct vo as [k |]; [| discriminate Hseq].
      all: apply andb_prop in Hseq as [Hk Hseq]; split; [done |].
      all: destruct Hinv as (i & b & Hcur & Hget & Hkind & Hlen & ->).
      all: destruct k; try discriminate Hk.
      all: destruct b as [tb | hb | cb]; try discriminate Hkind.
      all: pose proof Hget as Hderef;
        change (content (output s) !! i) with (Some i ≫= (content (output s) !!.))
          in Hderef;
        rewrite <- Hcur in Hderef; fold (deref s) in Hderef;
        rewrite ?Hderef.
      * exists None. split; [| by intros _].
        unfold write_current, blockIndex. rewrite Hcur. simpl.
        rewrite length_insert.
        replace (Z.of_nat (length (content (output s))) - 1)
          with (Z.of_nat i) by lia.
        by rewrite Z.eqb_refl.
      * exists None. split; [| by intros _].
        unfold write_current, blockIndex. rewrite Hcur. simpl.
        rewrite length_insert.
        replace (Z.of_nat (length (content (output s))) - 1)
          with (Z.of_nat i) by lia.
        by rewrite Z.eqb_refl.
      * destruct (JSON_parse (f_arguments f)) as [args | msg]; simpl.
        -- exists None. split; [| by intros _].
           unfold blockIndex.
           replace (Z.of_nat (length (content (output s))) - 1)
             with (Z.of_nat i) by lia.
           by rewrite Z.eqb_refl.
        -- exists (Some (Z.of_nat i)). split; [done |].
           intros (s' & p & [=]).
  - assert (Hrest : vendor_sequential vo rest = true
                    /\ vendor_open_after vo event = vo)
      by (destruct event; try discriminate Hev; simpl in *; auto).
    destruct Hrest as [Hrest ->]. split; [done |].
    exists eo. split.
    + by apply step_pushes_only_deltas.
    + intros _. by apply cursor_matches_other.
Qed.

Lemma sequential_loop (events : list VendorEvent) (s : State)
    (vo : option ItemKind) (eo : option Z) :
  vendor_sequential vo events = true ->
  cursor_matches vo s eo ->
  exists eo',
    scan_open eo (pushed_of (for_await model context s events)) = Some eo'.
Proof.
  revert s vo eo. induction events as [| event rest IH];
    intros s vo eo Hseq Hinv.
  - by exists eo.
  - destruct (sequential_step s event rest vo eo Hseq Hinv)
      as (Hrest & eo1 & Hscan & Hnext).
    rewrite pushed_of_for_await_cons.
    destruct (step model context s event) as [s' p | s' p msg] eqn:Hstep;
      simpl in *.
    + destruct (IH s' _ eo1 Hrest) as (eo2 & Hscan2); [eauto |].
      exists eo2. by rewrite (scan_open_app _ _ _ _ Hscan).
    + by exists eo1.
Qed.

(** ** The whole run *)

(** The shape of every run: the preamble throws and the stream holds the
    one [error] event; or the stream holds [start], what the loop pushed,
    and one terminal event: [done] exactly when the loop and the iterator
    finished without throwing, the signal is not aborted and the stop
    reason is neither [error] nor [aborted]. *)
Lemma run_decompose (options : option OpenAIResponsesOptions)
    (env : option string) (now : Z) (vendor : VendorOutcome) :
  let stream := streamOpenAIResponses model context options env now vendor in
  let s0 := initial_state model now in
  ended stream = true /\
  ((exists msg,
      queue stream =
      [ev_error (stopReason (failed_message options (output s0) msg))
                (failed_message options (output s0) msg)]) \/
   (exists events fin,
      vendor = Streams events fin /\
      let r := for_await model context s0 events in
      ((exists msg,
          queue stream =
          (ev_start :: pushed_of r ++
           [ev_error (stopReason (failed_message options
                                    (output (state_of r)) msg))
                     (failed_message options (output (state_of r)) msg)])%list)
       \/
       (queue stream =
        (ev_start :: pushed_of r ++
         [ev_done (stopReason (output (state_of r)))
                  (output (state_of r))])%list /\
        signal_aborted options = false /\
        fin = EndOfStream /\
        (exists s p, r = Continue s p) /\
        stopReason (output (state_of r)) <> SR_error /\
        stopReason (output (state_of r)) <> SR_aborted)))).
Proof.
  cbv zeta. unfold streamOpenAIResponses.
  destruct (createClient model options env) as [client | msg]; simpl;
    [| split; [done | left; by exists msg]].
  destruct (buildParams model context options) as [params | msg]; simpl;
    [| split; [done | left; by exists msg]].
  destruct vendor as [msg | events fin]; simpl;
    [split; [done | left; by exists msg] |].
  destruct (for_await model context (initial_state model now) events)
    as [s p | s p msg] eqn:Hloop; simpl.
  - destruct fin as [| msg].
    + destruct (signal_aborted options) eqn:Hsig.
      * split; [done |]. right. exists events, EndOfStream.
        split; [done |]. rewrite Hloop. left. eexists.
        unfold catch_error. simpl. by rewrite queue_push_all, Hsig.
      * destruct (eqb_stop (stopReason (output s)) SR_aborted
                  || eqb_stop (stopReason (output s)) SR_error) eqn:Hstop.
        -- split; [done |]. right. exists events, EndOfStream.
           split; [done |]. rewrite Hloop. left. eexists.
           unfold catch_error. simpl. by rewrite queue_push_all, Hsig.
        -- split; [done |].
           right. exists events, EndOfStream.
           split; [done |]. rewrite Hloop. right. simpl.
           rewrite queue_push_all.
           apply orb_false_elim in Hstop as [Ha He].
           repeat split; eauto;
             intros Heq; rewrite Heq in *; discriminate.
    + split; [done |]. right. exists events, (IteratorThrows msg).
      split; [done |]. rewrite Hloop. left. eexists.
      unfold catch_error. simpl. by rewrite queue_push_all.
  - split; [done |]. right. exists events, fin.
    split; [done |]. rewrite Hloop. left. eexists.
    unfold catch_error. simpl. by rewrite queue_push_all.
Qed.

(** C4, as the code has it.  In every run the [N]-th [*_start] event
    carries [contentIndex = N - 1], so the indices are strictly increasing
    and never reused.  That no block starts before the previous one got its
    [*_end] holds when the vendor itself handles one output item at a time:
    the adapter opens a block for every item added, whether or not the
    previous block was closed. *)
Theorem C4_content_indices (options : option OpenAIResponsesOptions)
    (env : option string) (now : Z) (vendor : VendorOutcome) :
  let q :=
    queue (streamOpenAIResponses model context options env now vendor) in
  start_indices q = map Z.of_nat (seq 0 (length (start_indices q))) /\
  (forall events fin,
     vendor = Streams events fin ->
     vendor_sequential None events = true ->
     one_open_at_a_time None q = true).
Proof.
  cbv zeta.
  destruct (run_decompose options env now vendor)
    as (_ & [(msg & Hq) | (events & fin & Hvendor & Hq)]).
  - rewrite Hq. split; [reflexivity | intros; reflexivity].
  - cbv zeta in Hq.
    destruct (for_await_length_starts events (initial_state model now))
      as (n & _ & Hstarts).
    cbv zeta in Hstarts. simpl in Hstarts.
    set (r := for_await model context (initial_state model now) events)
      in *.
    assert (Hshape : exists terminal,
               queue (streamOpenAIResponses model context options env now
                        vendor)
               = (ev_start :: pushed_of r ++ [terminal])%list /\
               start_index terminal = None /\ end_index terminal = None).
    { destruct Hq as [(msg & Hq) | (Hq & _)]; eexists; split; eauto. }
    destruct Hshape as (terminal & -> & Hts & Hte).
    split.
    + unfold start_indices in *. simpl. rewrite omap_app. simpl.
      rewrite Hts, app_nil_r, Hstarts.
      by rewrite length_map, length_seq.
    + intros events' fin' Hv Hseq.
      assert (events' = events) as -> by congruence.
      destruct (sequential_loop events (initial_state model now) None None
                  Hseq eq_refl) as (eo' & Hscan).
      fold r in Hscan. simpl.
      rewrite (one_open_scan _ _ _ _ Hscan). simpl.
      by rewrite Hts, Hte.
Qed.

(** ** Usage *)

Lemma completed_sets_usage (s : State) (resp : Response)
    (u : ResponseUsage) (I C : Z) :
  resp_usage resp = Some u ->
  input_tokens u = Some I ->
  input_tokens_details u = Some (Some C) ->
  let s' := state_of (step model context s (response_completed (Some resp))) in
  u_input (usage (output s')) = I - C /\
  u_cacheRead (usage (output s')) = C /\
  u_cacheWrite (usage (output s')) = 0.
Proof.
  intros Hu HI HC. simpl. rewrite Hu, HI, HC. simpl.
  assert (HorI : (if I =? 0 then 0 else I) = I)
    by (destruct (Z.eqb_spec I 0); congruence).
  assert (HorC : (if C =? 0 then 0 else C) = C)
    by (destruct (Z.eqb_spec C 0); congruence).
  destruct (mapStopReason (resp_status resp)) as [reason | msg]; simpl;
    rewrite ?HorI, ?HorC;
    [destruct (existsb isToolCall (content (output s))
               && eqb_stop reason SR_stop) |];
    simpl; auto.
Qed.

Lemma usage_write_current (s : State) (b : AssistantBlock) :
  usage (output (write_current s b)) = usage (output s).
Proof. unfold write_current. by destruct (currentBlock s). Qed.

Lemma step_keeps_usage (s : State) (event : VendorEvent) :
  is_completed event = false ->
  usage (output (state_of (step model context s event))) = usage (output s).
Proof.
  intros Hc.
  destruct event; try discriminate Hc; simpl;
    unfold summary_delta, message_delta, open_block;
    repeat case_match; simpl;
    rewrite ?usage_write_current; reflexivity.
Qed.

Lemma state_of_for_await_app (s0 s : State) (pre rest : list VendorEvent)
    (p : list AssistantMessageEvent) :
  for_await model context s0 pre = Continue s p ->
  state_of (for_await model context s0 (pre ++ rest))
  = state_of (for_await model context s rest).
Proof.
  intros Hpre. rewrite for_await_app, Hpre.
  by destruct (for_await model context s rest).
Qed.

(** C2: when the loop handles a [response.completed] event whose usage
    reports [I] raw input tokens of which [C] are cached, the message gets
    [usage.input = I - C], [usage.cacheRead = C] and [usage.cacheWrite = 0],
    and keeps them to the end of the loop unless a later
    [response.completed] event replaces the usage (also when the status
    mapping or a later handler throws; the [catch] block does not touch the
    usage). *)
Theorem C2_cached_tokens_subtracted (s0 s : State)
    (pre post : list VendorEvent) (p : list AssistantMessageEvent)
    (resp : Response) (u : ResponseUsage) (I C : Z) :
  for_await model context s0 pre = Continue s p ->
  resp_usage resp = Some u ->
  input_tokens u = Some I ->
  input_tokens_details u = Some (Some C) ->
  forallb (fun e => negb (is_completed e)) post = true ->
  let sf :=
    state_of (for_await model context s0
                (pre ++ response_completed (Some resp) :: post)) in
  u_input (usage (output sf)) = I - C /\
  u_cacheRead (usage (output sf)) = C /\
  u_cacheWrite (usage (output sf)) = 0.
Proof.
  intros Hpre Hu HI HC Hpost. cbv zeta.
  rewrite (state_of_for_await_app _ _ _ _ _ Hpre), state_of_for_await_cons.
  pose proof (completed_sets_usage s resp u I C Hu HI HC) as Hset.
  cbv zeta in Hset.
  destruct (step model context s (response_completed (Some resp)))
    as [s' p' | s' p' msg]; simpl in Hset; [| exact Hset].
  assert (Hkeep : usage (output (state_of (for_await model context s' post)))
                  = usage (output s')).
  { apply (for_await_invariant
             (fun s1 => usage (output s1) = usage (output s'))
             (fun e => negb (is_completed e))); [| exact Hpost | done].
    intros s1 event Hq Hs1. apply negb_true_iff in Hq.
    by rewrite step_keeps_usage. }
  by rewrite Hkeep.
Qed.

(** C6, as the code has it: a delta event that the cursor is not in a state
    to take is dropped; the handler pushes nothing, changes nothing and the
    loop goes on. *)
Theorem C6_unrecognized_delta_ignored (s : State) (event : VendorEvent) :
  is_delta event = true ->
  cursor_accepts s event = false ->
  step model context s event = Continue s [].
Proof.
  intros Hdelta Hcursor.
  destruct event; try discriminate Hdelta; simpl;
    unfold summary_delta, message_delta, cursor_accepts in *;
    destruct (currentItem s) as [[ | | | ] | ];
    destruct (deref s) as [[ | | ] | ];
    try reflexivity; discriminate Hcursor.
Qed.

(** ** The stop reason *)

Lemma for_await_cons_Continue (s sf : State) (event : VendorEvent)
    (rest : list VendorEvent) (pf : list AssistantMessageEvent) :
  for_await model context s (event :: rest) = Continue sf pf ->
  exists s' p p',
    step model context s event = Continue s' p /\
    for_await model context s' rest = Continue sf p'.
Proof.
  cbn [for_await].
  destruct (step model context s event) as [s' p | s' p msg];
    [| discriminate].
  destruct (for_await model context s' rest) as [s'' p' | s'' p' msg]
    eqn:Hrest; [| discriminate].
  intros [= -> _]. eauto.
Qed.

(** Handling [response.completed] with a status that maps to [stop] while the
    content holds a tool call leaves [stopReason = toolUse]. *)
Lemma completed_upgrades_stop (s : State) (response : option Response) :
  mapStopReason (response ≫= resp_status) = Ok SR_stop ->
  existsb isToolCall (content (output s)) = true ->
  stopReason (output (state_of (step model context s
                                  (response_completed response))))
  = SR_toolUse.
Proof.
  intros Hmap Htool. simpl. rewrite Hmap. simpl.
  destruct (response ≫= resp_usage); simpl; by rewrite Htool.
Qed.

(** C1, as the code has it: the upgrade is made while [response.completed] is
    handled.  If the run ends with [done], its last [response.completed]
    event had a status mapping to [stop], no function call item was added
    after that event, and the final content holds a tool call, then the final
    [stopReason] (and the [done] event's reason) is [toolUse]. *)
Theorem C1_stop_upgraded_to_toolUse (options : option OpenAIResponsesOptions)
    (env : option string) (now : Z)
    (pre post : list VendorEvent) (response : option Response)
    (fin : Termination) (reason : StopReason) (m : AssistantMessage) :
  last (queue (streamOpenAIResponses model context options env now
                 (Streams (pre ++ response_completed response :: post) fin)))
  = Some (ev_done reason m) ->
  forallb (fun e => negb (is_completed e) && negb (adds_function_call e)) post
  = true ->
  mapStopReason (response ≫= resp_status) = Ok SR_stop ->
  existsb isToolCall (content m) = true ->
  reason = SR_toolUse /\ stopReason m = SR_toolUse.
Proof.
  intros Hlast Hpost Hmap Htool.
  destruct (run_decompose options env now
              (Streams (pre ++ response_completed response :: post) fin))
    as (_ & [(msg & Hq) | (events & fin' & Hv & Hq)]).
  { rewrite Hq in Hlast. discriminate Hlast. }
  injection Hv as <- <-. cbv zeta in Hq.
  destruct Hq as [(msg & Hq) | (Hq & _ & _ & (sf & pf & Hr) & _)].
  { rewrite Hq, app_comm_cons, last_snoc in Hlast. discriminate Hlast. }
  rewrite Hq, app_comm_cons, last_snoc in Hlast.
  injection Hlast as <- <-.
  rewrite Hr in Htool |- *. simpl in Htool |- *. clear Hq.
  rewrite for_await_app in Hr.
  destruct (for_await model context (initial_state model now) pre)
    as [s1 p1 | s1 p1 msg]; [| discriminate Hr].
  assert (Hafter : exists p, for_await model context s1
                               (response_completed response :: post)
                             = Continue sf p).
  { destruct (for_await model context s1
                (response_completed response :: post));
      [injection Hr as -> _; eauto | discriminate Hr]. }
  clear Hr. destruct Hafter as (p3 & Hr).
  apply for_await_cons_Continue in Hr as (s2 & p2 & p' & Hstep & Hrest).
  pose proof (completed_upgrades_stop s1 response Hmap) as Hup.
  pose proof (step_keeps_toolcalls s1 (response_completed response) eq_refl)
    as Hkeep1.
  rewrite Hstep in Hup, Hkeep1. simpl in Hup, Hkeep1.
  assert (Hinv : stopReason (output (state_of (for_await model context s2 post)))
                 = stopReason (output s2) /\
                 existsb isToolCall
                   (content (output (state_of (for_await model context s2 post))))
                 = existsb isToolCall (content (output s2))).
  { apply (for_await_invariant
             (fun s => stopReason (output s) = stopReason (output s2) /\
                       existsb isToolCall (content (output s))
                       = existsb isToolCall (content (output s2)))
             (fun e => negb (is_completed e) && negb (adds_function_call e)));
      [| exact Hpost | done].
    intros s event Hq' [Hs Ht].
    apply andb_prop in Hq' as [Hc Ha].
    apply negb_true_iff in Hc, Ha. split.
    - by rewrite step_keeps_stopReason.
    - by rewrite step_keeps_toolcalls. }
  rewrite Hrest in Hinv. simpl in Hinv. destruct Hinv as [Hs Ht].
  rewrite Hs. split; apply Hup; by rewrite <- Hkeep1, <- Ht.
Qed.

(** ** Failed runs *)

Lemma delete_index_keeps_block (b : AssistantBlock) :
  delete_property prop_index b = b.
Proof. by destruct b. Qed.

(** The [catch] block leaves every content block as it finds it, the
    [partialJson] of tool calls included. *)
Lemma failed_message_keeps_blocks (options : option OpenAIResponsesOptions)
    (o : AssistantMessage) (msg : string) :
  content (failed_message options o msg) = content o.
Proof.
  unfold failed_message. simpl.
  induction (content o) as [| b l IH]; simpl; [done |].
  rewrite ?delete_index_keeps_block. by f_equal.
Qed.

(** A run whose transport fails or whose signal is aborted: the stream is
    ended, holds exactly one terminal event, an [error] event, as its last
    event; its reason and the message's [stopReason] are [aborted] if the
    signal is aborted and [error] otherwise, and [errorMessage] is set. *)
Lemma error_run_shape (options : option OpenAIResponsesOptions)
    (env : option string) (now : Z) (vendor : VendorOutcome) :
  signal_aborted options = true \/
  (exists msg, vendor = CreateRejects msg) \/
  (exists events msg, vendor = Streams events (IteratorThrows msg)) ->
  let stream := streamOpenAIResponses model context options env now vendor in
  let reason := if signal_aborted options then SR_aborted else SR_error in
  ended stream = true /\
  exists pre m,
    queue stream = (pre ++ [ev_error reason m])%list /\
    forallb (fun e => negb (is_terminal e)) pre = true /\
    stopReason m = reason /\
    is_Some (errorMessage m).
Proof.
  intros Hfail. cbv zeta.
  destruct (run_decompose options env now vendor)
    as (Hended & [(msg & Hq) | (events & fin & Hv & Hq)]).
  - split; [done |]. exists [], (failed_message options
                                   (output (initial_state model now)) msg).
    rewrite Hq. simpl. eauto.
  - cbv zeta in Hq. split; [done |].
    destruct Hq as [(msg & Hq) | (Hq & Hsig & Hfin & _)].
    + eexists (ev_start :: pushed_of _), _. rewrite Hq. simpl.
      split; [reflexivity |]. split; [| eauto].
      apply for_await_pushes_no_terminal.
    + destruct Hfail as [Ha | [(msg & Hc) | (evs & msg & Hs)]];
        congruence.
Qed.

(** Handling [response.output_item.done] for a function call changes
    neither the message nor the cursor: the strictly parsed, validated
    arguments only travel in the [toolcall_end] event. *)
Lemma function_call_done_keeps_state (s : State) (f : FunctionToolCall) :
  state_of (step model context s (output_item_done (ItemFunctionCall f))) = s.
Proof.
  simpl. by destruct (JSON_parse (f_arguments f)).
Qed.

(** C5 at Scenario A, for any imports under which the arguments text of the
    completed function call parses: the loop ends with [stopReason = toolUse]
    and the text block reads [Hello], but the tool-call block of the content
    still carries [partialJson], and its [arguments] are what the incremental
    parser made of the accumulated deltas, not the strictly parsed and
    validated value: the [output_item.done] handler builds that value for
    the [toolcall_end] event only and never writes it back. *)
Theorem C5_scenario_A_final_content (now : Z) (v : json) :
  let args_text := "{" ++ quoted "q" ++ ":" ++ quoted "x" ++ "}" in
  JSON_parse args_text = Ok v ->
  exists s' pushed,
    for_await model context (initial_state model now) scenario_A
    = Continue s' pushed /\
    content (output s')
    = [BText {| text := "Hello"; textSignature := Some "msg_1" |};
       BToolCall {| tc_id := "call_1|fc_1";
                    tc_name := "lookup";
                    tc_arguments := parseStreamingJson args_text;
                    tc_partialJson := Some args_text |}] /\
    stopReason (output s') = SR_toolUse.
Proof.
  cbv zeta. intros Hparse.
  unfold scenario_A, scenario_A_items, scenario_A_completion.
  cbn. cbn in Hparse. rewrite Hparse. cbn.
  eexists _, _. repeat split.
Qed.

(** ** Converting a history back to vendor input *)

Lemma convertAssistantBlock_ok (m : AssistantMessage) (b : AssistantBlock)
    (k : nat) :
  block_parses m b = true ->
  exists items k', convertAssistantBlock m b k = Ok (items, k').
Proof.
  intros Hp. destruct b as [tb | hb | cb]; simpl in *.
  - destruct (truthy_str (textSignature tb)); eauto.
  - destruct (negb (eqb_stop (stopReason m) SR_error)); simpl in *; eauto.
    destruct (truthy_str (thinkingSignature hb)); simpl in *; eauto.
    destruct (JSON_parse (default "" (thinkingSignature hb)));
      [simpl; eauto | discriminate Hp].
  - destruct (negb (eqb_stop (stopReason m) SR_error)); eauto.
Qed.

Lemma convertAssistantBlocks_ok (m : AssistantMessage)
    (blocks : list AssistantBlock) (k : nat) :
  forallb (block_parses m) blocks = true ->
  exists items k', convertAssistantBlocks m blocks k = Ok (items, k').
Proof.
  revert k. induction blocks as [| b blocks IH]; intros k Hp; simpl.
  - eauto.
  - simpl in Hp. apply andb_prop in Hp as [Hb Hrest].
    destruct (convertAssistantBlock_ok m b k Hb) as (its & k1 & ->).
    destruct (IH k1 Hrest) as (more & k2 & Hmore).
    simpl. rewrite Hmore. simpl. eauto.
Qed.

Lemma convertAssistantBlocks_In (m : AssistantMessage)
    (blocks : list AssistantBlock) (k k' : nat) (items : list InputItem)
    (b : AssistantBlock) :
  convertAssistantBlocks m blocks k = Ok (items, k') ->
  In b blocks ->
  exists k0 its k1,
    convertAssistantBlock m b k0 = Ok (its, k1) /\
    forall x, In x its -> In x items.
Proof.
  revert k items. induction blocks as [| b0 blocks IH]; intros k items Hc Hin.
  - destruct Hin.
  - simpl in Hc.
    destruct (convertAssistantBlock m b0 k) as [[its k1] | msg] eqn:Hb0;
      [| discriminate Hc].
    simpl in Hc.
    destruct (convertAssistantBlocks m blocks k1) as [[more k2] | msg] eqn:Hr;
      [| discriminate Hc].
    simpl in Hc. injection Hc as <- <-.
    destruct Hin as [<- | Hin].
    + exists k, its, k1. split; [done |].
      intros x Hx. apply in_or_app. by left.
    + destruct (IH k1 more Hr Hin) as (k0 & its' & k1' & Hb & Hsub).
      exists k0, its', k1'. split; [done |].
      intros x Hx. apply in_or_app. right. by apply Hsub.
Qed.

Lemma convertMessage_ok (msg : Message) (k : nat) :
  match msg with
  | MAssistant m => forallb (block_parses m) (content m)
  | _ => true
  end = true ->
  exists items k', convertMessage model msg k = Ok (items, k').
Proof.
  intros Hp. destruct msg as [um | am | tr]; simpl.
  - destruct (um_content um); [eauto |]. case_match; eauto.
  - by apply convertAssistantBlocks_ok.
  - case_match; eauto.
Qed.

Lemma convertLoop_ok (msgs : list Message) (k : nat) :
  history_parses msgs = true ->
  exists items, convertLoop model msgs k = Ok items.
Proof.
  revert k. induction msgs as [| msg msgs IH]; intros k Hp; simpl.
  - eauto.
  - simpl in Hp. apply andb_prop in Hp as [Hm Hrest].
    destruct (convertMessage_ok msg k Hm) as (its & k1 & ->).
    destruct (IH k1 Hrest) as (more & Hmore).
    simpl. rewrite Hmore. simpl. eauto.
Qed.

Lemma convertLoop_In (msgs : list Message) (k : nat) (items : list InputItem)
    (msg : Message) :
  convertLoop model msgs k = Ok items ->
  In msg msgs ->
  exists k0 its k1,
    convertMessage model msg k0 = Ok (its, k1) /\
    forall x, In x its -> In x items.
Proof.
  revert k items. induction msgs as [| m0 msgs IH]; intros k items Hc Hin.
  - destruct Hin.
  - simpl in Hc.
    destruct (convertMessage model m0 k) as [[its k1] | e] eqn:Hm0;
      [| discriminate Hc].
    simpl in Hc.
    destruct (convertLoop model msgs k1) as [more | e] eqn:Hr;
      [| discriminate Hc].
    simpl in Hc. injection Hc as <-.
    destruct Hin as [<- | Hin].
    + exists k, its, k1. split; [done |].
      intros x Hx. apply in_or_app. by left.
    + destruct (IH k1 more Hr Hin) as (k0 & its' & k1' & Hb & Hsub).
      exists k0, its', k1'. split; [done |].
      intros x Hx. apply in_or_app. right. by apply Hsub.
Qed.

(** ** Splitting a composite tool-call id *)

Lemma no_pipe_String (c : ascii) (s : string) :
  no_pipe (String c s) = true ->
  Ascii.eqb c "|" = false /\ no_pipe s = true.
Proof.
  unfold no_pipe. simpl. rewrite negb_orb. intros H.
  apply andb_prop in H as [Hc Hs]. split; [| done].
  apply negb_true_iff in Hc. by rewrite Ascii.eqb_sym.
Qed.

Lemma split_no_pipe (s : string) :
  no_pipe s = true -> split "|" s = [s].
Proof.
  induction s as [| c s IH]; intros H; simpl; [done |].
  apply no_pipe_String in H as [Hc Hs]. by rewrite Hc, IH.
Qed.

Lemma split_pipe (a rest : string) :
  no_pipe a = true ->
  split "|" (a ++ "|" ++ rest) = a :: split "|" rest.
Proof.
  induction a as [| c a IH]; intros H; simpl; [done |].
  apply no_pipe_String in H as [Hc Ha]. rewrite Hc.
  simpl in IH. by rewrite IH.
Qed.

(** ** Replay tokens and tool-call ids *)

(** A block that is not under the cursor is never touched again. *)
Lemma for_await_frame (events : list VendorEvent) (s : State) (i : nat)
    (b : AssistantBlock) :
  content (output s) !! i = Some b ->
  currentBlock s <> Some i ->
  content (output (state_of (for_await model context s events))) !! i = Some b.
Proof.
  intros Hget Hcur.
  apply (for_await_invariant
           (fun s' => content (output s') !! i = Some b /\
                      currentBlock s' <> Some i)
           (fun _ => true)); [| by apply forallb_forall | done].
  intros s' event _ [Hg Hc].
  by apply (change_frame s'); [apply step_content_change | |].
Qed.

(** What [convertMessages] returns holds everything that the conversion of
    any one block of any assistant message of the transformed list pushes,
    and the output item of every tool result of that list. *)
Lemma convertMessages_returned_block (skip chat : bool)
    (items : list InputItem) (m : AssistantMessage) (b : AssistantBlock) :
  convertMessages model context skip chat = Ok items ->
  In (MAssistant m) (transformMessages (messages context) model) ->
  In b (content m) ->
  exists k0 its k1,
    convertAssistantBlock m b k0 = Ok (its, k1) /\
    forall x, In x its -> In x items.
Proof.
  unfold convertMessages. intros Hconv Hm Hb.
  destruct (convertLoop model (transformMessages (messages context) model)
              0%nat) as [converted | e] eqn:Hc; [| discriminate Hconv].
  simpl in Hconv. injection Hconv as <-.
  destruct (convertLoop_In _ _ _ _ Hc Hm) as (k0 & its & k1 & Hmsg & Hsub).
  simpl in Hmsg.
  destruct (convertAssistantBlocks_In _ _ _ _ _ _ Hmsg Hb)
    as (k0' & its' & k1' & Hblock & Hsub').
  exists k0', its', k1'. split; [done |].
  intros x Hx. apply in_or_app. right. auto.
Qed.

Lemma convertMessages_returned_toolResult (skip chat : bool)
    (items : list InputItem) (tr : ToolResultMessage) :
  convertMessages model context skip chat = Ok items ->
  In (MToolResult tr) (transformMessages (messages context) model) ->
  exists out,
    In (I_function_call_output (split "|" (toolCallId tr) !! 0%nat) out) items.
Proof.
  unfold convertMessages. intros Hconv Hm.
  destruct (convertLoop model (transformMessages (messages context) model)
              0%nat) as [converted | e] eqn:Hc; [| discriminate Hconv].
  simpl in Hconv. injection Hconv as <-.
  destruct (convertLoop_In _ _ _ _ Hc Hm) as (k0 & its & k1 & Hmsg & Hsub).
  simpl in Hmsg.
  eexists. apply in_or_app. right. apply Hsub.
  case_match; injection Hmsg as <- _; left; reflexivity.
Qed.

Lemma convertAssistantBlock_parses (m : AssistantMessage) (b : AssistantBlock)
    (k k' : nat) (items : list InputItem) :
  convertAssistantBlock m b k = Ok (items, k') -> block_parses m b = true.
Proof.
  destruct b as [tb | hb | cb]; simpl; try done.
  destruct (negb (eqb_stop (stopReason m) SR_error)); simpl; [| done].
  destruct (truthy_str (thinkingSignature hb)); simpl; [| done].
  by destruct (JSON_parse (default "" (thinkingSignature hb))).
Qed.

Lemma convertAssistantBlocks_parses (m : AssistantMessage)
    (blocks : list AssistantBlock) (k k' : nat) (items : list InputItem) :
  convertAssistantBlocks m blocks k = Ok (items, k') ->
  forallb (block_parses m) blocks = true.
Proof.
  revert k k' items. induction blocks as [| b blocks IH]; intros k k' items Hc;
    [done |].
  simpl in Hc.
  destruct (convertAssistantBlock m b k) as [[its k1] | e] eqn:Hb;
    [| discriminate Hc].
  simpl in Hc.
  destruct (convertAssistantBlocks m blocks k1) as [[more k2] | e] eqn:Hr;
    [| discriminate Hc].
  simpl. by rewrite (convertAssistantBlock_parses _ _ _ _ _ Hb), (IH _ _ _ Hr).
Qed.

Lemma convertLoop_parses (msgs : list Message) (k : nat)
    (items : list InputItem) :
  convertLoop model msgs k = Ok items -> history_parses msgs = true.
Proof.
  revert k items. induction msgs as [| msg msgs IH]; intros k items Hc;
    [done |].
  simpl in Hc.
  destruct (convertMessage model msg k) as [[its k1] | e] eqn:Hm;
    [| discriminate Hc].
  simpl in Hc.
  destruct (convertLoop model msgs k1) as [more | e] eqn:Hr;
    [| discriminate Hc].
  simpl. rewrite (IH _ _ Hr), andb_true_r.
  destruct msg as [um | am | tr]; try done.
  simpl in Hm. by eapply convertAssistantBlocks_parses.
Qed.

(** The reasoning items among what the conversion of one assistant message
    pushes: one per signed thinking block, none for a message that ended
    with [error]. *)
Lemma convertAssistantBlocks_parsed (m : AssistantMessage)
    (blocks : list AssistantBlock) (k k' : nat) (items : list InputItem) :
  convertAssistantBlocks m blocks k = Ok (items, k') ->
  length (List.filter is_parsed items)
  = (if eqb_stop (stopReason m) SR_error then 0
     else length (List.filter isSignedThinking blocks))%nat.
Proof.
  revert k k' items.
  induction blocks as [| b blocks IH]; intros k k' items Hc; simpl in Hc.
  - injection Hc as <- _. by destruct (eqb_stop (stopReason m) SR_error).
  - destruct (convertAssistantBlock m b k) as [[its k1] | e] eqn:Hb;
      [| discriminate Hc].
    simpl in Hc.
    destruct (convertAssistantBlocks m blocks k1) as [[more k2] | e] eqn:Hr;
      [| discriminate Hc].
    simpl in Hc. injection Hc as <- _.
    rewrite List.filter_app, length_app, (IH _ _ _ Hr).
    destruct b as [tb | hb | cb]; simpl in Hb |- *.
    + destruct (truthy_str (textSignature tb)); injection Hb as <- _;
        simpl; auto.
    + destruct (eqb_stop (stopReason m) SR_error); simpl in Hb.
      * by injection Hb as <- _.
      * destruct (truthy_str (thinkingSignature hb));
          [| by injection Hb as <- _].
        destruct (JSON_parse _); [| discriminate Hb].
        simpl in Hb. by injection Hb as <- _.
    + destruct (eqb_stop (stopReason m) SR_error); simpl in Hb;
        by injection Hb as <- _.
Qed.

Lemma convertLoop_parsed (msgs : list Message) (k : nat)
    (items : list InputItem) :
  convertLoop model msgs k = Ok items ->
  length (List.filter is_parsed items) = list_sum (map resent_thinking msgs).
Proof.
  revert k items. induction msgs as [| msg msgs IH]; intros k items Hc;
    simpl in Hc.
  - by injection Hc as <-.
  - destruct (convertMessage model msg k) as [[its k1] | e] eqn:Hm;
      [| discriminate Hc].
    simpl in Hc.
    destruct (convertLoop model msgs k1) as [more | e] eqn:Hr;
      [| discriminate Hc].
    simpl in Hc. injection Hc as <-.
    rewrite List.filter_app, length_app, (IH _ _ Hr). simpl.
    destruct msg as [um | am | tr]; simpl in Hm |- *.
    + destruct (um_content um); [by injection Hm as <- _ |].
      case_match; by injection Hm as <- _.
    + by rewrite (convertAssistantBlocks_parsed _ _ _ _ _ Hm).
    + case_match; by injection Hm as <- _.
Qed.

(** C9, as the code has it.  When [response.output_item.done] reports a
    reasoning item while the cursor is on a thinking block, the block's
    [thinkingSignature] becomes [JSON.stringify(item)], and nothing the loop
    does afterwards changes that block.  [convertMessages] converts the
    messages that [transformMessages] returns, and it returns, rather than
    throws, exactly when every signature it parses is well-formed: the
    non-empty signatures of the thinking blocks of the assistant messages of
    that list that did not end with [error].  Whenever it returns, what it
    returns holds, for every assistant message of that list whose
    [stopReason] is not [error], [JSON.parse] of the signature of each
    thinking block finalized that way, which is the item itself when parsing
    inverts serializing; and it holds as many reasoning items as that list
    holds signed thinking blocks in assistant messages that did not end with
    [error], so the thinking blocks of messages that ended with [error] are
    not re-sent. *)
Theorem C9_reasoning_item_replayed :
  (forall s0 pre s p r rest i b,
     for_await model context s0 pre = Continue s p ->
     currentBlock s = Some i ->
     content (output s) !! i = Some (BThinking b) ->
     exists t,
       content (output (state_of
                  (for_await model context s0
                     (pre ++ output_item_done (ItemReasoning r) :: rest))))
       !! i
       = Some (BThinking
                 {| thinking := t;
                    thinkingSignature :=
                      Some (JSON_stringify (json_of_reasoning r)) |})) /\
  (forall m t r skip chat items,
     convertMessages model context skip chat = Ok items ->
     In (MAssistant m) (transformMessages (messages context) model) ->
     stopReason m <> SR_error ->
     In (BThinking
           {| thinking := t;
              thinkingSignature :=
                Some (JSON_stringify (json_of_reasoning r)) |})
        (content m) ->
     JSON_stringify (json_of_reasoning r) <> "" ->
     JSON_parse (JSON_stringify (json_of_reasoning r))
     = Ok (json_of_reasoning r) ->
     In (I_parsed (json_of_reasoning r)) items) /\
  (forall skip chat items,
     convertMessages model context skip chat = Ok items ->
     length (List.filter is_parsed items)
     = list_sum (map resent_thinking
                   (transformMessages (messages context) model))) /\
  (forall skip chat,
     (exists items, convertMessages model context skip chat = Ok items) <->
     history_parses (transformMessages (messages context) model) = true).
Proof.
  split; [| split; [| split]].
  - intros s0 pre s p r rest i b Hpre Hcur Hget.
    assert (Hderef : deref s = Some (BThinking b))
      by (unfold deref; by rewrite Hcur).
    eexists.
    replace (state_of (for_await model context s0
                         (pre ++ output_item_done (ItemReasoning r) :: rest)))
      with (state_of (for_await model context
                        (state_of (step model context s
                                     (output_item_done (ItemReasoning r))))
                        rest)).
    + apply for_await_frame; simpl; rewrite Hderef; simpl.
      * unfold write_current. rewrite Hcur. simpl.
        apply list_lookup_insert_eq. by eapply lookup_lt_Some.
      * discriminate.
    + pose proof (state_of_for_await_cons s
                    (output_item_done (ItemReasoning r)) rest) as Hcons.
      assert (Hstep : exists s' p',
                 step model context s (output_item_done (ItemReasoning r))
                 = Continue s' p')
        by (simpl; rewrite Hderef; eauto).
      destruct Hstep as (s' & p' & Hstep).
      rewrite Hstep in Hcons |- *. simpl. rewrite <- Hcons.
      rewrite for_await_app, Hpre.
      by destruct (for_await model context s
                     (output_item_done (ItemReasoning r) :: rest)).
  - intros m t r skip chat items Hconv Hm Hstop Hb Hne Hparse.
    destruct (convertMessages_returned_block skip chat items m _ Hconv Hm Hb)
      as (k0 & its & k1 & Hblock & Hsub).
    apply Hsub. simpl in Hblock.
    assert (Hnerr : negb (eqb_stop (stopReason m) SR_error) = true)
      by (destruct (stopReason m); try reflexivity; by destruct Hstop).
    rewrite Hnerr in Hblock.
    assert (Htruthy : String.eqb (JSON_stringify (json_of_reasoning r)) ""
                      = false)
      by (by apply String.eqb_neq).
    rewrite Htruthy in Hblock. simpl in Hblock.
    rewrite Hparse in Hblock. simpl in Hblock.
    injection Hblock as <- _. by left.
  - intros skip chat items. unfold convertMessages.
    destruct (convertLoop model (transformMessages (messages context) model)
                0%nat) as [converted | e] eqn:Hc; [| discriminate].
    simpl. intros [= <-].
    rewrite List.filter_app, length_app, (convertLoop_parsed _ _ _ Hc).
    by destruct (truthy_str (systemPrompt context) && negb skip).
  - intros skip chat. unfold convertMessages. split.
    + intros (items & Hconv).
      destruct (convertLoop model
                  (transformMessages (messages context) model) 0%nat)
        as [converted | e] eqn:Hc; [| discriminate Hconv].
      by eapply convertLoop_parses.
    + intros Hp. destruct (convertLoop_ok _ 0%nat Hp) as (converted & ->).
      simpl. eauto.
Qed.

(** C10, as the code has it.  The adapter gives a tool call the id
    [call_id + "|" + item id].  If neither part contains the separator,
    splitting gives the two parts back.  [convertMessages] converts the
    messages that [transformMessages] returns.  Whenever it returns rather
    than throws, what it returns holds, for every tool call of an assistant
    message of that list whose [stopReason] is not [error], the call with
    exactly the vendor's item id and call id, and for every tool result of
    that list an output for the vendor's call id, for which only the call
    id needs to be free of the separator. *)
Theorem C10_tool_call_id_round_trip :
  (forall s f,
     exists s' idx,
       step model context s (output_item_added (ItemFunctionCall f))
       = Continue s' [toolcall_start idx] /\
       exists tc,
         last (content (output s')) = Some (BToolCall tc) /\
         tc_id tc = f_call_id f ++ "|" ++ f_id f) /\
  (forall call item,
     no_pipe call = true -> no_pipe item = true ->
     split "|" (call ++ "|" ++ item) = [call; item]) /\
  (forall m tc call item skip chat items,
     convertMessages model context skip chat = Ok items ->
     In (MAssistant m) (transformMessages (messages context) model) ->
     stopReason m <> SR_error ->
     In (BToolCall tc) (content m) ->
     tc_id tc = call ++ "|" ++ item ->
     no_pipe call = true -> no_pipe item = true ->
     In (I_function_call (Some item) (Some call) (tc_name tc)
           (JSON_stringify (tc_arguments tc))) items) /\
  (forall tr call item skip chat items,
     convertMessages model context skip chat = Ok items ->
     In (MToolResult tr) (transformMessages (messages context) model) ->
     toolCallId tr = call ++ "|" ++ item ->
     no_pipe call = true ->
     exists out, In (I_function_call_output (Some call) out) items).
Proof.
  split; [| split; [| split]].
  - intros s f. simpl. unfold open_block. eexists _, _.
    split; [reflexivity |]. simpl. eexists. by rewrite last_snoc.
  - intros call item Hc Hi. by rewrite split_pipe, split_no_pipe.
  - intros m tc call item skip chat items Hconv Hm Hstop Hb Hid Hc Hi.
    destruct (convertMessages_returned_block skip chat items m _ Hconv Hm Hb)
      as (k0 & its & k1 & Hblock & Hsub).
    apply Hsub. simpl in Hblock.
    assert (Hnerr : negb (eqb_stop (stopReason m) SR_error) = true)
      by (destruct (stopReason m); try reflexivity; by destruct Hstop).
    rewrite Hnerr, Hid, split_pipe, split_no_pipe in Hblock by done.
    injection Hblock as <- _. by left.
  - intros tr call item skip chat items Hconv Hm Hid Hc.
    destruct (convertMessages_returned_toolResult skip chat items tr Hconv Hm)
      as (out & Hin).
    exists out. by rewrite Hid, split_pipe in Hin.
Qed.

End StepProperties.

(** C2 on Scenario C: 1000 input tokens with 400 cached give
    [input = 600], [cacheRead = 400], [cacheWrite = 0]. *)
Lemma C2_cached_tokens_subtracted_witness :
  let sf :=
    state_of (for_await (imports := demo_imports) demo_model demo_context
                (initial_state demo_model 0)
                ([] ++ response_completed (Some scenario_C) :: [])) in
  u_input (usage (output sf)) = 1000 - 400 /\
  u_cacheRead (usage (output sf)) = 400 /\
  u_cacheWrite (usage (output sf)) = 0.
Proof.
  exact (C2_cached_tokens_subtracted (imports := demo_imports)
           demo_model demo_context (initial_state demo_model 0) _ [] [] _
           scenario_C _ 1000 400 eq_refl eq_refl eq_refl eq_refl eq_refl).
Defined.

(** Scenario C as a whole run: the message of the [done] event has
    [usage.input = 600] and [usage.cacheRead = 400]. *)
Example scenario_C_run :
  exists m,
    last (queue (demo_run false
                   (Streams [response_completed (Some scenario_C)]
                            EndOfStream)))
    = Some (ev_done SR_stop m) /\
    u_input (usage m) = 600 /\ u_cacheRead (usage m) = 400 /\
    u_cacheWrite (usage m) = 0.
Proof.
  vm_compute. eexists. repeat split; reflexivity.
Qed.

(** C6 at a text delta arriving before any item is open. *)
Lemma C6_unrecognized_delta_ignored_witness :
  step (imports := demo_imports) demo_model demo_context
    (initial_state demo_model 0) (output_text_delta "Hello")
  = Continue (initial_state demo_model 0) [].
Proof.
  apply (C6_unrecognized_delta_ignored (imports := demo_imports));
    reflexivity.
Defined.

(** C6 as stated fails: a text delta with no message item open, and an
    arguments delta with no tool call open, do not end the stream with an
    [error] event; the run completes with [done]. *)
Lemma C6_counterexample :
  let stream :=
    demo_run false
      (Streams [output_text_delta "Hello";
                function_call_arguments_delta "{"] EndOfStream) in
  existsb is_error_event (queue stream) = false /\
  exists m, queue stream = [ev_start; ev_done SR_stop m].
Proof.
  split; [reflexivity | eexists; reflexivity].
Qed.

(** C4 on Scenario A, whose vendor stream is sequential: the two blocks are
    opened with indices 0 and 1, one at a time. *)
Lemma C4_content_indices_witness :
  let q := queue (demo_run false (Streams scenario_A EndOfStream)) in
  start_indices q = [0; 1] /\ one_open_at_a_time None q = true.
Proof.
  destruct (C4_content_indices (imports := demo_imports) demo_model
              demo_context (demo_options false) None 1700000000000
              (Streams scenario_A EndOfStream)) as [Hidx Hopen].
  split.
  - etransitivity; [exact Hidx | vm_compute; reflexivity].
  - apply (Hopen scenario_A EndOfStream); vm_compute; reflexivity.
Defined.

(** C4 as stated fails: when the vendor adds a second item before the first
    is done, the adapter pushes [text_start 1] while block 0 has had no
    [text_end]. *)
Lemma C4_counterexample :
  let q := queue (demo_run false (Streams two_items_open EndOfStream)) in
  (exists m, q = [ev_start; text_start 0; text_start 1; ev_done SR_stop m]) /\
  one_open_at_a_time None q = false.
Proof.
  split; [eexists; reflexivity | reflexivity].
Qed.


(** C1 on Scenario A: the response completes with status [completed] after the
    function call was added, and the run ends with [done] and [toolUse]. *)
Lemma C1_stop_upgraded_to_toolUse_witness :
  exists m,
    last (queue (demo_run false
                   (Streams (scenario_A_items ++
                             [response_completed scenario_A_completion])
                            EndOfStream)))
    = Some (ev_done SR_toolUse m) /\
    stopReason m = SR_toolUse.
Proof.
  assert (Hlast : exists reason m,
             last (queue (demo_run false
                            (Streams (scenario_A_items ++
                                      [response_completed scenario_A_completion])
                                     EndOfStream)))
             = Some (ev_done reason m) /\
             existsb isToolCall (content m) = true).
  { vm_compute. eexists _, _. split; reflexivity. }
  destruct Hlast as (reason & m & Hlast & Htool).
  destruct (C1_stop_upgraded_to_toolUse (imports := demo_imports) demo_model
              demo_context (demo_options false) None 1700000000000
              scenario_A_items [] scenario_A_completion
              EndOfStream reason m Hlast eq_refl eq_refl Htool)
    as [Hreason Hstop].
  exists m. split; [| exact Hstop].
  rewrite <- Hreason. exact Hlast.
Defined.

(** C1 as stated fails: when the function call item is added after the
    completion event, the run ends with [done], the content holds a tool
    call, the status mapped to [stop], and the stop reason stays [stop]. *)
Lemma C1_counterexample :
  exists m,
    last (queue (demo_run false (Streams completed_then_call EndOfStream)))
    = Some (ev_done SR_stop m) /\
    existsb isToolCall (content m) = true /\
    mapStopReason (Some status_completed) = Ok SR_stop /\
    stopReason m = SR_stop.
Proof.
  vm_compute. eexists. repeat split; reflexivity.
Qed.

(** C3 at a failing input: a function call item is added and the connection
    then breaks.  The stream ends with the one [error] event, reason [error]
    and the error text set, but the tool-call block of the error message
    still carries the adapter's [partialJson] bookkeeping property: the
    [catch] block deletes a property named [index], which no block of this
    adapter has. *)
Theorem C3_partialJson_survives_error :
  exists m,
    queue (demo_run false call_then_transport_error)
    = [ev_start; toolcall_start 0; ev_error SR_error m] /\
    errorMessage m = Some "socket hang up" /\
    content m = [BToolCall {| tc_id := "call_1|fc_1";
                              tc_name := "lookup";
                              tc_arguments := JObj [];
                              tc_partialJson := Some EmptyString |}].
Proof.
  vm_compute. eexists. repeat split; reflexivity.
Qed.

(** C5 with the concrete imports, whose codec parses the arguments text. *)
Lemma C5_scenario_A_final_content_witness :
  exists s' pushed,
    for_await (imports := demo_imports) demo_model demo_context
      (initial_state demo_model 0) scenario_A
    = Continue s' pushed /\
    content (output s')
    = [BText {| text := "Hello"; textSignature := Some "msg_1" |};
       BToolCall {| tc_id := "call_1|fc_1";
                    tc_name := "lookup";
                    tc_arguments :=
                      @parseStreamingJson demo_imports
                        ("{" ++ quoted "q" ++ ":" ++ quoted "x" ++ "}");
                    tc_partialJson :=
                      Some ("{" ++ quoted "q" ++ ":" ++ quoted "x" ++ "}") |}] /\
    stopReason (output s') = SR_toolUse.
Proof.
  apply (C5_scenario_A_final_content (imports := demo_imports) demo_model
           demo_context 0 (JObj [("q", JStr "x")])).
  vm_compute. reflexivity.
Defined.

(** Scenario A as a whole run: the [done] event carries [toolUse] and a
    content whose tool-call block still has [partialJson]. *)
Example scenario_A_run :
  exists m,
    last (queue (demo_run false (Streams scenario_A EndOfStream)))
    = Some (ev_done SR_toolUse m) /\
    content m
    = [BText {| text := "Hello"; textSignature := Some "msg_1" |};
       BToolCall {| tc_id := "call_1|fc_1";
                    tc_name := "lookup";
                    tc_arguments := JObj [("q", JStr "x")];
                    tc_partialJson :=
                      Some ("{" ++ quoted "q" ++ ":" ++ quoted "x" ++ "}") |}].
Proof.
  vm_compute. eexists. split; reflexivity.
Qed.

(** C9 at a concrete reasoning item: the run stores its serialized form in
    block 0; the history holding that block converts, re-sends the item,
    and re-sends one reasoning item in all. *)
Lemma C9_reasoning_item_replayed_witness :
  (exists t,
     content (output (state_of
                (for_await (imports := demo_imports) demo_model replay_context
                   (initial_state demo_model 0)
                   ([output_item_added
                       (ItemReasoning {| r_id := "rs_1"; r_summary := None;
                                         r_rest := [] |})] ++
                    output_item_done (ItemReasoning reasoning_item) ::
                    [response_completed None]))))
     !! 0%nat
     = Some (BThinking
               {| thinking := t;
                  thinkingSignature :=
                    Some (@JSON_stringify demo_imports
                            (json_of_reasoning reasoning_item)) |})) /\
  exists items,
    convertMessages (imports := demo_imports) demo_model replay_context
      false false = Ok items /\
    In (I_parsed (json_of_reasoning reasoning_item)) items /\
    length (List.filter is_parsed items) = 1%nat.
Proof.
  destruct (C9_reasoning_item_replayed (imports := demo_imports) demo_model
              replay_context) as (Hstore & Hreplay & Hcount & _).
  split.
  - eapply Hstore;
      [vm_compute; reflexivity | reflexivity | reflexivity].
  - assert (Hconv : exists items,
               convertMessages (imports := demo_imports) demo_model
                 replay_context false false = Ok items).
    { vm_compute. eexists. reflexivity. }
    destruct Hconv as (items & Hconv).
    exists items. split; [exact Hconv |]. split.
    + apply (Hreplay replayed_message "Check the index." reasoning_item
               false false items Hconv).
      * left. reflexivity.
      * discriminate.
      * left. reflexivity.
      * vm_compute. discriminate.
      * vm_compute. reflexivity.
    + exact (Hcount false false items Hconv).
Defined.

(** C9 as stated fails for an assistant message that ended with [error]:
    the run below finalizes a thinking block whose signature parses back to
    the reasoning item, and ends with [error]; converting the history that
    holds this message sends nothing for it. *)
Lemma C9_counterexample :
  exists m,
    final_message (demo_run false (Streams reasoning_then_failure EndOfStream))
    = Some m /\
    stopReason m = SR_error /\
    content m
    = [BThinking {| thinking := "Check the index.";
                    thinkingSignature :=
                      Some (MiniJson.stringify
                              (json_of_reasoning reasoning_item)) |}] /\
    MiniJson.parse (MiniJson.stringify (json_of_reasoning reasoning_item))
    = Ok (json_of_reasoning reasoning_item) /\
    convertMessages (imports := demo_imports) demo_model (history_of m)
      false false = Ok [].
Proof.
  eexists. split; [vm_compute; reflexivity |].
  vm_compute. repeat split; reflexivity.
Qed.

(** The conversion as a whole throws on one malformed signature: the
    history that re-sends the reasoning item above no longer converts once
    it also holds an assistant message, not ended with [error], whose
    thinking signature is not JSON. *)
Example malformed_signature_throws :
  exists msg,
    convertMessages (imports := demo_imports) demo_model
      {| systemPrompt := None;
         messages := [MAssistant replayed_message;
                      MToolResult lookup_result;
                      MAssistant (set_stopReason errored_message SR_stop)];
         tools := None |}
      false false
    = Throw msg.
Proof.
  vm_compute. eexists. reflexivity.
Qed.

(** C10 at the call [call_1|fc_1]: the history converts, the assistant
    message re-sends the call with item id [fc_1] and call id [call_1], and
    the tool result is sent for call id [call_1]. *)
Lemma C10_tool_call_id_round_trip_witness :
  split "|" ("call_1" ++ "|" ++ "fc_1") = ["call_1"; "fc_1"] /\
  exists items,
    convertMessages (imports := demo_imports) demo_model replay_context
      false false = Ok items /\
    In (I_function_call (Some "fc_1") (Some "call_1") (tc_name lookup_call)
          (@JSON_stringify demo_imports
             (tc_arguments lookup_call))) items /\
    exists out, In (I_function_call_output (Some "call_1") out) items.
Proof.
  destruct (C10_tool_call_id_round_trip (imports := demo_imports) demo_model
              replay_context) as (_ & Hsplit & Hcall & Hresult).
  split.
  - apply Hsplit; reflexivity.
  - assert (Hconv : exists items,
               convertMessages (imports := demo_imports) demo_model
                 replay_context false false = Ok items).
    { vm_compute. eexists. reflexivity. }
    destruct Hconv as (items & Hconv).
    exists items. split; [exact Hconv |]. split.
    + apply (Hcall replayed_message lookup_call "call_1" "fc_1"
               false false items Hconv).
      * left. reflexivity.
      * discriminate.
      * right. left. reflexivity.
      * reflexivity.
      * reflexivity.
      * reflexivity.
    + apply (Hresult lookup_result "call_1" "fc_1" false false items Hconv).
      * right. left. reflexivity.
      * reflexivity.
      * reflexivity.
Defined.

(** C10 as stated fails when the item id contains the separator, although
    the call id does not: the call [call_1] of item [fc|1] comes back with
    item id [fc]. *)
Lemma C10_counterexample :
  no_pipe (f_call_id piped_item) = true /\
  exists m,
    final_message (demo_run false (Streams piped_call EndOfStream)) = Some m /\
    convertMessages (imports := demo_imports) demo_model (history_of m)
      false false
    = Ok [I_function_call (Some "fc") (Some "call_1") "lookup" "{}"] /\
    Some "fc" <> Some (f_id piped_item).
Proof.
  split; [reflexivity |].
  eexists. split; [vm_compute; reflexivity |].
  split; [vm_compute; reflexivity | discriminate].
Qed.

(** * Further properties of the OpenAI Responses adapter *)

Section RunProperties.
Context {imports : Imports}.
Variable model : Model.
Variable context : Context.

(** ** More on what a handler run keeps *)

Lemma errorMessage_write_current (s : State) (b : AssistantBlock) :
  errorMessage (output (write_current s b)) = errorMessage (output s).
Proof. unfold write_current. by destruct (currentBlock s). Qed.

Lemma step_keeps_errorMessage (s : State) (event : VendorEvent) :
  errorMessage (output (state_of (step model context s event)))
  = errorMessage (output s).
Proof.
  destruct event; simpl;
    unfold summary_delta, message_delta, open_block;
    repeat case_match; simpl;
    rewrite ?errorMessage_write_current; reflexivity.
Qed.

Lemma for_await_keeps_errorMessage (events : list VendorEvent) (s : State) :
  errorMessage (output (state_of (for_await model context s events)))
  = errorMessage (output s).
Proof.
  apply (for_await_invariant model context
           (fun s' => errorMessage (output s') = errorMessage (output s))
           (fun _ => true)); [| by apply forallb_forall | done].
  intros s' event _ Hs'. by rewrite step_keeps_errorMessage.
Qed.

(** The status mapping yields [stop], [length] or [error] only. *)
Lemma mapStopReason_range (status : option ResponseStatus) (r : StopReason) :
  mapStopReason status = Ok r ->
  r = SR_stop \/ r = SR_length \/ r = SR_error.
Proof.
  destruct status as [[ | | | | | | s] |]; simpl; try (intros [= <-]; auto).
  destruct (String.eqb s ""); [intros [= <-]; auto | discriminate].
Qed.

Lemma completed_step_state (s : State) (response : option Response) :
  let s' := state_of (step model context s (response_completed response)) in
  content (output s') = content (output s) /\
  match mapStopReason (response ≫= resp_status) with
  | Ok r =>
      stopReason (output s')
      = if existsb isToolCall (content (output s)) && eqb_stop r SR_stop
        then SR_toolUse else r
  | Throw _ => stopReason (output s') = stopReason (output s)
  end.
Proof.
  simpl.
  destruct (mapStopReason (response ≫= resp_status)) as [r | e]; simpl.
  - destruct (response ≫= resp_usage); simpl;
      destruct (existsb isToolCall (content (output s)) && eqb_stop r SR_stop);
      simpl; auto.
  - destruct (response ≫= resp_usage); simpl; auto.
Qed.

Lemma step_toolcalls_monotone (s : State) (event : VendorEvent) :
  existsb isToolCall (content (output s)) = true ->
  existsb isToolCall
    (content (output (state_of (step model context s event)))) = true.
Proof.
  intros Htool.
  destruct (step_content_change model context s event)
    as [Hc _ | b Hc _ | i b0 b1 _ Hget Hkind Hc _]; rewrite Hc.
  - done.
  - by rewrite existsb_app, Htool.
  - by rewrite (existsb_isToolCall_insert _ _ _ _ Hget Hkind).
Qed.

Lemma for_await_length_le (events : list VendorEvent) (s : State) :
  (length (content (output s))
   <= length (content (output (state_of (for_await model context s events)))))%nat.
Proof.
  destruct (for_await_length_starts model context events s) as (n & Hn & _).
  cbv zeta in Hn. lia.
Qed.

(** The message the last event of a run carries comes from the state the
    loop was left in, or from the initial state if the loop never ran. *)
Lemma run_final_message (options : option OpenAIResponsesOptions)
    (env : option string) (now : Z) (vendor : VendorOutcome) :
  let stream := streamOpenAIResponses model context options env now vendor in
  exists m sf pushed,
    final_message stream = Some m /\
    content m = content (output sf) /\
    start_indices (queue stream) = start_indices pushed /\
    ((sf = initial_state model now /\ pushed = [] /\
      exists r, queue stream = [ev_error r m]) \/
     (exists events fin,
        vendor = Streams events fin /\
        sf = state_of (for_await model context
                         (initial_state model now) events) /\
        pushed = pushed_of (for_await model context
                              (initial_state model now) events) /\
        exists t, queue stream = (ev_start :: pushed ++ [t])%list /\
                  is_terminal t = true)).
Proof.
  cbv zeta.
  destruct (run_decompose model context options env now vendor)
    as (_ & [(msg & Hq) | (events & fin & Hv & Hq)]).
  - eexists _, (initial_state model now), []. unfold final_message.
    rewrite Hq. simpl. split; [reflexivity |].
    split; [apply failed_message_keeps_blocks |]. split; [done |].
    left. eauto.
  - cbv zeta in Hq.
    set (r := for_await model context (initial_state model now) events) in *.
    assert (Hstarts : forall t,
               start_index t = None ->
               start_indices (ev_start :: pushed_of r ++ [t])
               = start_indices (pushed_of r)).
    { intros t Ht. unfold start_indices. simpl. rewrite omap_app. simpl.
      by rewrite Ht, app_nil_r. }
    destruct Hq as [(msg & Hq) | (Hq & _)].
    + eexists _, (state_of r), (pushed_of r). unfold final_message.
      rewrite Hq, app_comm_cons, last_snoc.
      split; [reflexivity |].
      split; [apply failed_message_keeps_blocks |].
      split; [by apply Hstarts |]. right. exists events, fin.
      repeat split; eauto.
    + eexists _, (state_of r), (pushed_of r). unfold final_message.
      rewrite Hq, app_comm_cons, last_snoc.
      split; [reflexivity |]. split; [done |].
      split; [by apply Hstarts |]. right. exists events, fin.
      repeat split; eauto.
Qed.

(** ** The shape of every run *)

(** Every run in which the vendor call settles and the event iterator
    finishes, by ending or by throwing, ends the stream, and the stream
    holds exactly one terminal event, as its last event.  Its first event
    is [start] exactly when [createClient] and [buildParams] return and the
    vendor call resolves; when one of the two throws or the vendor call
    rejects, the stream holds the [error] event alone, with an empty
    content. *)
Theorem run_one_terminal_event (options : option OpenAIResponsesOptions)
    (env : option string) (now : Z) (vendor : VendorOutcome) :
  let stream := streamOpenAIResponses model context options env now vendor in
  ended stream = true /\
  (exists pre t,
     queue stream = (pre ++ [t])%list /\
     is_terminal t = true /\
     forallb (fun e => negb (is_terminal e)) pre = true) /\
  match createClient model options env,
        buildParams model context options, vendor with
  | Ok _, Ok _, Streams _ _ => head (queue stream) = Some ev_start
  | _, _, _ =>
      exists r m, queue stream = [ev_error r m] /\ content m = []
  end.
Proof.
  cbv zeta. split; [| split].
  - apply run_decompose.
  - destruct (run_decompose model context options env now vendor)
      as (_ & [(msg & Hq) | (events & fin & Hv & Hq)]).
    + rewrite Hq. by eexists [], _.
    + cbv zeta in Hq.
      pose proof (for_await_pushes_no_terminal model context events
                    (initial_state model now)) as Hpre.
      destruct Hq as [(msg & Hq) | (Hq & _)]; rewrite Hq;
        eexists (ev_start :: pushed_of _), _;
        (split; [reflexivity |]); by split.
  - assert (Halone : forall msg,
               exists r m,
                 queue (catch_error options new_stream
                          (output (initial_state model now)) msg)
                 = [ev_error r m] /\ content m = []).
    { intros msg. eexists _, _. split; [reflexivity |].
      by rewrite failed_message_keeps_blocks. }
    unfold streamOpenAIResponses.
    destruct (createClient model options env) as [client | msg]; simpl;
      [| destruct (buildParams model context options), vendor; apply Halone].
    destruct (buildParams model context options) as [params | msg]; simpl;
      [| destruct vendor; apply Halone].
    destruct vendor as [msg | events fin]; simpl; [apply Halone |].
    destruct (for_await model context (initial_state model now) events)
      as [s p | s p msg]; [destruct fin as [| msg] |];
      repeat case_match; unfold catch_error; simpl;
      by rewrite queue_push_all.
Qed.

(** The reason of the terminal event is the message's [stopReason].  A
    [done] event carries [stop], [length] or [toolUse], never [error] or
    [aborted], its message has no [errorMessage], and it is pushed only if
    the signal is not aborted.  An [error] event carries [aborted] if the
    signal is aborted and [error] otherwise, and its message has an
    [errorMessage]. *)
Theorem terminal_reason_typed (options : option OpenAIResponsesOptions)
    (env : option string) (now : Z) (vendor : VendorOutcome)
    (reason : StopReason) (m : AssistantMessage) :
  let stream := streamOpenAIResponses model context options env now vendor in
  (last (queue stream) = Some (ev_done reason m) ->
   reason = stopReason m /\
   (reason = SR_stop \/ reason = SR_length \/ reason = SR_toolUse) /\
   errorMessage m = None /\
   signal_aborted options = false) /\
  (last (queue stream) = Some (ev_error reason m) ->
   reason = stopReason m /\
   reason = (if signal_aborted options then SR_aborted else SR_error) /\
   is_Some (errorMessage m)).
Proof.
  cbv zeta.
  destruct (run_decompose model context options env now vendor)
    as (_ & [(msg & Hq) | (events & fin & Hv & Hq)]).
  - rewrite Hq. simpl. split; [discriminate |].
    intros [= <- <-]. simpl. eauto.
  - cbv zeta in Hq.
    destruct Hq as [(msg & Hq) | (Hq & Hsig & _ & _ & Hne & Hna)];
      rewrite Hq, app_comm_cons, last_snoc.
    + split; [discriminate |]. intros [= <- <-]. simpl. eauto.
    + split; [| discriminate]. intros [= <- <-].
      split; [done |]. split.
      * destruct (stopReason _); auto; congruence.
      * split; [| done]. by rewrite for_await_keeps_errorMessage.
Qed.

(** [toolUse] is reported only for a message that holds a tool call. *)
Theorem toolUse_means_tool_call (options : option OpenAIResponsesOptions)
    (env : option string) (now : Z) (vendor : VendorOutcome)
    (m : AssistantMessage) :
  last (queue (streamOpenAIResponses model context options env now vendor))
  = Some (ev_done SR_toolUse m) ->
  existsb isToolCall (content m) = true.
Proof.
  intros Hlast.
  destruct (run_decompose model context options env now vendor)
    as (_ & [(msg & Hq) | (events & fin & Hv & Hq)]).
  { rewrite Hq in Hlast. discriminate Hlast. }
  cbv zeta in Hq. destruct Hq as [(msg & Hq) | (Hq & _)];
    rewrite Hq, app_comm_cons, last_snoc in Hlast; [discriminate Hlast |].
  injection Hlast as Hstop <-. revert Hstop.
  apply (for_await_invariant model context
           (fun s => stopReason (output s) = SR_toolUse ->
                     existsb isToolCall (content (output s)) = true)
           (fun _ => true)); [| by apply forallb_forall | discriminate].
  intros s event _ Hs.
  destruct (is_completed event) eqn:Hc.
  - destruct event; try discriminate Hc.
    destruct (completed_step_state s response) as [Hcontent Hreason].
    rewrite Hcontent.
    destruct (mapStopReason (response ≫= resp_status)) as [r | e] eqn:Hmap.
    + rewrite Hreason.
      destruct (existsb isToolCall (content (output s))); [done |].
      simpl. intros ->.
      by destruct (mapStopReason_range _ _ Hmap) as [? | [? | ?]].
    + by rewrite Hreason.
  - rewrite step_keeps_stopReason by done. intros Hstop.
    apply step_toolcalls_monotone. by apply Hs.
Qed.

(** Every block of the final message was announced: the message holds as
    many blocks as the stream holds [*_start] events. *)
Theorem blocks_counted_by_starts (options : option OpenAIResponsesOptions)
    (env : option string) (now : Z) (vendor : VendorOutcome) :
  let stream := streamOpenAIResponses model context options env now vendor in
  exists m,
    final_message stream = Some m /\
    length (content m) = length (start_indices (queue stream)).
Proof.
  cbv zeta.
  destruct (run_final_message options env now vendor)
    as (m & sf & pushed & Hm & Hcontent & Hstarts & Hcases).
  exists m. split; [done |]. rewrite Hcontent, Hstarts.
  destruct Hcases as [(-> & -> & _) | (events & fin & _ & -> & -> & _)];
    [done |].
  destruct (for_await_length_starts model context events
              (initial_state model now)) as (n & Hlen & Hs).
  cbv zeta in Hlen, Hs. rewrite Hlen, Hs. simpl.
  by rewrite length_map, length_seq.
Qed.

(** ** Blocks are opened once and stay what they are *)

Lemma identity_insert (l : list AssistantBlock) (i : nat)
    (b0 b1 : AssistantBlock) :
  l !! i = Some b0 ->
  block_identity b1 = block_identity b0 ->
  map block_identity (<[i:=b1]> l) = map block_identity l.
Proof.
  intros Hget Hid. rewrite list_fmap_insert, Hid.
  apply list_insert_id. by rewrite list_lookup_fmap, Hget.
Qed.

Lemma write_current_identity (s : State) (b0 b1 : AssistantBlock) :
  deref s = Some b0 ->
  block_identity b1 = block_identity b0 ->
  map block_identity (content (output (write_current s b1)))
  = map block_identity (content (output s)).
Proof.
  intros Hd Hid. destruct (deref_Some s b0 Hd) as (i & Hcur & Hget).
  unfold write_current. rewrite Hcur. simpl.
  by apply (identity_insert _ _ b0).
Qed.

Lemma step_identity_prefix (s : State) (event : VendorEvent) :
  map block_identity (content (output s))
  `prefix_of`
  map block_identity (content (output (state_of (step model context s event)))).
Proof.
  destruct event; simpl;
    unfold summary_delta, message_delta, open_block;
    repeat case_match; simpl;
    rewrite ?map_app;
    try (by apply prefix_app_r);
    try reflexivity;
    match goal with
    | H : deref s = Some ?b |- _ =>
        rewrite (write_current_identity s b _ H) by reflexivity
    end; reflexivity.
Qed.

(** The content is append-only: whatever events the loop handles, the blocks
    it started with stay in place with their kind and, for tool calls, their
    id and name; new blocks are only added behind them. *)
Theorem content_append_only (s : State) (events : list VendorEvent) :
  map block_identity (content (output s))
  `prefix_of`
  map block_identity
    (content (output (state_of (for_await model context s events)))).
Proof.
  apply (for_await_invariant model context
           (fun s' => map block_identity (content (output s))
                      `prefix_of`
                      map block_identity (content (output s')))
           (fun _ => true)); [| by apply forallb_forall | reflexivity].
  intros s' event _ Hs'. etransitivity; [exact Hs' |].
  apply step_identity_prefix.
Qed.

(** ** The indices events carry *)

Lemma length_write_current (s : State) (b : AssistantBlock) :
  length (content (output (write_current s b))) = length (content (output s)).
Proof.
  unfold write_current. destruct (currentBlock s); [| done].
  simpl. by rewrite length_insert.
Qed.

Lemma deref_nonempty (s : State) (b : AssistantBlock) :
  deref s = Some b -> (0 < length (content (output s)))%nat.
Proof.
  intros Hd. destruct (deref_Some s b Hd) as (i & _ & Hget).
  apply lookup_lt_Some in Hget. lia.
Qed.

(** An event a handler pushes carries the index of the last block of the
    content as the handler leaves it; only a [toolcall_end] can be pushed
    while the content is empty. *)
Lemma step_event_index (s : State) (event : VendorEvent)
    (e : AssistantMessageEvent) (i : Z) :
  In e (pushed_of (step model context s event)) ->
  event_index e = Some i ->
  i = Z.of_nat (length (content (output (state_of
                                           (step model context s event))))) - 1
  /\ (is_toolcall_end e = false -> 0 <= i).
Proof.
  destruct event; simpl;
    unfold summary_delta, message_delta, open_block;
    repeat case_match; simpl;
    intros Hin Hidx;
    (first [by destruct Hin | destruct Hin as [<- | []]]);
    simpl in Hidx; injection Hidx as <-;
    unfold blockIndex; simpl;
    rewrite ?length_write_current, ?length_app; simpl;
    (split; [reflexivity |]); intros Hend; try discriminate Hend;
    try lia;
    match goal with
    | H : deref s = Some ?b |- _ =>
        pose proof (deref_nonempty s b H); lia
    end.
Qed.

Lemma for_await_event_index (events : list VendorEvent) (s : State)
    (e : AssistantMessageEvent) (i : Z) :
  In e (pushed_of (for_await model context s events)) ->
  event_index e = Some i ->
  i < Z.of_nat (length (content (output (state_of
                                           (for_await model context s events)))))
  /\ (is_toolcall_end e = false -> 0 <= i).
Proof.
  revert s. induction events as [| event rest IH]; intros s Hin Hidx.
  - destruct Hin.
  - rewrite pushed_of_for_await_cons in Hin.
    rewrite state_of_for_await_cons.
    pose proof (step_event_index s event e i) as Hstep.
    destruct (step model context s event) as [s' p | s' p msg] eqn:Hs;
      simpl in Hstep.
    + apply in_app_or in Hin as [Hin | Hin].
      * destruct (Hstep Hin Hidx) as [-> Hpos]. split; [| done].
        pose proof (for_await_length_le rest s'). lia.
      * by apply IH.
    + destruct (Hstep Hin Hidx) as [-> Hpos]. split; [lia | done].
Qed.

(** Every [contentIndex] in the stream is below the number of blocks of the
    final message, and it is not negative, except that a [toolcall_end]
    pushed while the content is empty carries -1. *)
Theorem content_indices_in_range (options : option OpenAIResponsesOptions)
    (env : option string) (now : Z) (vendor : VendorOutcome) :
  let stream := streamOpenAIResponses model context options env now vendor in
  exists m,
    final_message stream = Some m /\
    forall e i,
      In e (queue stream) -> event_index e = Some i ->
      -1 <= i < Z.of_nat (length (content m)) /\
      (is_toolcall_end e = false -> 0 <= i).
Proof.
  cbv zeta.
  destruct (run_final_message options env now vendor)
    as (m & sf & pushed & Hm & Hcontent & _ & Hcases).
  exists m. split; [done |]. intros e i Hin Hidx. rewrite Hcontent.
  destruct Hcases as [(_ & _ & r & Hq)
                     | (events & fin & _ & -> & -> & t & Hq & Ht)];
    rewrite Hq in Hin.
  - destruct Hin as [<- | []]. discriminate Hidx.
  - destruct Hin as [<- | Hin]; [discriminate Hidx |].
    apply in_app_or in Hin as [Hin | [<- | []]].
    + destruct (for_await_event_index _ _ _ _ Hin Hidx) as [Hlt Hpos].
      split; [| done]. split; [| done].
      destruct (is_toolcall_end e) eqn:He; [| by (specialize (Hpos eq_refl); lia)].
      destruct e; try discriminate He. simpl in Hidx. injection Hidx as ->.
      clear -Hin.
      assert (Hge : forall evs s,
                 In (toolcall_end i toolCall)
                    (pushed_of (for_await model context s evs)) -> -1 <= i).
      { induction evs as [| ev evs IH]; intros s; [intros [] |].
        rewrite pushed_of_for_await_cons.
        pose proof (step_event_index s ev (toolcall_end i toolCall) i) as Hs.
        destruct (step model context s ev) as [s' p | s' p msg]; simpl in Hs.
        - intros Hi. apply in_app_or in Hi as [Hi | Hi]; [| by eapply IH].
          destruct (Hs Hi eq_refl) as [-> _]. lia.
        - intros Hi. destruct (Hs Hi eq_refl) as [-> _]. lia. }
      by eapply Hge.
    + destruct t; discriminate.
Qed.

(** ** Finalized text *)

(** When [response.output_item.done] reports a message item while the cursor
    is on a text block, the block takes the text of the completed item (all
    its parts joined) and the item's id as signature, whatever the deltas had
    accumulated, and nothing the loop does afterwards changes it. *)
Theorem finalized_text_block (s0 s : State) (pre rest : list VendorEvent)
    (p : list AssistantMessageEvent) (m : OutputMessage) (i : nat)
    (b : TextContent) :
  for_await model context s0 pre = Continue s p ->
  currentBlock s = Some i ->
  content (output s) !! i = Some (BText b) ->
  content (output (state_of
             (for_await model context s0
                (pre ++ output_item_done (ItemMessage m) :: rest))))
  !! i
  = Some (BText {| text := join "" (map part_text (m_content m));
                   textSignature := Some (m_id m) |}).
Proof.
  intros Hpre Hcur Hget.
  assert (Hderef : deref s = Some (BText b))
    by (unfold deref; by rewrite Hcur).
  rewrite (state_of_for_await_app model context _ _ _ _ _ Hpre),
    state_of_for_await_cons.
  assert (Hstep : step model context s (output_item_done (ItemMessage m))
                  = Continue
                      (with_block
                         (write_current s
                            (BText {| text := join "" (map part_text (m_content m));
                                      textSignature := Some (m_id m) |}))
                         None)
                      [text_end
                         (blockIndex
                            (write_current s
                               (BText {| text := join "" (map part_text (m_content m));
                                         textSignature := Some (m_id m) |})))
                         (join "" (map part_text (m_content m)))])
    by (simpl; by rewrite Hderef).
  rewrite Hstep. apply for_await_frame; simpl.
  - unfold write_current. rewrite Hcur. simpl.
    apply list_lookup_insert_eq. by eapply lookup_lt_Some.
  - discriminate.
Qed.

(** ** Throws *)

(** Once a handler throws, the rest of the vendor stream is never looked at:
    the run is the run on the events up to the throwing one. *)
Theorem events_after_throw_ignored (options : option OpenAIResponsesOptions)
    (env : option string) (now : Z) (pre rest : list VendorEvent)
    (fin : Termination) (s : State) (p : list AssistantMessageEvent)
    (msg : string) :
  for_await model context (initial_state model now) pre = Raise s p msg ->
  streamOpenAIResponses model context options env now
    (Streams (pre ++ rest) fin)
  = streamOpenAIResponses model context options env now
      (Streams pre EndOfStream).
Proof.
  intros Hpre. unfold streamOpenAIResponses.
  destruct (createClient model options env); simpl; [| done].
  destruct (buildParams model context options); simpl; [| done].
  by rewrite for_await_app, Hpre.
Qed.

(** Without an API key, neither in the options nor in the environment, the
    run fails before anything else happens: the stream holds the [error]
    event alone, with the text asking for a key and an empty content,
    whatever the vendor would have sent. *)
Theorem missing_api_key_fails_first (options : option OpenAIResponsesOptions)
    (env : option string) (now : Z) (vendor : VendorOutcome) :
  truthy_str (options ≫= (fun o => apiKey (o_base o))) = false ->
  truthy_str env = false ->
  exists m,
    queue (streamOpenAIResponses model context options env now vendor)
    = [ev_error (if signal_aborted options then SR_aborted else SR_error) m]
    /\ errorMessage m = Some missing_key_message
    /\ content m = [].
Proof.
  intros Hopt Henv. unfold streamOpenAIResponses, createClient.
  rewrite Hopt, Henv. simpl. eexists. repeat split.
Qed.

End RunProperties.

(** * Properties of the request side *)

Section RequestProperties.
Context {imports : Imports}.
Variable model : Model.
Variable context : Context.

(** ** When [convertMessages] throws *)

(** [convertMessages] converts the messages that [transformMessages]
    returns, and it returns, rather than throws, exactly when every replay
    token it hands to [JSON.parse] is well-formed: the non-empty signatures
    of the thinking blocks of the assistant messages of that list that did
    not end with [error].  One malformed signature among these makes the
    whole conversion throw; the signatures of the original history that
    [transformMessages] does not pass on are never parsed. *)
Theorem convertMessages_returns_iff (skip chat : bool) :
  (exists items, convertMessages model context skip chat = Ok items) <->
  history_parses (transformMessages (messages context) model) = true.
Proof.
  unfold convertMessages. split.
  - intros (items & Hc).
    destruct (convertLoop model (transformMessages (messages context) model)
                0%nat) as [converted | e] eqn:Hloop; [| discriminate Hc].
    by eapply convertLoop_parses.
  - intros Hp. destruct (convertLoop_ok model _ 0%nat Hp) as (converted & ->).
    simpl. eauto.
Qed.

(** ** What the conversion sends *)

Lemma convertAssistantBlocks_forall (P : InputItem -> bool)
    (m : AssistantMessage) :
  (forall b k its k',
     convertAssistantBlock m b k = Ok (its, k') -> forallb P its = true) ->
  forall blocks k items k',
    convertAssistantBlocks m blocks k = Ok (items, k') ->
    forallb P items = true.
Proof.
  intros HP. induction blocks as [| b blocks IH]; intros k items k' Hc;
    simpl in Hc.
  - by injection Hc as <- _.
  - destruct (convertAssistantBlock m b k) as [[its k1] | e] eqn:Hb;
      [| discriminate Hc].
    simpl in Hc.
    destruct (convertAssistantBlocks m blocks k1) as [[more k2] | e] eqn:Hr;
      [| discriminate Hc].
    simpl in Hc. injection Hc as <- _.
    by rewrite forallb_app, (HP _ _ _ _ Hb), (IH _ _ _ Hr).
Qed.

Lemma convertLoop_forall (P : InputItem -> bool) :
  (forall msg k its k',
     convertMessage model msg k = Ok (its, k') -> forallb P its = true) ->
  forall msgs k items,
    convertLoop model msgs k = Ok items -> forallb P items = true.
Proof.
  intros HP. induction msgs as [| msg msgs IH]; intros k items Hc;
    simpl in Hc.
  - by injection Hc as <-.
  - destruct (convertMessage model msg k) as [[its k1] | e] eqn:Hm;
      [| discriminate Hc].
    simpl in Hc.
    destruct (convertLoop model msgs k1) as [more | e] eqn:Hr;
      [| discriminate Hc].
    simpl in Hc. injection Hc as <-.
    by rewrite forallb_app, (HP _ _ _ _ Hm), (IH _ _ Hr).
Qed.

Lemma filter_drops_images (parts : list InputContent) :
  existsb isInputImage (List.filter (fun c => negb (isInputImage c)) parts)
  = false.
Proof.
  induction parts as [| c parts IH]; [done |]. simpl.
  destruct (isInputImage c) eqn:Hc; simpl; [done |]. by rewrite Hc.
Qed.

(** A model that does not take images is never sent one: if [model.input]
    lacks ["image"], no item of the converted input carries an
    [input_image] part, whatever the history holds. *)
Theorem no_image_for_text_only_model (skip chat : bool)
    (items : list InputItem) :
  has_image_input model = false ->
  convertMessages model context skip chat = Ok items ->
  forallb (fun item => negb (item_has_image item)) items = true.
Proof.
  intros Himg. unfold convertMessages.
  destruct (convertLoop model (transformMessages (messages context) model)
              0%nat) as [converted | e] eqn:Hloop; [| discriminate].
  simpl. intros [= <-]. rewrite forallb_app. apply andb_true_intro. split.
  - by destruct (truthy_str (systemPrompt context) && negb skip).
  - revert Hloop. apply convertLoop_forall.
    intros msg k its k' Hm. destruct msg as [um | am | tr]; simpl in Hm.
    + destruct (um_content um) as [str | parts].
      * by injection Hm as <- _.
      * rewrite Himg in Hm. simpl in Hm.
        case_match; injection Hm as <- _; [done |].
        simpl. by rewrite filter_drops_images.
    + revert Hm. apply convertAssistantBlocks_forall.
      intros b k0 its0 k0' Hb. destruct b as [tb | hb | cb]; simpl in Hb.
      * case_match; by injection Hb as <- _.
      * repeat case_match; simplify_eq; try done.
        destruct (JSON_parse _); [| discriminate Hb].
        simpl in Hb. by injection Hb as <- _.
      * case_match; by injection Hb as <- _.
    + rewrite Himg, andb_false_r in Hm. by injection Hm as <- _.
Qed.

(** An assistant message that ended with [error] contributes its text blocks
    only: the conversion of its content never throws, yields one output
    message per text block and nothing else. *)
Theorem errored_message_sends_text_only (m : AssistantMessage)
    (blocks : list AssistantBlock) (k : nat) :
  stopReason m = SR_error ->
  exists items k',
    convertAssistantBlocks m blocks k = Ok (items, k') /\
    forallb is_output_message items = true /\
    length items = length (List.filter isTextBlock blocks).
Proof.
  intros Herr. revert k.
  induction blocks as [| b blocks IH]; intros k; simpl.
  - by eexists [], k.
  - destruct b as [tb | hb | cb]; simpl; rewrite ?Herr; simpl.
    + destruct (truthy_str (textSignature tb)); simpl;
        [destruct (IH k) as (items & k' & -> & Hall & Hlen)
        | destruct (IH (S k)) as (items & k' & -> & Hall & Hlen)];
        simpl; eexists _, _; (split; [reflexivity |]); simpl; auto.
    + destruct (IH k) as (items & k' & -> & Hall & Hlen). simpl. eauto.
    + destruct (IH k) as (items & k' & -> & Hall & Hlen). simpl. eauto.
Qed.

(** ** Calls and answers *)

Lemma convertAssistantBlocks_calls (m : AssistantMessage)
    (blocks : list AssistantBlock) (k k' : nat) (items : list InputItem) :
  convertAssistantBlocks m blocks k = Ok (items, k') ->
  length (List.filter is_function_call items)
  = (if eqb_stop (stopReason m) SR_error then 0
     else length (List.filter isToolCall blocks))%nat /\
  List.filter is_function_call_output items = [].
Proof.
  revert k k' items.
  induction blocks as [| b blocks IH]; intros k k' items Hc; simpl in Hc.
  - injection Hc as <- _. by destruct (eqb_stop (stopReason m) SR_error).
  - destruct (convertAssistantBlock m b k) as [[its k1] | e] eqn:Hb;
      [| discriminate Hc].
    simpl in Hc.
    destruct (convertAssistantBlocks m blocks k1) as [[more k2] | e] eqn:Hr;
      [| discriminate Hc].
    simpl in Hc. injection Hc as <- _.
    destruct (IH _ _ _ Hr) as [Hcalls Hout].
    rewrite !List.filter_app, length_app, Hcalls, Hout.
    destruct b as [tb | hb | cb]; simpl in Hb |- *.
    + destruct (truthy_str (textSignature tb)); injection Hb as <- _;
        simpl; auto.
    + destruct (eqb_stop (stopReason m) SR_error); simpl in Hb.
      * by injection Hb as <- _.
      * destruct (truthy_str (thinkingSignature hb));
          [| by injection Hb as <- _].
        destruct (JSON_parse _); [| discriminate Hb].
        simpl in Hb. by injection Hb as <- _.
    + destruct (eqb_stop (stopReason m) SR_error); simpl in Hb;
        by injection Hb as <- _.
Qed.

(** The conversion keeps the call bookkeeping of the messages that
    [transformMessages] returns: it sends one [function_call] for every
    tool call of the assistant messages of that list that did not end with
    [error], and exactly one [function_call_output] for every tool result
    of that list, with or without images. *)
Theorem calls_and_answers_preserved (skip chat : bool)
    (items : list InputItem) :
  convertMessages model context skip chat = Ok items ->
  let transformed := transformMessages (messages context) model in
  length (List.filter is_function_call items)
  = list_sum (map resent_tool_calls transformed) /\
  length (List.filter is_function_call_output items)
  = length (List.filter isToolResult transformed).
Proof.
  unfold convertMessages.
  destruct (convertLoop model (transformMessages (messages context) model)
              0%nat) as [converted | e] eqn:Hloop; [| discriminate].
  simpl. intros [= <-]. cbv zeta.
  rewrite !List.filter_app, !length_app.
  assert (Hsys : forall P : InputItem -> bool,
             (forall r c, P (I_message r c) = false) ->
             length (List.filter P
               (if truthy_str (systemPrompt context) && negb skip
                then [I_message "user"
                        [input_text
                           (sanitizeSurrogates
                              (default "" (systemPrompt context)))]]
                else [])) = 0%nat).
  { intros P HP. destruct (_ && _); simpl; [| done]. by rewrite HP. }
  rewrite !Hsys by done. simpl.
  revert Hloop. generalize 0%nat.
  generalize (transformMessages (messages context) model).
  intros msgs. revert converted.
  induction msgs as [| msg msgs IH]; intros converted k Hc; simpl in Hc.
  - by injection Hc as <-.
  - destruct (convertMessage model msg k) as [[its k1] | e] eqn:Hm;
      [| discriminate Hc].
    simpl in Hc.
    destruct (convertLoop model msgs k1) as [more | e] eqn:Hr;
      [| discriminate Hc].
    simpl in Hc. injection Hc as <-.
    destruct (IH _ _ Hr) as [Hcalls Hout].
    rewrite !List.filter_app, !length_app, Hcalls, Hout. simpl.
    destruct msg as [um | am | tr]; simpl in Hm |- *.
    + destruct (um_content um); [by injection Hm as <- _ |].
      case_match; by injection Hm as <- _.
    + destruct (convertAssistantBlocks_calls _ _ _ _ _ Hm) as [-> ->].
      simpl. by destruct (eqb_stop (stopReason am) SR_error).
    + case_match; by injection Hm as <- _.
Qed.

(** ** The client *)

(** [createClient] succeeds exactly when a key is available; the key from
    the options wins over the environment's, an override of the base URL
    wins over the model's, and the headers are the model's overridden key by
    key by the options' ones, not passed at all when there are none. *)
Theorem createClient_resolution (options : option OpenAIResponsesOptions)
    (env : option string) :
  let optKey := options ≫= (fun o => apiKey (o_base o)) in
  let optHeaders : gmap string string :=
    default ∅ (options ≫= (fun o => headers (o_base o))) in
  let modelHeaders : gmap string string := default ∅ (model_headers model) in
  match createClient model options env with
  | Throw msg =>
      truthy_str optKey = false /\ truthy_str env = false /\
      msg = missing_key_message
  | Ok client =>
      Some (cl_apiKey client)
      = (if truthy_str optKey then optKey else env) /\
      cl_apiKey client <> "" /\
      (forall name,
         default ∅ (cl_defaultHeaders client) !! name
         = match optHeaders !! name with
           | Some v => Some v
           | None => modelHeaders !! name
           end) /\
      (cl_defaultHeaders client = None <->
       optHeaders = ∅ /\ modelHeaders = ∅)
  end.
Proof.
  cbv zeta. unfold createClient.
  set (optKey := options ≫= (fun o => apiKey (o_base o))).
  set (oh := default ∅ (options ≫= (fun o => headers (o_base o)))).
  set (mh := default ∅ (model_headers model)).
  assert (Htruthy : forall o : option string,
             truthy_str o = true ->
             Some (default "" o) = o /\ default "" o <> "").
  { intros [str |]; simpl; [| done]. intros H. split; [done |].
    apply negb_true_iff in H. by apply String.eqb_neq. }
  assert (Hheaders :
            (forall name,
               default ∅ (if bool_decide (oh ∪ mh = ∅) then None
                           else Some (oh ∪ mh)) !! name
               = match oh !! name with
                 | Some v => Some v
                 | None => mh !! name
                 end) /\
            ((if bool_decide (oh ∪ mh = ∅) then None else Some (oh ∪ mh))
             = None <-> oh = ∅ /\ mh = ∅)).
  { assert (Hboth : oh ∪ mh = ∅ -> oh = ∅ /\ mh = ∅).
    { intros Hempty. pose proof (map_positive_l _ _ Hempty) as Hoh.
      rewrite Hoh, (left_id ∅ (∪)) in Hempty. done. }
    split.
    - intros name. case_bool_decide as Hempty; simpl.
      + destruct (Hboth Hempty) as [-> ->]. by rewrite !lookup_empty.
      + rewrite lookup_union. by destruct (oh !! name), (mh !! name).
    - case_bool_decide as Hempty.
      + split; [| done]. intros _. by apply Hboth.
      + split; [done |]. intros [Hoh Hmh]. rewrite Hoh, Hmh in Hempty.
        by rewrite (left_id ∅ (∪)) in Hempty. }
  destruct (truthy_str optKey) eqn:Hopt; simpl.
  - destruct (Htruthy _ Hopt). auto.
  - destruct (truthy_str env) eqn:Henv; simpl.
    + destruct (Htruthy _ Henv). auto.
    + auto.
Qed.

End RequestProperties.

(** * Properties of the request parameters *)

Section ParamsProperties.
Context {imports : Imports}.
Variable model : Model.
Variable context : Context.

(** The request either sets the [reasoning] parameter or, for a gpt-5
    reasoning model, ends with the juice prompt, never both: with
    [reasoning] set the input is the converted history as it is and the
    encrypted reasoning is asked for; without it the input is the converted
    history, followed by the juice prompt exactly when the model reasons and
    its name starts with [gpt-5].  The prompt is pushed onto the array the
    parameters already hold, so it is part of the request. *)
Theorem reasoning_or_juice (options : option OpenAIResponsesOptions)
    (params : ResponseCreateParams) :
  buildParams model context options = Ok params ->
  let chat :=
    match options ≫= (fun o => baseUrlOverride (o_base o)) with
    | Some url => includes "chatgpt.com" url
    | None => false
    end in
  exists converted,
    convertMessages model context false chat = Ok converted /\
    match p_reasoning params with
    | Some r =>
        model_reasoning model = true /\
        p_input params = converted /\
        p_include params = Some ["reasoning.encrypted_content"] /\
        rp_effort r = default medium (options ≫= reasoningEffort) /\
        rp_summary r = default rs_auto (options ≫= reasoningSummary)
    | None =>
        p_input params =
        if model_reasoning model && startsWith "gpt-5" (model_name model)
        then (converted ++
              [I_message (if chat then "user" else "developer")
                 [input_text "# Juice: 0 !important"]])%list
        else converted
    end.
Proof.
  unfold buildParams. cbv zeta.
  destruct (convertMessages model context false _) as [converted | e];
    [| discriminate].
  simpl. intros [= <-]. exists converted. split; [done |]. simpl.
  destruct (model_reasoning model); simpl; [| done].
  destruct options as [o |]; simpl; [| done].
  destruct (reasoningEffort o), (reasoningSummary o); simpl; done.
Qed.

(** A request to the ChatGPT backend never carries [max_output_tokens],
    whatever [maxTokens] the options hold, and always carries the Codex
    instructions, [store: false], a tools array and the encrypted-reasoning
    include; a request to the standard API carries none of the backend's
    fields, and [max_output_tokens] exactly when [maxTokens] is non-zero. *)
Theorem chatgpt_backend_request (options : option OpenAIResponsesOptions)
    (params : ResponseCreateParams) :
  buildParams model context options = Ok params ->
  let chat :=
    match options ≫= (fun o => baseUrlOverride (o_base o)) with
    | Some url => includes "chatgpt.com" url
    | None => false
    end in
  if chat then
    p_max_output_tokens params = None /\
    p_instructions params = Some CODEX_BASE_INSTRUCTIONS /\
    p_store params = Some false /\
    p_tool_choice params = Some "auto" /\
    p_parallel_tool_calls params = Some true /\
    p_tools params = Some (default [] (convertTools <$> tools context)) /\
    p_include params = Some ["reasoning.encrypted_content"]
  else
    p_instructions params = None /\
    p_store params = None /\
    p_tool_choice params = None /\
    p_parallel_tool_calls params = None /\
    p_tools params = convertTools <$> tools context /\
    p_max_output_tokens params =
      match options ≫= (fun o => maxTokens (o_base o)) with
      | Some n => if n =? 0 then None else Some n
      | None => None
      end.
Proof.
  unfold buildParams. cbv zeta.
  destruct (convertMessages model context false _) as [converted | e];
    [| discriminate].
  simpl. intros [= <-]. simpl.
  destruct (match options ≫= _ with Some url => _ | None => false end);
    simpl.
  - repeat split; try (by destruct (tools context)).
    by destruct (model_reasoning model && _).
  - repeat split; try (by destruct (tools context)).
    destruct (options ≫= (fun o => maxTokens (o_base o))) as [n |];
      simpl; [| done].
    by destruct (n =? 0).
Qed.

End ParamsProperties.

(** * Properties of the key registry and the dispatch of [stream.ts] *)

Section DispatchProperties.
Import Dispatch.
Context {EventStream_ : Type}.
Variables streamAnthropic streamOpenAICompletions streamOpenAIResponses
  streamOpenAICodex streamGoogle
  : Model -> Context -> Stream.ProviderOptions -> EventStream_.

(** A registered key is what [getApiKey] returns for its provider, whatever
    the environment holds, unless it is the empty string, which leaves the
    provider on its environment variable; the other providers are not
    affected. *)
Theorem getApiKey_after_setApiKey (apiKeys env : gmap string string)
    (provider key other : string) :
  getApiKey (setApiKey provider key apiKeys) env other =
  if decide (other = provider) then
    if decide (key = "") then getApiKey ∅ env provider else Some key
  else getApiKey apiKeys env other.
Proof.
  unfold getApiKey, setApiKey. destruct (decide (other = provider)) as [-> |].
  - rewrite lookup_insert_eq, lookup_empty. simpl.
    destruct (decide (key = "")) as [-> | Hkey]; [done |].
    apply String.eqb_neq in Hkey. by rewrite Hkey.
  - by rewrite lookup_insert_ne.
Qed.


Lemma with_apiKey_mapped (model : Model)
    (options : option SimpleStreamOptions) (k : string) :
  k <> "" ->
  with_apiKey (Stream.mapOptionsForApi model options (Some k)) k
  = Stream.mapOptionsForApi model options (Some k).
Proof.
  intros Hk. apply String.eqb_neq in Hk.
  unfold Stream.mapOptionsForApi, or_str. simpl. rewrite Hk. simpl.
  destruct (model_api model); simpl; try done;
    by destruct (options ≫= reasoning).
Qed.

(** [streamSimple] composes the key resolution, [mapOptionsForApi] and
    [stream]: it throws exactly when no key can be resolved, and otherwise
    the adapter of the model's API receives exactly the options
    [mapOptionsForApi] built for the resolved key; the second resolution,
    inside [stream], changes nothing. *)
Theorem streamSimple_dispatch (apiKeys env : gmap string string)
    (model : Model) (context : Context)
    (options : option SimpleStreamOptions) :
  streamSimple streamAnthropic streamOpenAICompletions streamOpenAIResponses
    streamOpenAICodex streamGoogle apiKeys env model context options
  = match resolved_key apiKeys env (options ≫= s_apiKey)
            (model_provider model) with
    | Some k =>
        if String.eqb k "" then Throw (no_key_message (model_provider model))
        else
          Ok (adapter_for streamAnthropic streamOpenAICompletions
                streamOpenAIResponses streamOpenAICodex streamGoogle
                (model_api model) model context
                (Stream.mapOptionsForApi model options (Some k)))
    | None => Throw (no_key_message (model_provider model))
    end.
Proof.
  unfold streamSimple, resolved_key.
  destruct (or_str _ _) as [k |] eqn:Hkey; simpl; [| done].
  destruct (String.eqb k "") eqn:Hk; simpl; [done |].
  unfold stream. simpl.
  assert (Hbase : apiKey (Stream.base_of
                            (Stream.mapOptionsForApi model options (Some k)))
                  = Some k).
  { unfold Stream.mapOptionsForApi, or_str. simpl. rewrite Hk. simpl.
    destruct (model_api model); simpl; try done;
      by destruct (options ≫= reasoning). }
  rewrite Hbase. unfold or_str. simpl. repeat (rewrite Hk; simpl).
  apply String.eqb_neq in Hk. by rewrite with_apiKey_mapped.
Qed.

End DispatchProperties.

(** The key [streamSimple] resolves is the key the Responses client is
    built with: on the options [mapOptionsForApi] hands to the adapter,
    [createClient] never fails and never falls back to its own reading of
    [OPENAI_API_KEY]. *)
Theorem resolved_key_reaches_client (model : Model)
    (options : option SimpleStreamOptions) (k : string)
    (env_OPENAI_API_KEY : option string) :
  k <> "" ->
  exists client,
    createClient model
      (Some (Dispatch.as_responses_options
               (Stream.mapOptionsForApi model options (Some k))))
      env_OPENAI_API_KEY
    = Ok client /\
    cl_apiKey client = k /\
    cl_baseURL client =
      match options ≫= s_baseUrlOverride with
      | Some url => if String.eqb url "" then model_baseUrl model else url
      | None => model_baseUrl model
      end.
Proof.
  intros Hk. apply String.eqb_neq in Hk. unfold createClient.
  assert (Hbase : Stream.base_of
                    (Stream.mapOptionsForApi model options (Some k))
                  = {| temperature := options ≫= s_temperature;
                       maxTokens :=
                         Some (or_num (options ≫= s_maxTokens)
                                 (Z.min (model_maxTokens model) 32000));
                       signal := options ≫= s_signal;
                       apiKey := Some k;
                       headers := options ≫= s_headers;
                       baseUrlOverride := options ≫= s_baseUrlOverride |}).
  { unfold Stream.mapOptionsForApi, or_str. simpl. rewrite Hk. simpl.
    destruct (model_api model); simpl; try done;
      by destruct (options ≫= reasoning). }
  simpl. rewrite Hbase. simpl. rewrite Hk. simpl.
  eexists. split; [reflexivity |]. simpl. split; [done |].
  unfold or_str.
  destruct (options ≫= s_baseUrlOverride) as [url |]; simpl; [| done].
  by destruct (String.eqb url "").
Qed.

(** The thinking budgets never decrease with the effort level: for the
    Anthropic table and for every Google model, known family or not; and a
    2.5-pro model is never given less than a 2.5-flash one. *)
Theorem budgets_monotone (m : Model) (e1 e2 : ReasoningEffort) :
  (Dispatch.effort_rank e1 <= Dispatch.effort_rank e2)%nat ->
  Stream.anthropicBudgets e1 <= Stream.anthropicBudgets e2 /\
  Stream.getGoogleBudget m e1 <= Stream.getGoogleBudget m e2.
Proof.
  intros Hle. unfold Stream.getGoogleBudget.
  destruct (includes "2.5-pro" (model_id m)),
    (includes "2.5-flash" (model_id m));
    destruct e1, e2; simpl in Hle |- *; lia.
Qed.

(** * Properties of the OAuth callback server *)

Section CallbackServer.
Import LocalServer.
Variable expectedState : string.
Variable port : nat.

Lemma settled_on_event (ev : Event) (s : Server)
    (o : Result CallbackResult) :
  settled s = Some o -> settled (on_event expectedState port ev s) = Some o.
Proof.
  intros Hs. destruct ev as [| req | | c m |]; simpl; unfold handleRequest;
    repeat case_match; simpl; by rewrite ?Hs.
Qed.

Lemma run_cons (ev : Event) (events : list Event) (s : Server) :
  run expectedState port (ev :: events) s
  = run expectedState port events (on_event expectedState port ev s).
Proof. reflexivity. Qed.

Lemma settled_run (events : list Event) (s : Server)
    (o : Result CallbackResult) :
  settled s = Some o ->
  settled (run expectedState port events s) = Some o.
Proof.
  revert s. induction events as [| ev events IH]; intros s Hs; [done |].
  rewrite run_cons. by apply IH, settled_on_event.
Qed.




Lemma resolved_by_request (req : Request) (s : Server)
    (r : CallbackResult) :
  settled s = None ->
  settled (handleRequest expectedState req s) = Some (Ok r) ->
  q_code req = Some (code r) /\ q_state req = Some expectedState /\
  state r = expectedState /\ code r <> "" /\ expectedState <> "" /\
  truthy_str (q_error req) = false /\ is_not_found (Incoming req) = false.
Proof.
  intros Hs. unfold handleRequest. simpl.
  destruct (negb (pathname req =? "/")%string
            && negb (pathname req =? "/auth/callback")%string) eqn:Hpath;
    simpl; rewrite ?Hs; [done |].
  destruct (truthy_str (q_error req)) eqn:Herr; simpl; rewrite ?Hs; [done |].
  destruct (q_code req) as [c |] eqn:Hcode; simpl; rewrite ?Hs; [| done].
  destruct (String.eqb c "") eqn:Hc; simpl; rewrite ?Hs; [done |].
  destruct (q_state req) as [st |] eqn:Hstate; simpl; rewrite ?Hs; [| done].
  destruct (String.eqb st "") eqn:Hst; simpl; rewrite ?Hs; [done |].
  destruct (String.eqb st expectedState) eqn:Hexp; simpl; rewrite ?Hs;
    [| done].
  intros [= <-]. simpl.
  apply String.eqb_eq in Hexp. subst st.
  apply String.eqb_neq in Hc, Hst. done.
Qed.

(** The promise resolves only on a callback that carries the expected
    state: if it resolves, some request to an accepted path had no [error]
    parameter, a non-empty [code], which is the one returned, and a [state]
    equal to [expectedState]; no other request, no timer and no server
    error makes it resolve.  With an empty [expectedState] it never
    resolves. *)
Theorem callback_needs_expected_state (events : list Event)
    (r : CallbackResult) :
  settled (run expectedState port events startCallbackServer) = Some (Ok r) ->
  state r = expectedState /\ code r <> "" /\ expectedState <> "" /\
  exists req,
    In (Incoming req) events /\
    q_code req = Some (code r) /\ q_state req = Some expectedState /\
    truthy_str (q_error req) = false /\ is_not_found (Incoming req) = false.
Proof.
  assert (Hgen : forall events s,
             settled s = None ->
             settled (run expectedState port events s) = Some (Ok r) ->
             state r = expectedState /\ code r <> "" /\
             expectedState <> "" /\
             exists req,
               In (Incoming req) events /\
               q_code req = Some (code r) /\
               q_state req = Some expectedState /\
               truthy_str (q_error req) = false /\
               is_not_found (Incoming req) = false).
  { clear events. induction events as [| ev events IH]; intros s Hs Hrun.
    - simpl in Hrun. congruence.
    - rewrite run_cons in Hrun.
      destruct (settled (on_event expectedState port ev s)) as [o |] eqn:Hev.
      + rewrite (settled_run _ _ _ Hev) in Hrun.
        injection Hrun as ->.
        destruct ev as [| req | | c m |]; simpl in Hev.
        * congruence.
        * destruct (resolved_by_request _ _ _ Hs Hev)
            as (? & ? & ? & ? & ? & ? & ?).
          repeat split; try done. exists req. repeat split; try done.
          by left.
        * congruence.
        * rewrite Hs in Hev. discriminate Hev.
        * destruct (timeoutHandle s); simpl in Hev; rewrite Hs in Hev;
            discriminate Hev.
      + destruct (IH _ Hev Hrun) as (? & ? & ? & req & Hin & ?).
        repeat split; try done. exists req. split; [by right | done]. }
  intros Hrun. by apply (Hgen events startCallbackServer).
Qed.

(** Requests to other paths than [/] and [/auth/callback] are answered
    with 404 and otherwise ignored: they neither settle the promise nor
    stop the server or the timer, so a run with them ends as the run
    without them. *)
Theorem other_paths_ignored (events : list Event) (s : Server) :
  let s1 := run expectedState port events s in
  let s2 :=
    run expectedState port
      (List.filter (fun ev => negb (is_not_found ev)) events) s in
  settled s1 = settled s2 /\ server s1 = server s2 /\
  timeoutHandle s1 = timeoutHandle s2.
Proof.
  cbv zeta.
  assert (Hgen : forall events s s',
             settled s = settled s' -> server s = server s' ->
             timeoutHandle s = timeoutHandle s' ->
             let s1 := run expectedState port events s in
             let s2 :=
               run expectedState port
                 (List.filter (fun ev => negb (is_not_found ev)) events) s' in
             settled s1 = settled s2 /\ server s1 = server s2 /\
             timeoutHandle s1 = timeoutHandle s2).
  { clear events s. induction events as [| ev events IH];
      intros s s' Hset Hsrv Htim; [done |].
    cbv zeta. rewrite run_cons. simpl List.filter.
    destruct (is_not_found ev) eqn:Hnf; simpl negb; cbv iota.
    - apply IH; destruct ev as [| req | | |]; try discriminate Hnf;
        simpl in Hnf |- *; unfold handleRequest; by rewrite Hnf.
    - rewrite run_cons.
      apply IH; destruct ev as [| req | | c m |]; simpl;
        unfold handleRequest; rewrite ?Hset, ?Hsrv, ?Htim;
        repeat case_match; simpl; by rewrite ?Hset, ?Hsrv, ?Htim. }
  by apply Hgen.
Qed.

(** A request is answered exactly when its target parses, and then exactly
    once, settled promise or not: the responses written are as many as the
    requests with a target that [new URL] accepts.  A request whose target
    it rejects gets no response from the handler, and the [listen]
    callback, the timer and the [error] listener write none. *)
Theorem every_request_answered (events : list Event) (s : Server) :
  length (sent (run expectedState port events s))
  = (length (sent s) + length (List.filter is_request events))%nat.
Proof.
  revert s. induction events as [| ev events IH]; intros s;
    [simpl; lia |].
  rewrite run_cons, IH.
  destruct ev as [| req | | c m |]; simpl; unfold handleRequest;
    repeat case_match; simpl; rewrite ?length_app; simpl; lia.
Qed.

End CallbackServer.

(** * Properties of the stored credentials and of the token functions *)

Section StoredCredentials.
Import OAuth.

Lemma loadStorage_saveStorage (storage : gmap string OAuthCredentials)
    (disk : Disk) :
  loadStorage (saveStorage storage disk) = storage.
Proof. reflexivity. Qed.

(** For provider names that are not property names of [Object.prototype],
    saving and removing credentials round-trip through [oauth.json] and
    touch one provider only; either leaves the file with mode [0o600]
    (384) in an existing directory.  On an unreadable file the other
    providers read as absent before and after. *)
Theorem credentials_round_trip (disk : Disk) (provider other : string)
    (creds : OAuthCredentials) :
  plain_key provider = true ->
  plain_key other = true ->
  loadOAuthCredentials other (saveOAuthCredentials provider creds disk)
  = (if decide (other = provider) then Some creds
     else loadOAuthCredentials other disk) /\
  loadOAuthCredentials other (removeOAuthCredentials provider disk)
  = (if decide (other = provider) then None
     else loadOAuthCredentials other disk) /\
  oauthMode (saveOAuthCredentials provider creds disk) = 384 /\
  configDir (saveOAuthCredentials provider creds disk) = true /\
  oauthMode (removeOAuthCredentials provider disk) = 384 /\
  configDir (removeOAuthCredentials provider disk) = true.
Proof.
  intros _ _.
  unfold loadOAuthCredentials, saveOAuthCredentials, removeOAuthCredentials.
  rewrite !loadStorage_saveStorage.
  repeat split;
    try (unfold saveStorage, ensureConfigDir;
         by destruct (configDir disk) eqn:Hdir).
  - destruct (decide (other = provider)) as [-> | Hne].
    + by rewrite lookup_insert_eq.
    + by rewrite lookup_insert_ne.
  - destruct (decide (other = provider)) as [-> | Hne].
    + by rewrite lookup_delete_eq.
    + by rewrite lookup_delete_ne.
Qed.

Variables fetchAnthropic fetchOpenAI : string -> TokenResponse.
Variable extractChatGptAccountIdFromJwt : string -> option string.

Lemma load_save (disk : Disk) (provider : string) (creds : OAuthCredentials) :
  loadOAuthCredentials provider (saveOAuthCredentials provider creds disk)
  = Some creds.
Proof.
  unfold loadOAuthCredentials, saveOAuthCredentials.
  by rewrite loadStorage_saveStorage, lookup_insert_eq.
Qed.

Lemma load_save_ne (disk : Disk) (provider other : string)
    (creds : OAuthCredentials) :
  other <> provider ->
  loadOAuthCredentials other (saveOAuthCredentials provider creds disk)
  = loadOAuthCredentials other disk.
Proof.
  intros Hne.
  unfold loadOAuthCredentials, saveOAuthCredentials.
  by rewrite loadStorage_saveStorage, lookup_insert_ne.
Qed.

Lemma load_remove (disk : Disk) (provider : string) :
  loadOAuthCredentials provider (removeOAuthCredentials provider disk) = None.
Proof.
  unfold loadOAuthCredentials, removeOAuthCredentials.
  by rewrite loadStorage_saveStorage, lookup_delete_eq.
Qed.

Lemma load_remove_ne (disk : Disk) (provider other : string) :
  other <> provider ->
  loadOAuthCredentials other (removeOAuthCredentials provider disk)
  = loadOAuthCredentials other disk.
Proof.
  intros Hne.
  unfold loadOAuthCredentials, removeOAuthCredentials.
  by rewrite loadStorage_saveStorage, lookup_delete_ne.
Qed.

Lemma refreshToken_cases (provider : string) (now : Z) (disk : Disk) :
  (exists creds,
     refreshToken fetchAnthropic fetchOpenAI extractChatGptAccountIdFromJwt
       provider now disk
     = (Ok (access creds), saveOAuthCredentials provider creds disk)) \/
  (exists msg,
     refreshToken fetchAnthropic fetchOpenAI extractChatGptAccountIdFromJwt
       provider now disk
     = (Throw msg, disk)).
Proof.
  unfold refreshToken.
  destruct (loadOAuthCredentials provider disk) as [c |]; [| eauto].
  destruct (if String.eqb provider "anthropic" then _ else _)
    as [creds | msg]; eauto.
Qed.

(** The token [getOAuthToken] returns is the access token stored when it
    returns: after a call the file holds credentials for the provider
    exactly when a token was returned, and theirs is that token; the
    credentials of the other providers are as before. *)
Theorem token_matches_store (provider other : string) (checked now : Z)
    (disk : Disk) :
  let result :=
    getOAuthToken fetchAnthropic fetchOpenAI extractChatGptAccountIdFromJwt
      provider checked now disk in
  result.1 = access <$> loadOAuthCredentials provider result.2 /\
  (other <> provider ->
   loadOAuthCredentials other result.2 = loadOAuthCredentials other disk).
Proof.
  cbv zeta. unfold getOAuthToken.
  destruct (loadOAuthCredentials provider disk) as [c |] eqn:Hload; simpl.
  - destruct (expires c <=? checked); simpl.
    + destruct (refreshToken_cases provider now disk)
        as [(creds & ->) | (msg & ->)]; simpl.
      * rewrite load_save. split; [done |]. apply load_save_ne.
      * rewrite load_remove. split; [done |]. apply load_remove_ne.
    + by rewrite Hload.
  - by rewrite Hload.
Qed.

(** A token that has not expired is returned as it is: the token endpoint
    is not asked and the file is not written. *)
Theorem fresh_token_not_refreshed (provider : string) (checked now : Z)
    (disk : Disk) (creds : OAuthCredentials) :
  loadOAuthCredentials provider disk = Some creds ->
  checked < expires creds ->
  getOAuthToken fetchAnthropic fetchOpenAI extractChatGptAccountIdFromJwt
    provider checked now disk
  = (Some (access creds), disk).
Proof.
  intros Hload Hfresh. unfold getOAuthToken. rewrite Hload.
  by rewrite (proj2 (Z.leb_gt _ _) Hfresh).
Qed.

(** An expired OpenAI token is refreshed with the stored refresh token: if
    the endpoint answers with token data, the new access token is returned
    and stored, with an expiry five minutes before the end of its life
    counted from the refresher's clock; otherwise nothing is returned and
    the credentials are removed. *)
Theorem expired_token_refreshed_or_dropped (checked now : Z) (disk : Disk)
    (creds : OAuthCredentials) :
  loadOAuthCredentials "openai" disk = Some creds ->
  expires creds <= checked ->
  let result :=
    getOAuthToken fetchAnthropic fetchOpenAI extractChatGptAccountIdFromJwt
      "openai" checked now disk in
  match fetchOpenAI (refresh creds) with
  | TokenJson data =>
      result.1 = Some (access_token data) /\
      loadOAuthCredentials "openai" result.2
      = Some {| refresh := refresh_token data;
                access := access_token data;
                expires := now + expires_in data * 1000 - 300000;
                accountId :=
                  extractChatGptAccountIdFromJwt (access_token data) |}
  | _ =>
      result.1 = None /\ loadOAuthCredentials "openai" result.2 = None
  end.
Proof.
  intros Hload Hexp. cbv zeta. unfold getOAuthToken. rewrite Hload.
  rewrite (proj2 (Z.leb_le _ _) Hexp).
  unfold refreshToken. rewrite Hload. simpl.
  unfold refreshOpenAIToken.
  destruct (fetchOpenAI (refresh creds)) as [m | t | data]; simpl.
  - by rewrite load_remove.
  - by rewrite load_remove.
  - by rewrite load_save.
Qed.

(** Credentials of a provider that has no refresher do not survive their
    expiry: for every provider other than [anthropic] and [openai],
    [github-copilot] included, an expired token gives nothing and is
    removed. *)
Theorem unsupported_provider_dropped (provider : string) (checked now : Z)
    (disk : Disk) (creds : OAuthCredentials) :
  provider <> "anthropic" -> provider <> "openai" ->
  loadOAuthCredentials provider disk = Some creds ->
  expires creds <= checked ->
  getOAuthToken fetchAnthropic fetchOpenAI extractChatGptAccountIdFromJwt
    provider checked now disk
  = (None, removeOAuthCredentials provider disk).
Proof.
  intros Ha Ho Hload Hexp. unfold getOAuthToken. rewrite Hload.
  rewrite (proj2 (Z.leb_le _ _) Hexp).
  unfold refreshToken. rewrite Hload.
  apply String.eqb_neq in Ha, Ho. rewrite Ha, Ho.
  by destruct (String.eqb provider "github-copilot").
Qed.

(** [getOpenAIOAuthCredentials] and [getOAuthToken] agree: on the same
    file and clock they leave the same file, and the token of the one is
    the access token of the credentials of the other. *)
Theorem openai_credentials_agree_with_token (checked now : Z)
    (disk : Disk) :
  let credentials :=
    getOpenAIOAuthCredentials fetchAnthropic fetchOpenAI
      extractChatGptAccountIdFromJwt checked now disk in
  let token :=
    getOAuthToken fetchAnthropic fetchOpenAI extractChatGptAccountIdFromJwt
      "openai" checked now disk in
  token.1 = access <$> credentials.1 /\ token.2 = credentials.2.
Proof.
  cbv zeta. unfold getOpenAIOAuthCredentials, getOAuthToken.
  destruct (loadOAuthCredentials "openai" disk) as [c |] eqn:Hload;
    [| done].
  destruct (expires c <=? checked); [| done].
  destruct (refreshToken_cases "openai" now disk)
    as [(creds & ->) | (msg & ->)]; simpl; [| done].
  by rewrite load_save.
Qed.

End StoredCredentials.

(** A refreshed token is good until its new expiry: after a refresh that
    succeeded, every later call before that expiry returns the same token
    without asking any endpoint or writing the file. *)
Theorem refreshed_token_stays_valid
    (fetchAnthropic fetchOpenAI fetchAnthropic' fetchOpenAI'
       : string -> OAuth.TokenResponse)
    (extract extract' : string -> option string)
    (checked now checked' now' : Z) (disk : OAuth.Disk)
    (creds : OAuth.OAuthCredentials) (data : OAuth.TokenData) :
  OAuth.loadOAuthCredentials "openai" disk = Some creds ->
  OAuth.expires creds <= checked ->
  fetchOpenAI (OAuth.refresh creds) = OAuth.TokenJson data ->
  checked' < now + OAuth.expires_in data * 1000 - 300000 ->
  let first :=
    OAuth.getOAuthToken fetchAnthropic fetchOpenAI extract
      "openai" checked now disk in
  OAuth.getOAuthToken fetchAnthropic' fetchOpenAI' extract'
    "openai" checked' now' first.2
  = (Some (OAuth.access_token data), first.2).
Proof.
  intros Hload Hexp Hfetch Hfresh. cbv zeta.
  unfold OAuth.getOAuthToken at 2 3. rewrite Hload.
  rewrite (proj2 (Z.leb_le _ _) Hexp).
  unfold OAuth.refreshToken. rewrite Hload. simpl.
  unfold OAuth.refreshOpenAIToken. rewrite Hfetch. simpl.
  unfold OAuth.getOAuthToken. rewrite load_save. simpl.
  replace (5 * 60 * 1000) with 300000 by lia.
  by rewrite (proj2 (Z.leb_gt _ _) Hfresh).
Qed.

(** * The properties on concrete inputs *)

(** Scenario A ends with [done]: the reason is the message's, and the
    message has no [errorMessage]. *)
Lemma terminal_reason_typed_witness :
  exists m,
    last (queue (demo_run false (Streams scenario_A EndOfStream)))
    = Some (ev_done SR_toolUse m) /\
    SR_toolUse = stopReason m /\
    errorMessage m = None.
Proof.
  assert (Hlast : exists m,
             last (queue (demo_run false (Streams scenario_A EndOfStream)))
             = Some (ev_done SR_toolUse m)).
  { vm_compute. eexists. reflexivity. }
  destruct Hlast as (m & Hlast).
  destruct (terminal_reason_typed (imports := demo_imports) demo_model
              demo_context (demo_options false) None 1700000000000
              (Streams scenario_A EndOfStream) SR_toolUse m)
    as [Hdone _].
  destruct (Hdone Hlast) as (Hreason & _ & Herr & _).
  exists m. split; [exact Hlast |]. split; [exact Hreason | exact Herr].
Defined.

(** Scenario A reports [toolUse], and its message holds a tool call. *)
Lemma toolUse_means_tool_call_witness :
  exists m,
    last (queue (demo_run false (Streams scenario_A EndOfStream)))
    = Some (ev_done SR_toolUse m) /\
    existsb isToolCall (content m) = true.
Proof.
  assert (Hlast : exists m,
             last (queue (demo_run false (Streams scenario_A EndOfStream)))
             = Some (ev_done SR_toolUse m)).
  { vm_compute. eexists. reflexivity. }
  destruct Hlast as (m & Hlast).
  exists m. split; [exact Hlast |].
  exact (toolUse_means_tool_call (imports := demo_imports) demo_model
           demo_context (demo_options false) None 1700000000000
           (Streams scenario_A EndOfStream) m Hlast).
Defined.

(** In Scenario A the [toolcall_start] event carries index 1, which is
    below the two blocks of the final message. *)
Lemma content_indices_in_range_witness :
  exists m,
    final_message (demo_run false (Streams scenario_A EndOfStream)) = Some m /\
    -1 <= 1 < Z.of_nat (length (content m)).
Proof.
  destruct (content_indices_in_range (imports := demo_imports) demo_model
              demo_context (demo_options false) None 1700000000000
              (Streams scenario_A EndOfStream))
    as (m & Hfinal & Hall).
  exists m. split; [exact Hfinal |].
  refine (proj1 (Hall (toolcall_start 1) 1 _ eq_refl)).
  vm_compute. do 4 right. left. reflexivity.
Defined.

(** In Scenario A the text block is finalized as [Hello] with the item's id,
    and the function call that follows leaves it alone. *)
Lemma finalized_text_block_witness :
  content (output (state_of
             (for_await (imports := demo_imports) demo_model demo_context
                (initial_state demo_model 0)
                ([output_item_added
                    (ItemMessage {| m_id := "msg_1"; m_content := [] |});
                  content_part_added (part_output_text EmptyString);
                  output_text_delta "Hello"]
                 ++ output_item_done
                      (ItemMessage {| m_id := "msg_1";
                                      m_content :=
                                        [part_output_text "Hello"] |})
                 :: [output_item_added (ItemFunctionCall lookup_item);
                     output_item_done (ItemFunctionCall lookup_item_done)]))))
  !! 0%nat
  = Some (BText {| text := "Hello"; textSignature := Some "msg_1" |}).
Proof.
  assert (Hpre : exists s p b,
             for_await (imports := demo_imports) demo_model demo_context
               (initial_state demo_model 0)
               [output_item_added
                  (ItemMessage {| m_id := "msg_1"; m_content := [] |});
                content_part_added (part_output_text EmptyString);
                output_text_delta "Hello"]
             = Continue s p /\
             currentBlock s = Some 0%nat /\
             content (output s) !! 0%nat = Some (BText b)).
  { vm_compute. eexists _, _, _. repeat split; reflexivity. }
  destruct Hpre as (s & p & b & Hrun & Hcur & Hblock).
  exact (finalized_text_block (imports := demo_imports) demo_model
           demo_context (initial_state demo_model 0) s _ _ p
           {| m_id := "msg_1"; m_content := [part_output_text "Hello"] |}
           0%nat b Hrun Hcur Hblock).
Defined.

(** After [response.failed] nothing is read: a completion that follows it
    changes nothing. *)
Lemma events_after_throw_ignored_witness :
  demo_run false
    (Streams (reasoning_then_failure ++
              [response_completed scenario_A_completion]) EndOfStream)
  = demo_run false (Streams reasoning_then_failure EndOfStream).
Proof.
  assert (Hthrow : exists s p msg,
             for_await (imports := demo_imports) demo_model demo_context
               (initial_state demo_model 1700000000000)
               reasoning_then_failure
             = Raise s p msg).
  { vm_compute. eexists _, _, _. reflexivity. }
  destruct Hthrow as (s & p & msg & Hthrow).
  exact (events_after_throw_ignored (imports := demo_imports) demo_model
           demo_context (demo_options false) None 1700000000000
           reasoning_then_failure [response_completed scenario_A_completion]
           EndOfStream s p msg Hthrow).
Defined.

(** With no options and no [OPENAI_API_KEY] the stream holds the [error]
    event alone. *)
Lemma missing_api_key_fails_first_witness :
  exists m,
    queue (streamOpenAIResponses (imports := demo_imports) demo_model
             demo_context None None 1700000000000
             (Streams scenario_A EndOfStream))
    = [ev_error SR_error m] /\
    errorMessage m = Some missing_key_message /\
    content m = [].
Proof.
  exact (missing_api_key_fails_first (imports := demo_imports) demo_model
           demo_context None None 1700000000000
           (Streams scenario_A EndOfStream) eq_refl eq_refl).
Defined.

(** The history with two images converts for the text-only model, and no
    converted item carries an image. *)
Lemma no_image_for_text_only_model_witness :
  exists items,
    convertMessages (imports := demo_imports) text_only_model image_context
      false false = Ok items /\
    forallb (fun item => negb (item_has_image item)) items = true.
Proof.
  assert (Hconv : exists items,
             convertMessages (imports := demo_imports) text_only_model
               image_context false false = Ok items).
  { vm_compute. eexists. reflexivity. }
  destruct Hconv as (items & Hconv).
  exists items. split; [exact Hconv |].
  exact (no_image_for_text_only_model (imports := demo_imports)
           text_only_model image_context false false items eq_refl Hconv).
Defined.

(** The errored message converts, although its thinking signature is not
    JSON, and gives one output message for its one text block. *)
Lemma errored_message_sends_text_only_witness :
  exists items k',
    convertAssistantBlocks (imports := demo_imports) errored_message
      (content errored_message) 0%nat = Ok (items, k') /\
    forallb is_output_message items = true /\
    length items = 1%nat.
Proof.
  exact (errored_message_sends_text_only (imports := demo_imports)
           errored_message (content errored_message) 0%nat eq_refl).
Defined.

(** The replayed history, which the concrete [transformMessages] returns
    as it is, holds one tool call and one tool result, and the converted
    input one [function_call] and one [function_call_output]. *)
Lemma calls_and_answers_preserved_witness :
  exists items,
    convertMessages (imports := demo_imports) demo_model replay_context
      false false = Ok items /\
    length (List.filter is_function_call items) = 1%nat /\
    length (List.filter is_function_call_output items) = 1%nat.
Proof.
  assert (Hconv : exists items,
             convertMessages (imports := demo_imports) demo_model
               replay_context false false = Ok items).
  { vm_compute. eexists. reflexivity. }
  destruct Hconv as (items & Hconv).
  exists items. split; [exact Hconv |].
  exact (calls_and_answers_preserved (imports := demo_imports) demo_model
           replay_context false false items Hconv).
Defined.

(** The concrete model reasons and is a gpt-5 model, and the concrete
    options ask for no reasoning: the request has no [reasoning] parameter
    and ends with the juice prompt for the [developer] role. *)
Lemma reasoning_or_juice_witness :
  exists params,
    buildParams (imports := demo_imports) demo_model demo_context
      (demo_options false) = Ok params /\
    p_reasoning params = None /\
    p_input params
    = [I_message "developer" [input_text "# Juice: 0 !important"]].
Proof.
  assert (Hparams : exists params,
             buildParams (imports := demo_imports) demo_model demo_context
               (demo_options false) = Ok params /\
             p_reasoning params = None /\
             p_input params
             = [I_message "developer" [input_text "# Juice: 0 !important"]]).
  { vm_compute. eexists. repeat split. }
  destruct Hparams as (params & Hparams & Hnone & Hinput).
  destruct (reasoning_or_juice (imports := demo_imports) demo_model
              demo_context (demo_options false) params Hparams)
    as (converted & _ & _).
  exists params. auto.
Defined.

(** A key given to [streamSimple] is the key of the client. *)
Lemma resolved_key_reaches_client_witness :
  exists client,
    createClient demo_model
      (Some (Dispatch.as_responses_options
               (Stream.mapOptionsForApi demo_model None (Some "sk-test"))))
      (Some "sk-env")
    = Ok client /\
    cl_apiKey client = "sk-test".
Proof.
  destruct (resolved_key_reaches_client demo_model None "sk-test"
              (Some "sk-env") ltac:(discriminate))
    as (client & Hclient & Hkey & _).
  exists client. split; [exact Hclient | exact Hkey].
Defined.



(** A run that resolves: the favicon request is ignored, and the callback
    that resolves the promise carries the expected state. *)
Lemma callback_needs_expected_state_witness :
  LocalServer.settled
    (LocalServer.run "xyz" 1455
       [LocalServer.Listening;
        LocalServer.Incoming
          {| LocalServer.pathname := "/favicon.ico";
             LocalServer.q_code := None;
             LocalServer.q_state := None;
             LocalServer.q_error := None;
             LocalServer.q_error_description := None |};
        LocalServer.Incoming (LocalServer.good_callback "xyz")]
       LocalServer.startCallbackServer)
  = Some (Ok {| LocalServer.code := "abc"; LocalServer.state := "xyz" |}) /\
  exists req,
    In (LocalServer.Incoming req)
      [LocalServer.Listening;
       LocalServer.Incoming
         {| LocalServer.pathname := "/favicon.ico";
            LocalServer.q_code := None;
            LocalServer.q_state := None;
            LocalServer.q_error := None;
            LocalServer.q_error_description := None |};
       LocalServer.Incoming (LocalServer.good_callback "xyz")] /\
    LocalServer.q_code req = Some "abc" /\
    LocalServer.q_state req = Some "xyz".
Proof.
  assert (Hrun :
            LocalServer.settled
              (LocalServer.run "xyz" 1455
                 [LocalServer.Listening;
                  LocalServer.Incoming
                    {| LocalServer.pathname := "/favicon.ico";
                       LocalServer.q_code := None;
                       LocalServer.q_state := None;
                       LocalServer.q_error := None;
                       LocalServer.q_error_description := None |};
                  LocalServer.Incoming (LocalServer.good_callback "xyz")]
                 LocalServer.startCallbackServer)
            = Some (Ok {| LocalServer.code := "abc";
                          LocalServer.state := "xyz" |})).
  { vm_compute. reflexivity. }
  split; [exact Hrun |].
  destruct (callback_needs_expected_state _ _ _ _ Hrun)
    as (_ & _ & _ & req & Hin & Hcode & Hstate & _).
  exists req. split; [exact Hin |]. split; [exact Hcode | exact Hstate].
Defined.

(** Saving and removing the OpenAI credentials leaves what is read for
    [anthropic] as it was. *)
Lemma credentials_round_trip_witness :
  OAuth.loadOAuthCredentials "anthropic"
    (OAuth.saveOAuthCredentials "openai" OAuth.old_credentials
       (OAuth.disk_with "anthropic" OAuth.old_credentials))
  = OAuth.loadOAuthCredentials "anthropic"
      (OAuth.disk_with "anthropic" OAuth.old_credentials) /\
  OAuth.loadOAuthCredentials "anthropic"
    (OAuth.removeOAuthCredentials "openai"
       (OAuth.disk_with "anthropic" OAuth.old_credentials))
  = OAuth.loadOAuthCredentials "anthropic"
      (OAuth.disk_with "anthropic" OAuth.old_credentials).
Proof.
  destruct (credentials_round_trip
              (OAuth.disk_with "anthropic" OAuth.old_credentials)
              "openai" "anthropic" OAuth.old_credentials eq_refl eq_refl)
    as (Hsave & Hremove & _).
  rewrite decide_False in Hsave by discriminate.
  rewrite decide_False in Hremove by discriminate.
  split; [exact Hsave | exact Hremove].
Defined.

(** Refreshing the OpenAI token leaves the Anthropic credentials alone. *)
Lemma token_matches_store_witness :
  OAuth.loadOAuthCredentials "anthropic"
    (OAuth.getOAuthToken OAuth.refusing OAuth.one_hour_token OAuth.no_account
       "openai" 2000 2000 (OAuth.disk_with "openai" OAuth.old_credentials)).2
  = OAuth.loadOAuthCredentials "anthropic"
      (OAuth.disk_with "openai" OAuth.old_credentials).
Proof.
  refine (proj2 (token_matches_store OAuth.refusing OAuth.one_hour_token
                   OAuth.no_account "openai" "anthropic" 2000 2000
                   (OAuth.disk_with "openai" OAuth.old_credentials)) _).
  discriminate.
Defined.

(** Before its expiry at 1000 the stored token is returned, even by an
    endpoint that would refuse. *)
Lemma fresh_token_not_refreshed_witness :
  OAuth.getOAuthToken OAuth.refusing OAuth.refusing OAuth.no_account
    "openai" 500 500 (OAuth.disk_with "openai" OAuth.old_credentials)
  = (Some "a0", OAuth.disk_with "openai" OAuth.old_credentials).
Proof.
  apply (fresh_token_not_refreshed OAuth.refusing OAuth.refusing
           OAuth.no_account "openai" 500 500
           (OAuth.disk_with "openai" OAuth.old_credentials)
           OAuth.old_credentials).
  - vm_compute. reflexivity.
  - vm_compute. reflexivity.
Defined.

(** At 2000 the token has expired; the endpoint grants one hour at 2100, so
    the new token [a1] is stored with expiry 2100 + 3600000 - 300000. *)
Lemma expired_token_refreshed_or_dropped_witness :
  let result :=
    OAuth.getOAuthToken OAuth.refusing OAuth.one_hour_token OAuth.no_account
      "openai" 2000 2100 (OAuth.disk_with "openai" OAuth.old_credentials) in
  result.1 = Some "a1" /\
  OAuth.loadOAuthCredentials "openai" result.2
  = Some {| OAuth.refresh := "r1"; OAuth.access := "a1";
            OAuth.expires := 3302100; OAuth.accountId := None |}.
Proof.
  apply (expired_token_refreshed_or_dropped OAuth.refusing
           OAuth.one_hour_token OAuth.no_account 2000 2100
           (OAuth.disk_with "openai" OAuth.old_credentials)
           OAuth.old_credentials).
  - vm_compute. reflexivity.
  - vm_compute. discriminate.
Defined.

(** Expired GitHub Copilot credentials are removed. *)
Lemma unsupported_provider_dropped_witness :
  OAuth.getOAuthToken OAuth.one_hour_token OAuth.one_hour_token
    OAuth.no_account "github-copilot" 2000 2100
    (OAuth.disk_with "github-copilot" OAuth.old_credentials)
  = (None,
     OAuth.removeOAuthCredentials "github-copilot"
       (OAuth.disk_with "github-copilot" OAuth.old_credentials)).
Proof.
  apply (unsupported_provider_dropped OAuth.one_hour_token
           OAuth.one_hour_token OAuth.no_account "github-copilot" 2000 2100
           (OAuth.disk_with "github-copilot" OAuth.old_credentials)
           OAuth.old_credentials).
  - discriminate.
  - discriminate.
  - vm_compute. reflexivity.
  - vm_compute. discriminate.
Defined.

(** The token refreshed at 2100 is returned again at 3000000, by an
    endpoint that would refuse. *)
Lemma refreshed_token_stays_valid_witness :
  let first :=
    OAuth.getOAuthToken OAuth.refusing OAuth.one_hour_token OAuth.no_account
      "openai" 2000 2100 (OAuth.disk_with "openai" OAuth.old_credentials) in
  OAuth.getOAuthToken OAuth.refusing OAuth.refusing OAuth.no_account
    "openai" 3000000 3000000 first.2
  = (Some "a1", first.2).
Proof.
  apply (refreshed_token_stays_valid OAuth.refusing OAuth.one_hour_token
           OAuth.refusing OAuth.refusing OAuth.no_account OAuth.no_account
           2000 2100 3000000 3000000
           (OAuth.disk_with "openai" OAuth.old_credentials)
           OAuth.old_credentials
           {| OAuth.access_token := "a1"; OAuth.refresh_token := "r1";
              OAuth.expires_in := 3600 |}).
  - vm_compute. reflexivity.
  - vm_compute. discriminate.
  - reflexivity.
  - vm_compute. reflexivity.
Defined.
